(** * CustomShaderStage: the custom shader pipeline stage of ModelExperimental

    A shallow embedding of
    [Source/Scene/ModelExperimental/CustomShaderStage.js] and the properties
    of its generate-then-commit algorithm.

    Conventions of the embedding:
    - a JavaScript object used as a dictionary is the list of its own
      enumerable properties in [for ... in] order (array-index keys first, in
      ascending numeric order, then the other keys in insertion order);
    - [undefined] is [None];
    - a property read [o[k]] on an object literal sees the members it
      inherits from [Object.prototype] behind its own properties; a method
      call [o.hasOwnProperty(k)] is taken to reach
      [Object.prototype.hasOwnProperty], no dictionary having an own property
      of that name;
    - the shader builder is the sequence of calls it has received;
    - [CustomShaderStage._oneTimeWarning] is the sequence of calls it has
      received (the de-duplication happens behind that entry point);
    - the stage runs in a small state-and-exception monad over the render
      resources and the warning sink. *)

From Stdlib Require Import String Ascii List Bool NArith Lia.
From Stdlib Require Import DecimalString.
Import ListNotations.
Open Scope string_scope.
Open Scope list_scope.

Set Implicit Arguments.

(* ===================================================================== *)
(** * JavaScript strings *)
(* ===================================================================== *)

Module JsString.

(** [c] is one of the characters of the class [[0-9]]. *)
Definition isDigit (c : ascii) : bool :=
  let n := N_of_ascii c in (48 <=? n)%N && (n <=? 57)%N.

(** [s] matches [[0-9]+$] from its first character on. *)
Fixpoint allDigits1 (s : string) : bool :=
  match s with
  | EmptyString => false
  | String c EmptyString => isDigit c
  | String c rest => isDigit c && allDigits1 rest
  end.

(** [s.replace(/_[0-9]+$/, "")]: scanning from the left, the first position
    at which [_ digit+ end-of-input] matches is cut off. *)
Fixpoint stripSetIndex (s : string) : string :=
  match s with
  | EmptyString => EmptyString
  | String c rest =>
      if Ascii.eqb c "_" && allDigits1 rest then EmptyString
      else String c (stripSetIndex rest)
  end.

(** [s.substring(1)] *)
Definition substring1 (s : string) : string :=
  match s with
  | EmptyString => EmptyString
  | String _ rest => rest
  end.

Definition lowerChar (c : ascii) : ascii :=
  let n := N_of_ascii c in
  if (65 <=? n)%N && (n <=? 90)%N then ascii_of_N (n + 32) else c.

(** [s.toLowerCase()] on the ASCII range. *)
Fixpoint toLowerCase (s : string) : string :=
  match s with
  | EmptyString => EmptyString
  | String c rest => String (lowerChar c) (toLowerCase rest)
  end.

(** String conversion of a possibly undefined operand of [+]. *)
Definition ofValue (v : option string) : string :=
  match v with
  | Some s => s
  | None => "undefined"
  end.

End JsString.

(* ===================================================================== *)
(** * JavaScript objects used as dictionaries *)
(* ===================================================================== *)

Module JsObject.

Definition t (V : Type) := list (string * V).

Definition empty {V : Type} : t V := [].

(** [o[k]] *)
Fixpoint get {V : Type} (o : t V) (k : string) : option V :=
  match o with
  | [] => None
  | (k', v) :: rest => if String.eqb k k' then Some v else get rest k
  end.

(** [o.hasOwnProperty(k)], also [k in o] for the plain objects used here. *)
Definition hasOwnProperty {V : Type} (o : t V) (k : string) : bool :=
  match get o k with
  | Some _ => true
  | None => false
  end.

(** The keys visited by [for (k in o)], in order. *)
Definition keys {V : Type} (o : t V) : list string := map fst o.

Definition digitValue (c : ascii) : option N :=
  if JsString.isDigit c then Some (N_of_ascii c - 48)%N else None.

Fixpoint parseDigits (s : string) (acc : N) : option N :=
  match s with
  | EmptyString => Some acc
  | String c rest =>
      match digitValue c with
      | Some d => parseDigits rest (acc * 10 + d)%N
      | None => None
      end
  end.

(** The numeric value of a key that is an array index: a canonical decimal
    numeral below 2^32 - 1. *)
Definition arrayIndex (k : string) : option N :=
  match k with
  | EmptyString => None
  | String "0" EmptyString => Some 0%N
  | String "0" _ => None
  | _ =>
      match parseDigits k 0 with
      | Some n => if (n <? 4294967295)%N then Some n else None
      | None => None
      end
  end.

(** A new key [k] is enumerated before the existing key [k']. *)
Definition precedes (k k' : string) : bool :=
  match arrayIndex k, arrayIndex k' with
  | Some i, Some j => (i <? j)%N
  | Some _, None => true
  | None, _ => false
  end.

Fixpoint replace {V : Type} (o : t V) (k : string) (v : V) : t V :=
  match o with
  | [] => []
  | (k', v') :: rest =>
      if String.eqb k k' then (k', v) :: rest
      else (k', v') :: replace rest k v
  end.

Fixpoint insertNew {V : Type} (o : t V) (k : string) (v : V) : t V :=
  match o with
  | [] => [(k, v)]
  | (k', v') :: rest =>
      if precedes k k' then (k, v) :: (k', v') :: rest
      else (k', v') :: insertNew rest k v
  end.

(** [o[k] = v]: an existing property keeps its place, a new one is added. *)
Definition set {V : Type} (o : t V) (k : string) (v : V) : t V :=
  if hasOwnProperty o k then replace o k v else insertNew o k v.

End JsObject.

(* ===================================================================== *)
(** * Attribute partitioner *)
(* ===================================================================== *)

Record Categories (A : Type) := {
  addToShader : JsObject.t A;
  missingAttributes : list string
}.

Definition partitionAttributes {A S : Type}
    (primitiveAttributes : JsObject.t A) (shaderAttributeSet : JsObject.t S)
  : Categories A :=
  (* addToShader = shaderAttributes intersect primitiveAttributes: the loop
     runs over the primitive's properties and keeps the ones the shader
     names *)
  let addToShader :=
    fold_left
      (fun acc kv =>
         if JsObject.hasOwnProperty shaderAttributeSet (fst kv)
         then JsObject.set acc (fst kv) (snd kv)
         else acc)
      primitiveAttributes JsObject.empty in
  (* missingAttributes = shaderAttributes - primitiveAttributes *)
  let missingAttributes :=
    fold_left
      (fun acc attributeName =>
         if negb (JsObject.hasOwnProperty primitiveAttributes attributeName)
         then acc ++ [attributeName]
         else acc)
      (JsObject.keys shaderAttributeSet) [] in
  {| addToShader := addToShader; missingAttributes := missingAttributes |}.

(* ===================================================================== *)
(** * Collaborators *)
(* ===================================================================== *)

Inductive ShaderDestination := VERTEX | FRAGMENT | BOTH.

(** The members of [Pass] and [AlphaMode] the stage assigns, next to the
    ones earlier pipeline stages may have left behind. *)
Inductive Pass := PASS_CESIUM_3D_TILE | PASS_OPAQUE | PASS_TRANSLUCENT.
Inductive AlphaMode := OPAQUE | MASK | BLEND.

(** What the stage imports and only calls: the enumerations with their
    look-up functions, and the two fixed GLSL epilogues. *)
Class Collaborators := {
  Semantic : Type;
  AttributeType : Type;
  LightingModel : Type;
  CustomShaderMode : Type;
  UniformValue : Type;
  (** [VertexAttributeSemantic.getVariableName(semantic, setIndex)] *)
  getVariableName : Semantic -> option N -> string;
  (** [AttributeType.getGlslType(attributeType)] *)
  getGlslType : AttributeType -> string;
  (** [CustomShaderMode.getDefineName(mode)] *)
  getDefineName : CustomShaderMode -> string;
  CustomShaderStageVS : string;
  CustomShaderStageFS : string;
  FrameState : Type;
  (** [String(Object.prototype[name])]: the string conversion of the member
      of that name that object literals inherit *)
  memberText : string -> string
}.

(* ===================================================================== *)
(** * Default inference policy *)
(* ===================================================================== *)

(** [(glslType, variableName)], the two-element array pushed on
    [attributeFields]. *)
Definition AttributeField := (string * string)%type.

(** The names of the properties that every object literal inherits from
    [Object.prototype]. *)
Definition objectPrototypeNames : list string :=
  [ "constructor"; "hasOwnProperty"; "isPrototypeOf";
    "propertyIsEnumerable"; "toLocaleString"; "toString"; "valueOf";
    "__defineGetter__"; "__defineSetter__"; "__lookupGetter__";
    "__lookupSetter__"; "__proto__" ].

(** [table[key]] on an object literal [table] that has no own property
    [key]: the member inherited from [Object.prototype] when [key] names
    one, [undefined] otherwise. The member is a function (for [__proto__]
    the prototype itself), not a string; it is recorded by its string
    conversion. *)
Definition inheritedMember `{Collaborators} (key : string) : option string :=
  if existsb (String.eqb key) objectPrototypeNames
  then Some (memberText key)
  else None.

(** GLSL types of standard attribute types when uniquely defined. The
    table is read with [attributeTypeLUT[key]]: its own six keys first, the
    inherited members behind them. *)
Definition attributeTypeLUT `{Collaborators} (key : string) : option string :=
  if String.eqb key "positionMC" then Some "vec3"
  else if String.eqb key "normal" then Some "vec3"
  else if String.eqb key "tangent" then Some "vec4"
  else if String.eqb key "texCoord" then Some "vec2"
  else if String.eqb key "joints" then Some "ivec4"
  else if String.eqb key "weights" then Some "vec4"
  else inheritedMember key.

(** Corresponding attribute values, read the same way. *)
Definition attributeDefaultValueLUT `{Collaborators} (key : string)
  : option string :=
  if String.eqb key "positionMC" then Some "vec3(0.0)"
  else if String.eqb key "normal" then Some "vec3(0.0, 0.0, 1.0)"
  else if String.eqb key "tangent" then Some "vec4(1.0, 0.0, 0.0, 1.0)"
  else if String.eqb key "texCoord" then Some "vec2(0.0)"
  else if String.eqb key "joints" then Some "ivec4(0)"
  else if String.eqb key "weights" then Some "vec4(0.0)"
  else inheritedMember key.

Record AttributeDefaults := {
  attributeField : AttributeField;
  value : option string
}.

Definition inferAttributeDefaults `{Collaborators} (attributeName : string)
  : option AttributeDefaults :=
  (* remove trailing set indices. E.g. "texCoord_0" -> "texCoord" *)
  let trimmed := JsString.stripSetIndex attributeName in
  let glslType := attributeTypeLUT trimmed in
  let value := attributeDefaultValueLUT trimmed in
  match glslType with
  | None => None
  | Some glslType =>
      Some {| attributeField := (glslType, attributeName); value := value |}
  end.

(* ===================================================================== *)
(** * Data model *)
(* ===================================================================== *)

(** One call received by the shader builder. *)
Inductive BuilderCall :=
| addStruct (structId structName : string) (destination : ShaderDestination)
| addStructField (structId type identifier : string)
| addFunction (functionId signature : string)
    (destination : ShaderDestination)
| addFunctionLine (functionId line : string)
| addVertexLines (lines : list (option string))
| addFragmentLines (lines : list (option string))
| addDefine (identifier : string) (value : option string)
    (destination : ShaderDestination)
| addUniform (type identifier : string)
| addVarying (type identifier : string).

(** One call received by [CustomShaderStage._oneTimeWarning]. *)
Record Warning := { identifier : string; message : string }.

Inductive JsError := TypeError.

Record StageLines := {
  enabled : bool;
  attributeFields : option (list AttributeField);
  fragmentInputFields : option (list AttributeField);
  initializationLines : option (list string)
}.

Record GeneratedCode := {
  vertexLines : StageLines;
  fragmentLines : StageLines;
  vertexLinesEnabled : bool;
  fragmentLinesEnabled : bool;
  customShaderEnabled : bool;
  shouldComputePositionWC : bool
}.

Inductive Outcome (A : Type) :=
| Returned (a : A)
| Thrown (e : JsError).

Arguments Returned {A} a.
Arguments Thrown {A} e.

Record PositionBuiltins := {
  pb_fragmentInputFields : list AttributeField;
  pb_initializationLines : list string
}.

Section Model.

Context `{Collaborators}.

(** [ModelComponents.Attribute], the fields the stage reads. *)
Record Attribute := {
  name : string;
  semantic : option Semantic;
  setIndex : option N;
  type : AttributeType
}.

Record Primitive := { attributes : list Attribute }.

Record UsedVariables := {
  attributeSet : JsObject.t bool;
  positionSet : JsObject.t bool
}.

(** A declared uniform; [uniformType] is its [type] property. *)
Record Uniform := { uniformType : string; uniformValue : UniformValue }.

Record CustomShader := {
  mode : CustomShaderMode;
  lightingModel : option LightingModel;
  uniforms : JsObject.t Uniform;
  varyings : JsObject.t string;
  vertexShaderText : option string;
  fragmentShaderText : option string;
  isTranslucent : bool;
  uniformMap : JsObject.t UniformValue;
  usedVariablesVertex : UsedVariables;
  usedVariablesFragment : UsedVariables
}.

(** [renderResources.lightingOptions]; [lo_lightingModel] is its
    [lightingModel] property. *)
Record LightingOptions := { lo_lightingModel : LightingModel }.

Record AlphaOptions := {
  pass : option Pass;
  alphaMode : option AlphaMode
}.

(** [PrimitiveRenderResources]; [rr_customShader] is
    [renderResources.model.customShader] and [rr_uniformMap] is
    [renderResources.uniformMap]. *)
Record RenderResources := {
  shaderBuilder : list BuilderCall;
  rr_customShader : CustomShader;
  lightingOptions : LightingOptions;
  alphaOptions : AlphaOptions;
  rr_uniformMap : JsObject.t UniformValue
}.

(** The mutable state a call of the stage can reach. *)
Record World := {
  renderResources : RenderResources;
  warnings : list Warning
}.

Definition M (A : Type) := World -> Outcome A * World.

Definition ret {A : Type} (a : A) : M A := fun w => (Returned a, w).

Definition bind {A B : Type} (m : M A) (f : A -> M B) : M B :=
  fun w =>
    match m w with
    | (Returned a, w') => f a w'
    | (Thrown e, w') => (Thrown e, w')
    end.

Definition throw {A : Type} (e : JsError) : M A := fun w => (Thrown e, w).

End Model.

Declare Scope js_scope.
Delimit Scope js_scope with js.
Notation "x <- m ;; k" := (bind m (fun x => k))
  (at level 61, m at next level, right associativity) : js_scope.
Notation "m ;; k" := (bind m (fun _ => k))
  (at level 61, right associativity) : js_scope.
Open Scope js_scope.

Section Stage.

Context `{Collaborators}.

(** ** Effects *)

(** [CustomShaderStage._oneTimeWarning(identifier, message)] *)
Definition _oneTimeWarning (identifier message : string) : M unit :=
  fun w =>
    (Returned tt,
     {| renderResources := renderResources w;
        warnings := warnings w
                    ++ [{| identifier := identifier; message := message |}]
     |}).

(** A method call on [renderResources.shaderBuilder]. *)
Definition shaderBuilderCall (c : BuilderCall) : M unit :=
  fun w =>
    let r := renderResources w in
    (Returned tt,
     {| renderResources :=
          {| shaderBuilder := shaderBuilder r ++ [c];
             rr_customShader := rr_customShader r;
             lightingOptions := lightingOptions r;
             alphaOptions := alphaOptions r;
             rr_uniformMap := rr_uniformMap r |};
        warnings := warnings w |}).

Definition readResources : M RenderResources :=
  fun w => (Returned (renderResources w), w).

Definition writeResources (r : RenderResources) : M unit :=
  fun w => (Returned tt, {| renderResources := r; warnings := warnings w |}).

(** Reading [.length] of a property that may be undefined. *)
Definition arrayOf {A : Type} (v : option (list A)) : M (list A) :=
  match v with
  | Some l => ret l
  | None => throw TypeError
  end.

(** [for (i = 0; i < l.length; i++) body(l[i])] *)
Fixpoint forEach {A : Type} (l : list A) (body : A -> M unit) : M unit :=
  match l with
  | [] => ret tt
  | x :: rest => body x ;; forEach rest body
  end.

(** ** Attribute catalog *)

Definition getAttributeNames (attributes : list Attribute)
  : JsObject.t Attribute :=
  fold_left
    (fun names attribute =>
       let variableName :=
         match semantic attribute with
         | Some semantic => getVariableName semantic (setIndex attribute)
         | None =>
             (* Handle user defined vertex attributes. They must begin
                with an underscore. For example, "_TEMPERATURE" will be
                converted to "temperature". *)
             JsString.toLowerCase (JsString.substring1 (name attribute))
         end in
       JsObject.set names variableName attribute)
    attributes JsObject.empty.

Definition generateAttributeField (name : string) (attribute : Attribute)
  : AttributeField :=
  (getGlslType (type attribute), name).

(** ** Stage generator *)

(** The first loop of [generateVertexShaderLines] and of
    [generateFragmentShaderLines], which differ in the name of the input
    struct only: one field and one copying line per property of
    [addToShader]. *)
Definition copyAttributes (inputName : string)
    (addToShader : JsObject.t Attribute)
  : list AttributeField * list string :=
  fold_left
    (fun acc kv =>
       let variableName := fst kv in
       let attribute := snd kv in
       let attributeField := generateAttributeField variableName attribute in
       let initialization :=
         (inputName ++ ".attributes." ++ variableName
          ++ " = attributes." ++ variableName ++ ";")%string in
       (fst acc ++ [attributeField], snd acc ++ [initialization]))
    addToShader ([], []).

(** The second loop of both functions, over [needsDefault]: [None] is the
    early [return] after the warning. *)
Fixpoint inferDefaults (inputName warningId warningTail : string)
    (needsDefault : list string)
    (attributeFields : list AttributeField)
    (initializationLines : list string)
  : M (option (list AttributeField * list string)) :=
  match needsDefault with
  | [] => ret (Some (attributeFields, initializationLines))
  | variableName :: rest =>
      match inferAttributeDefaults variableName with
      | None =>
          _oneTimeWarning warningId
            ("Primitive is missing attribute " ++ variableName
             ++ warningTail)%string ;;
          (* This primitive isn't compatible with the shader. Return
             early to skip the shader *)
          ret None
      | Some attributeDefaults =>
          let initialization :=
            (inputName ++ ".attributes." ++ variableName ++ " = "
             ++ JsString.ofValue (value attributeDefaults) ++ ";")%string in
          inferDefaults inputName warningId warningTail rest
            (attributeFields ++ [attributeField attributeDefaults])
            (initializationLines ++ [initialization])
      end
  end.

(** Returns [vertexLines] as the call leaves the object it was given. *)
Definition generateVertexShaderLines (customShader : CustomShader)
    (namedAttributes : JsObject.t Attribute) (vertexLines : StageLines)
  : M StageLines :=
  let categories :=
    partitionAttributes namedAttributes
      (attributeSet (usedVariablesVertex customShader)) in
  let addToShader := addToShader categories in
  let needsDefault := missingAttributes categories in
  let copied := copyAttributes "vsInput" addToShader in
  r <- inferDefaults "vsInput"
         "CustomShaderStage.incompatiblePrimitiveVS"
         ", disabling custom vertex shader"
         needsDefault (fst copied) (snd copied) ;;
  match r with
  | None => ret vertexLines
  | Some (attributeFields, initializationLines) =>
      ret {| enabled := true;
             attributeFields := Some attributeFields;
             fragmentInputFields := fragmentInputFields vertexLines;
             initializationLines := Some initializationLines |}
  end.

Definition generatePositionBuiltins (customShader : CustomShader)
  : PositionBuiltins :=
  let usedVariables := positionSet (usedVariablesFragment customShader) in
  let push (field : AttributeField) (line : string)
      (acc : PositionBuiltins) :=
    {| pb_fragmentInputFields := pb_fragmentInputFields acc ++ [field];
       pb_initializationLines := pb_initializationLines acc ++ [line] |} in
  let acc :=
    {| pb_fragmentInputFields := []; pb_initializationLines := [] |} in
  (* Model space position is the same position as in the glTF accessor. *)
  let acc :=
    if JsObject.hasOwnProperty usedVariables "positionMC"
    then push ("vec3", "positionMC")
           "fsInput.positionMC = attributes.positionMC;" acc
    else acc in
  (* World coordinates in ECEF coordinates. Note that this is low
     precision (32-bit floats) on the GPU. *)
  let acc :=
    if JsObject.hasOwnProperty usedVariables "positionWC"
    then push ("vec3", "positionWC")
           "fsInput.positionWC = attributes.positionWC;" acc
    else acc in
  (* position in eye coordinates *)
  let acc :=
    if JsObject.hasOwnProperty usedVariables "positionEC"
    then push ("vec3", "positionEC")
           "fsInput.positionEC = attributes.positionEC;" acc
    else acc in
  acc.

(** Returns [fragmentLines] as the call leaves the object it was given. *)
Definition generateFragmentShaderLines (customShader : CustomShader)
    (namedAttributes : JsObject.t Attribute) (fragmentLines : StageLines)
  : M StageLines :=
  let categories :=
    partitionAttributes namedAttributes
      (attributeSet (usedVariablesFragment customShader)) in
  let addToShader := addToShader categories in
  let needsDefault := missingAttributes categories in
  let copied := copyAttributes "fsInput" addToShader in
  r <- inferDefaults "fsInput"
         "CustomShaderStage.incompatiblePrimitiveFS"
         ", disabling custom fragment shader."
         needsDefault (fst copied) (snd copied) ;;
  match r with
  | None => ret fragmentLines
  | Some (attributeFields, initializationLines) =>
      (* Built-ins for positions in various coordinate systems. *)
      let positionBuiltins := generatePositionBuiltins customShader in
      ret {| enabled := true;
             attributeFields := Some attributeFields;
             fragmentInputFields :=
               Some (pb_fragmentInputFields positionBuiltins);
             initializationLines :=
               Some (pb_initializationLines positionBuiltins
                     ++ initializationLines) |}
  end.

Definition isDefined {A : Type} (v : option A) : bool :=
  match v with
  | Some _ => true
  | None => false
  end.

Definition disabledLines : StageLines :=
  {| enabled := false;
     attributeFields := None;
     fragmentInputFields := None;
     initializationLines := None |}.

Definition generateShaderLines (customShader : CustomShader)
    (primitive : Primitive) : M GeneratedCode :=
  (* Assume shader code is disabled unless proven otherwise *)
  let vertexLines := disabledLines in
  let fragmentLines := disabledLines in
  (* Attempt to generate vertex and fragment shader lines before adding
     any code to the shader. *)
  let namedAttributes := getAttributeNames (attributes primitive) in
  vertexLines <-
    (if isDefined (vertexShaderText customShader)
     then generateVertexShaderLines customShader namedAttributes vertexLines
     else ret vertexLines) ;;
  fragmentLines <-
    (if isDefined (fragmentShaderText customShader)
     then generateFragmentShaderLines customShader namedAttributes
            fragmentLines
     else ret fragmentLines) ;;
  (* positionWC must be computed in the vertex shader for use in the
     fragmentShader. However, this can be skipped if:
     - positionWC isn't used in the fragment shader
     - or the fragment shader is disabled *)
  let shouldComputePositionWC :=
    JsObject.hasOwnProperty
      (positionSet (usedVariablesFragment customShader)) "positionWC"
    && enabled fragmentLines in
  ret {| vertexLines := vertexLines;
         fragmentLines := fragmentLines;
         vertexLinesEnabled := enabled vertexLines;
         fragmentLinesEnabled := enabled fragmentLines;
         customShaderEnabled := enabled vertexLines || enabled fragmentLines;
         shouldComputePositionWC := shouldComputePositionWC |}.

(** ** Shader emitter *)

Definition addVertexLinesToShader (vertexLines : StageLines) : M unit :=
  let structId := "AttributesVS" in
  shaderBuilderCall (addStruct structId "Attributes" VERTEX) ;;
  attributeFields <- arrayOf (attributeFields vertexLines) ;;
  forEach attributeFields
    (fun field =>
       let glslType := fst field in
       let variableName := snd field in
       shaderBuilderCall (addStructField structId glslType variableName)) ;;
  (* This could be hard-coded, but the symmetry with other structs makes
     unit tests more convenient *)
  let structId := "VertexInput" in
  shaderBuilderCall (addStruct structId "VertexInput" VERTEX) ;;
  shaderBuilderCall (addStructField structId "Attributes" "attributes") ;;
  let functionId := "initializeInputStructVS" in
  let functionSignature :=
    "void initializeInputStruct(out VertexInput vsInput, ProcessedAttributes attributes)" in
  shaderBuilderCall (addFunction functionId functionSignature VERTEX) ;;
  initializationLines <- arrayOf (initializationLines vertexLines) ;;
  forEach initializationLines
    (fun line => shaderBuilderCall (addFunctionLine functionId line)).

Definition addFragmentLinesToShader (fragmentLines : StageLines) : M unit :=
  let structId := "AttributesFS" in
  shaderBuilderCall (addStruct structId "Attributes" FRAGMENT) ;;
  attributeFields <- arrayOf (attributeFields fragmentLines) ;;
  forEach attributeFields
    (fun field =>
       let glslType := fst field in
       let variableName := snd field in
       shaderBuilderCall (addStructField structId glslType variableName)) ;;
  let structId := "FragmentInput" in
  shaderBuilderCall (addStruct structId "FragmentInput" FRAGMENT) ;;
  shaderBuilderCall (addStructField structId "Attributes" "attributes") ;;
  fragmentInputFields <- arrayOf (fragmentInputFields fragmentLines) ;;
  forEach fragmentInputFields
    (fun field =>
       let glslType := fst field in
       let variableName := snd field in
       shaderBuilderCall (addStructField structId glslType variableName)) ;;
  let functionId := "initializeInputStructFS" in
  let functionSignature :=
    "void initializeInputStruct(out FragmentInput fsInput, ProcessedAttributes attributes)" in
  shaderBuilderCall (addFunction functionId functionSignature FRAGMENT) ;;
  initializationLines <- arrayOf (initializationLines fragmentLines) ;;
  forEach initializationLines
    (fun line => shaderBuilderCall (addFunctionLine functionId line)).

Definition addLinesToShader (customShader : CustomShader)
    (generatedCode : GeneratedCode) : M unit :=
  let vertexLines := vertexLines generatedCode in
  (if enabled vertexLines then
     addVertexLinesToShader vertexLines ;;
     shaderBuilderCall
       (addVertexLines
          [Some "#line 0";
           vertexShaderText customShader;
           Some CustomShaderStageVS])
   else ret tt) ;;
  let fragmentLines := fragmentLines generatedCode in
  if enabled fragmentLines then
    addFragmentLinesToShader fragmentLines ;;
    shaderBuilderCall
      (addFragmentLines
         [Some "#line 0";
          fragmentShaderText customShader;
          Some CustomShaderStageFS])
  else ret tt.

(** Modelled from the spec: [Core/combine.js], which [process] imports to
    merge two uniform maps, is not among the sources. The specification
    describes the merge as putting the user-supplied uniform values into
    the draw call's uniform bindings, the user's value taking precedence
    when both maps have the key; [object1] is the draw call's map and
    [object2] the user's, as [process] passes them. *)
Definition combine {V : Type} (object1 object2 : JsObject.t V)
  : JsObject.t V :=
  fold_left
    (fun result kv => JsObject.set result (fst kv) (snd kv))
    object2 object1.

(** ** The pipeline stage *)

Definition setLightingModel (m : LightingModel) : M unit :=
  r <- readResources ;;
  writeResources
    {| shaderBuilder := shaderBuilder r;
       rr_customShader := rr_customShader r;
       lightingOptions := {| lo_lightingModel := m |};
       alphaOptions := alphaOptions r;
       rr_uniformMap := rr_uniformMap r |}.

Definition setAlphaOptions (a : AlphaOptions) : M unit :=
  r <- readResources ;;
  writeResources
    {| shaderBuilder := shaderBuilder r;
       rr_customShader := rr_customShader r;
       lightingOptions := lightingOptions r;
       alphaOptions := a;
       rr_uniformMap := rr_uniformMap r |}.

Definition setUniformMap (u : JsObject.t UniformValue) : M unit :=
  r <- readResources ;;
  writeResources
    {| shaderBuilder := shaderBuilder r;
       rr_customShader := rr_customShader r;
       lightingOptions := lightingOptions r;
       alphaOptions := alphaOptions r;
       rr_uniformMap := u |}.

(** [CustomShaderStage.process(renderResources, primitive, frameState)];
    [renderResources] is the object held by the world. *)
Definition process (primitive : Primitive) (frameState : FrameState)
  : M unit :=
  renderResources <- readResources ;;
  let customShader := rr_customShader renderResources in
  (* Generate lines of code for the shader, but don't add them to the
     shader yet. *)
  generatedCode <- generateShaderLines customShader primitive ;;
  (* In some corner cases, the primitive may not be compatible with the
     shader. In this case, skip the custom shader. *)
  if negb (customShaderEnabled generatedCode) then ret tt
  else
    addLinesToShader customShader generatedCode ;;
    (* the input to the fragment shader may include a low-precision ECEF
       position *)
    (if shouldComputePositionWC generatedCode
     then shaderBuilderCall (addDefine "COMPUTE_POSITION_WC" None VERTEX)
     else ret tt) ;;
    (if isDefined (vertexShaderText customShader)
     then shaderBuilderCall
            (addDefine "HAS_CUSTOM_VERTEX_SHADER" None VERTEX)
     else ret tt) ;;
    (if isDefined (fragmentShaderText customShader)
     then
       shaderBuilderCall
         (addDefine "HAS_CUSTOM_FRAGMENT_SHADER" None FRAGMENT) ;;
       (* add defines like CUSTOM_SHADER_MODIFY_MATERIAL *)
       let shaderModeDefine := getDefineName (mode customShader) in
       shaderBuilderCall (addDefine shaderModeDefine None FRAGMENT)
     else ret tt) ;;
    forEach (uniforms customShader)
      (fun kv =>
         let uniformName := fst kv in
         let uniform := snd kv in
         shaderBuilderCall (addUniform (uniformType uniform) uniformName)) ;;
    forEach (varyings customShader)
      (fun kv =>
         let varyingName := fst kv in
         let varyingType := snd kv in
         shaderBuilderCall (addVarying varyingType varyingName)) ;;
    (* if present, the lighting model overrides the material's lighting
       model. *)
    (match lightingModel customShader with
     | Some m => setLightingModel m
     | None => ret tt
     end) ;;
    (if isTranslucent customShader
     then setAlphaOptions
            {| pass := Some PASS_TRANSLUCENT; alphaMode := Some BLEND |}
     else
       (* Use the default pass (either OPAQUE or 3D_TILES), regardless of
          whether the material pipeline stage used translucent. The
          default is configured in AlphaPipelineStage *)
       setAlphaOptions {| pass := None; alphaMode := Some OPAQUE |}) ;;
    renderResources <- readResources ;;
    setUniformMap
      (combine (rr_uniformMap renderResources) (uniformMap customShader)).

End Stage.

(* ===================================================================== *)
(** * The stage in closed form *)
(* ===================================================================== *)

(** The two shader stages the generator works on. *)
Inductive Stage := VertexStage | FragmentStage.

Section ClosedForm.

Context `{Collaborators}.

Definition stageText (cs : CustomShader) (st : Stage) : option string :=
  match st with
  | VertexStage => vertexShaderText cs
  | FragmentStage => fragmentShaderText cs
  end.

Definition stageAttributeSet (cs : CustomShader) (st : Stage)
  : JsObject.t bool :=
  match st with
  | VertexStage => attributeSet (usedVariablesVertex cs)
  | FragmentStage => attributeSet (usedVariablesFragment cs)
  end.

Definition stageLines (g : GeneratedCode) (st : Stage) : StageLines :=
  match st with
  | VertexStage => vertexLines g
  | FragmentStage => fragmentLines g
  end.

Definition inputName (st : Stage) : string :=
  match st with
  | VertexStage => "vsInput"
  | FragmentStage => "fsInput"
  end.

Definition warningId (st : Stage) : string :=
  match st with
  | VertexStage => "CustomShaderStage.incompatiblePrimitiveVS"
  | FragmentStage => "CustomShaderStage.incompatiblePrimitiveFS"
  end.

Definition warningTail (st : Stage) : string :=
  match st with
  | VertexStage => ", disabling custom vertex shader"
  | FragmentStage => ", disabling custom fragment shader."
  end.

(** The warning a stage gives about the missing attribute [n]. *)
Definition stageWarning (st : Stage) (n : string) : Warning :=
  {| identifier := warningId st;
     message :=
       ("Primitive is missing attribute " ++ n ++ warningTail st)%string |}.

(** The default policy has an entry for [n]. *)
Definition inferable (n : string) : bool :=
  isDefined (inferAttributeDefaults n).

(** [n] is neither in the catalog nor inferable. *)
Definition unresolvable (catalog : JsObject.t Attribute) (n : string)
  : bool :=
  negb (JsObject.hasOwnProperty catalog n) && negb (inferable n).

(** The first attribute of the stage, in the iteration order of its used
    set, that cannot be resolved. *)
Definition firstUnresolvable (catalog : JsObject.t Attribute)
    (cs : CustomShader) (st : Stage) : option string :=
  find (unresolvable catalog) (JsObject.keys (stageAttributeSet cs st)).

(** Generation is attempted for the stage and meets no unresolvable
    attribute. *)
Definition stageSucceeds (catalog : JsObject.t Attribute)
    (cs : CustomShader) (st : Stage) : bool :=
  isDefined (stageText cs st)
  && negb (isDefined (firstUnresolvable catalog cs st)).

Definition stageWarnings (catalog : JsObject.t Attribute)
    (cs : CustomShader) (st : Stage) : list Warning :=
  if isDefined (stageText cs st) then
    match firstUnresolvable catalog cs st with
    | Some n => [stageWarning st n]
    | None => []
    end
  else [].

Definition copyLine (input variableName : string) : string :=
  (input ++ ".attributes." ++ variableName
   ++ " = attributes." ++ variableName ++ ";")%string.

Definition defaultLine (input variableName : string)
    (value : option string) : string :=
  (input ++ ".attributes." ++ variableName ++ " = "
   ++ JsString.ofValue value ++ ";")%string.

(** Fields and lines of the attributes the primitive has. *)
Definition presentFields (present : JsObject.t Attribute)
  : list AttributeField :=
  map (fun kv => generateAttributeField (fst kv) (snd kv)) present.

Definition presentLines (input : string) (present : JsObject.t Attribute)
  : list string :=
  map (fun kv => copyLine input (fst kv)) present.

(** Fields and lines of the missing attributes that have a default. *)
Definition inferredFields (missing : list string) : list AttributeField :=
  flat_map
    (fun n =>
       match inferAttributeDefaults n with
       | Some d => [attributeField d]
       | None => []
       end)
    missing.

Definition inferredLines (input : string) (missing : list string)
  : list string :=
  flat_map
    (fun n =>
       match inferAttributeDefaults n with
       | Some d => [defaultLine input n (value d)]
       | None => []
       end)
    missing.

(** What a successful generation leaves in the stage's lines. *)
Definition successfulLines (catalog : JsObject.t Attribute)
    (cs : CustomShader) (st : Stage) : StageLines :=
  let categories := partitionAttributes catalog (stageAttributeSet cs st) in
  let present := addToShader categories in
  let missing := missingAttributes categories in
  let fields := presentFields present ++ inferredFields missing in
  let lines :=
    presentLines (inputName st) present
    ++ inferredLines (inputName st) missing in
  match st with
  | VertexStage =>
      {| enabled := true;
         attributeFields := Some fields;
         fragmentInputFields := None;
         initializationLines := Some lines |}
  | FragmentStage =>
      let positionBuiltins := generatePositionBuiltins cs in
      {| enabled := true;
         attributeFields := Some fields;
         fragmentInputFields :=
           Some (pb_fragmentInputFields positionBuiltins);
         initializationLines :=
           Some (pb_initializationLines positionBuiltins ++ lines) |}
  end.

Definition generatedLines (catalog : JsObject.t Attribute)
    (cs : CustomShader) (st : Stage) : StageLines :=
  if stageSucceeds catalog cs st then successfulLines catalog cs st
  else disabledLines.

(** The value [generateShaderLines] returns. *)
Definition generated (cs : CustomShader) (primitive : Primitive)
  : GeneratedCode :=
  let catalog := getAttributeNames (attributes primitive) in
  let v := generatedLines catalog cs VertexStage in
  let f := generatedLines catalog cs FragmentStage in
  {| vertexLines := v;
     fragmentLines := f;
     vertexLinesEnabled := enabled v;
     fragmentLinesEnabled := enabled f;
     customShaderEnabled := enabled v || enabled f;
     shouldComputePositionWC :=
       JsObject.hasOwnProperty
         (positionSet (usedVariablesFragment cs)) "positionWC"
       && enabled f |}.

(** The warnings [generateShaderLines] gives, in order. *)
Definition generationWarnings (cs : CustomShader) (primitive : Primitive)
  : list Warning :=
  let catalog := getAttributeNames (attributes primitive) in
  stageWarnings catalog cs VertexStage
  ++ stageWarnings catalog cs FragmentStage.

(** A world after more warnings, and after more builder calls. *)
Definition warn (ws : list Warning) (w : World) : World :=
  {| renderResources := renderResources w;
     warnings := warnings w ++ ws |}.

Definition emit (calls : list BuilderCall) (w : World) : World :=
  let r := renderResources w in
  {| renderResources :=
       {| shaderBuilder := shaderBuilder r ++ calls;
          rr_customShader := rr_customShader r;
          lightingOptions := lightingOptions r;
          alphaOptions := alphaOptions r;
          rr_uniformMap := rr_uniformMap r |};
     warnings := warnings w |}.

Definition listOf {A : Type} (v : option (list A)) : list A :=
  match v with
  | Some l => l
  | None => []
  end.

Definition structFields (structId : string) (fields : list AttributeField)
  : list BuilderCall :=
  map (fun field => addStructField structId (fst field) (snd field)) fields.

Definition functionLines (functionId : string) (lines : list string)
  : list BuilderCall :=
  map (addFunctionLine functionId) lines.

(** The calls that commit an enabled stage, user text included. *)
Definition stageEmission (cs : CustomShader) (st : Stage)
    (lines : StageLines) : list BuilderCall :=
  match st with
  | VertexStage =>
      [addStruct "AttributesVS" "Attributes" VERTEX]
      ++ structFields "AttributesVS" (listOf (attributeFields lines))
      ++ [addStruct "VertexInput" "VertexInput" VERTEX;
          addStructField "VertexInput" "Attributes" "attributes";
          addFunction "initializeInputStructVS"
            "void initializeInputStruct(out VertexInput vsInput, ProcessedAttributes attributes)"
            VERTEX]
      ++ functionLines "initializeInputStructVS"
           (listOf (initializationLines lines))
      ++ [addVertexLines
            [Some "#line 0"; vertexShaderText cs;
             Some CustomShaderStageVS]]
  | FragmentStage =>
      [addStruct "AttributesFS" "Attributes" FRAGMENT]
      ++ structFields "AttributesFS" (listOf (attributeFields lines))
      ++ [addStruct "FragmentInput" "FragmentInput" FRAGMENT;
          addStructField "FragmentInput" "Attributes" "attributes"]
      ++ structFields "FragmentInput" (listOf (fragmentInputFields lines))
      ++ [addFunction "initializeInputStructFS"
            "void initializeInputStruct(out FragmentInput fsInput, ProcessedAttributes attributes)"
            FRAGMENT]
      ++ functionLines "initializeInputStructFS"
           (listOf (initializationLines lines))
      ++ [addFragmentLines
            [Some "#line 0"; fragmentShaderText cs;
             Some CustomShaderStageFS]]
  end.

Definition emission (cs : CustomShader) (g : GeneratedCode)
  : list BuilderCall :=
  (if enabled (vertexLines g)
   then stageEmission cs VertexStage (vertexLines g) else [])
  ++ (if enabled (fragmentLines g)
      then stageEmission cs FragmentStage (fragmentLines g) else []).

(** The defines [process] adds after the emission. *)
Definition defines (cs : CustomShader) (g : GeneratedCode)
  : list BuilderCall :=
  (if shouldComputePositionWC g
   then [addDefine "COMPUTE_POSITION_WC" None VERTEX] else [])
  ++ (if isDefined (vertexShaderText cs)
      then [addDefine "HAS_CUSTOM_VERTEX_SHADER" None VERTEX] else [])
  ++ (if isDefined (fragmentShaderText cs)
      then [addDefine "HAS_CUSTOM_FRAGMENT_SHADER" None FRAGMENT;
            addDefine (getDefineName (mode cs)) None FRAGMENT]
      else []).

Definition declarations (cs : CustomShader) : list BuilderCall :=
  map (fun kv => addUniform (uniformType (snd kv)) (fst kv)) (uniforms cs)
  ++ map (fun kv => addVarying (snd kv) (fst kv)) (varyings cs).

(** The struct that holds the attributes of a stage, and the function that
    initializes the stage's input. *)
Definition attributesStruct (st : Stage) : string :=
  match st with
  | VertexStage => "AttributesVS"
  | FragmentStage => "AttributesFS"
  end.

Definition initializationFunction (st : Stage) : string :=
  match st with
  | VertexStage => "initializeInputStructVS"
  | FragmentStage => "initializeInputStructFS"
  end.

(** The builder calls of one run of [process]. *)
Definition newCalls (cs : CustomShader) (g : GeneratedCode)
  : list BuilderCall :=
  if customShaderEnabled g
  then emission cs g ++ defines cs g ++ declarations cs
  else [].

(** The render resources [process] leaves when the custom shader is
    enabled. *)
Definition committed (r : RenderResources) (g : GeneratedCode)
  : RenderResources :=
  let cs := rr_customShader r in
  {| shaderBuilder :=
       shaderBuilder r ++ emission cs g ++ defines cs g ++ declarations cs;
     rr_customShader := cs;
     lightingOptions :=
       match lightingModel cs with
       | Some m => {| lo_lightingModel := m |}
       | None => lightingOptions r
       end;
     alphaOptions :=
       if isTranslucent cs
       then {| pass := Some PASS_TRANSLUCENT; alphaMode := Some BLEND |}
       else {| pass := None; alphaMode := Some OPAQUE |};
     rr_uniformMap := combine (rr_uniformMap r) (uniformMap cs) |}.

(** The world [process] leaves. *)
Definition processed (primitive : Primitive) (w : World) : World :=
  let r := renderResources w in
  let cs := rr_customShader r in
  let g := generated cs primitive in
  {| renderResources := if customShaderEnabled g then committed r g else r;
     warnings := warnings w ++ generationWarnings cs primitive |}.

(** The lines of an enabled stage carry the arrays the emitter reads. *)
Definition complete (st : Stage) (lines : StageLines) : Prop :=
  enabled lines = true ->
  attributeFields lines <> None
  /\ initializationLines lines <> None
  /\ (st = FragmentStage -> fragmentInputFields lines <> None).

(** The builder call [c] declares or fills a struct or function of the
    stage [st], or appends the stage's source lines. *)
Definition belongsTo (st : Stage) (c : BuilderCall) : bool :=
  match st, c with
  | VertexStage, addStruct _ _ VERTEX => true
  | VertexStage, addFunction _ _ VERTEX => true
  | VertexStage, addStructField id _ _ =>
      String.eqb id "AttributesVS" || String.eqb id "VertexInput"
  | VertexStage, addFunctionLine id _ =>
      String.eqb id "initializeInputStructVS"
  | VertexStage, addVertexLines _ => true
  | FragmentStage, addStruct _ _ FRAGMENT => true
  | FragmentStage, addFunction _ _ FRAGMENT => true
  | FragmentStage, addStructField id _ _ =>
      String.eqb id "AttributesFS" || String.eqb id "FragmentInput"
  | FragmentStage, addFunctionLine id _ =>
      String.eqb id "initializeInputStructFS"
  | FragmentStage, addFragmentLines _ => true
  | _, _ => false
  end.

(** The warning [x] was given by the stage [st]. *)
Definition warnedBy (st : Stage) (x : Warning) : bool :=
  String.eqb (identifier x) (warningId st).

End ClosedForm.

(* ===================================================================== *)
(** * A concrete environment for evaluating the stage *)
(* ===================================================================== *)

Module Fixture.

Inductive standardSemantic :=
| POSITION | NORMAL | TANGENT | TEXCOORD | COLOR | JOINTS | WEIGHTS.

Inductive componentType := SCALAR | VEC2 | VEC3 | VEC4.

Inductive lighting := UNLIT | PBR.

Inductive shaderMode := MODIFY_MATERIAL | REPLACE_MATERIAL.

Definition decimal (n : N) : string :=
  NilEmpty.string_of_uint (N.to_uint n).

Definition variableName (s : standardSemantic) (setIndex : option N) : string :=
  let base :=
    match s with
    | POSITION => "positionMC"
    | NORMAL => "normal"
    | TANGENT => "tangent"
    | TEXCOORD => "texCoord"
    | COLOR => "color"
    | JOINTS => "joints"
    | WEIGHTS => "weights"
    end in
  match setIndex with
  | Some i => (base ++ "_" ++ decimal i)%string
  | None => base
  end.

Definition glslType (t : componentType) : string :=
  match t with
  | SCALAR => "float"
  | VEC2 => "vec2"
  | VEC3 => "vec3"
  | VEC4 => "vec4"
  end.

Definition defineName (m : shaderMode) : string :=
  match m with
  | MODIFY_MATERIAL => "CUSTOM_SHADER_MODIFY_MATERIAL"
  | REPLACE_MATERIAL => "CUSTOM_SHADER_REPLACE_MATERIAL"
  end.

(** The text an engine gives for the members of [Object.prototype]. *)
Definition inheritedText (name : string) : string :=
  if String.eqb name "constructor"
  then "function Object() { [native code] }"
  else if String.eqb name "__proto__"
  then "[object Object]"
  else ("function " ++ name ++ "() { [native code] }")%string.

#[export] Instance collaborators : Collaborators := {
  Semantic := standardSemantic;
  AttributeType := componentType;
  LightingModel := lighting;
  CustomShaderMode := shaderMode;
  UniformValue := N;
  getVariableName := variableName;
  getGlslType := glslType;
  getDefineName := defineName;
  CustomShaderStageVS := "// CustomShaderStageVS";
  CustomShaderStageFS := "// CustomShaderStageFS";
  FrameState := unit;
  memberText := inheritedText
}.

Definition standard (s : standardSemantic) (i : option N) (t : componentType)
  : Attribute :=
  {| name := ""; semantic := Some s; setIndex := i; type := t |}.

Definition custom (n : string) (t : componentType) : Attribute :=
  {| name := n; semantic := None; setIndex := None; type := t |}.

Definition used (names : list string) : JsObject.t bool :=
  map (fun n => (n, true)) names.

(** A shader with the given source texts and used-variable sets and no
    uniforms, varyings or lighting model. *)
Definition shader (vs fs : option string)
    (vsAttributes fsAttributes fsPositions : list string)
    (translucent : bool) : CustomShader :=
  {| mode := MODIFY_MATERIAL;
     lightingModel := None;
     uniforms := [];
     varyings := [];
     vertexShaderText := vs;
     fragmentShaderText := fs;
     isTranslucent := translucent;
     uniformMap := [];
     usedVariablesVertex :=
       {| attributeSet := used vsAttributes; positionSet := [] |};
     usedVariablesFragment :=
       {| attributeSet := used fsAttributes;
          positionSet := used fsPositions |} |}.

Definition resources (cs : CustomShader) : RenderResources :=
  {| shaderBuilder := [];
     rr_customShader := cs;
     lightingOptions := {| lo_lightingModel := PBR |};
     alphaOptions := {| pass := None; alphaMode := None |};
     rr_uniformMap := [] |}.

Definition world (cs : CustomShader) : World :=
  {| renderResources := resources cs; warnings := [] |}.

(** positionMC, normal, texCoord_0 *)
Definition primitive3 : Primitive :=
  {| attributes :=
       [standard POSITION None VEC3;
        standard NORMAL None VEC3;
        standard TEXCOORD (Some 0%N) VEC2] |}.

(** positionMC alone *)
Definition primitive1 : Primitive :=
  {| attributes := [standard POSITION None VEC3] |}.

(** The world a material stage leaves: alpha options and uniform bindings
    are set already. *)
Definition worldAfterMaterial (cs : CustomShader) (alpha : AlphaOptions)
    (bindings : JsObject.t N) : World :=
  {| renderResources :=
       {| shaderBuilder := [];
          rr_customShader := cs;
          lightingOptions := {| lo_lightingModel := PBR |};
          alphaOptions := alpha;
          rr_uniformMap := bindings |};
     warnings := [] |}.

(** A vertex-only shader with user uniform values. *)
Definition shaderWithUniforms (values : JsObject.t N) : CustomShader :=
  {| mode := MODIFY_MATERIAL;
     lightingModel := None;
     uniforms := [("u_time", {| uniformType := "float"; uniformValue := 0%N |})];
     varyings := [];
     vertexShaderText := Some "void vertexMain(VertexInput vsInput, inout vec3 position) {}";
     fragmentShaderText := None;
     isTranslucent := false;
     uniformMap := values;
     usedVariablesVertex :=
       {| attributeSet := used ["positionMC"]; positionSet := [] |};
     usedVariablesFragment :=
       {| attributeSet := []; positionSet := [] |} |}.

Definition vertexText : option string :=
  Some "void vertexMain(VertexInput vsInput, inout vec3 position) {}".

Definition fragmentText : option string :=
  Some "void fragmentMain(FragmentInput fsInput, inout czm_modelMaterial material) {}".

End Fixture.

(** The concrete environment serves where a closed statement names none. *)
#[local] Existing Instance Fixture.collaborators.


(* ===================================================================== *)
(** * Vocabulary of the further properties *)
(* ===================================================================== *)

(** The key [k] may be enumerated before the key [k']: they differ, and
    [k'] is not an array index that has to come first. *)
Definition mayPrecede (k k' : string) : bool :=
  negb (String.eqb k k') && negb (JsObject.precedes k' k).

(** The keys are distinct and in the order [for ... in] visits them. *)
Fixpoint enumerated (l : list string) : bool :=
  match l with
  | [] => true
  | k :: rest => forallb (mayPrecede k) rest && enumerated rest
  end.

(** The list is the property list of an object. *)
Definition wellFormed {V : Type} (o : JsObject.t V) : Prop :=
  enumerated (JsObject.keys o) = true.


(** The three position builtins, in the order the generator tests them. *)
Definition positionBuiltinNames : list string :=
  ["positionMC"; "positionWC"; "positionEC"].

Definition isDeclaration (c : BuilderCall) : bool :=
  match c with
  | addUniform _ _ | addVarying _ _ => true
  | _ => false
  end.

Definition isDefine (c : BuilderCall) : bool :=
  match c with
  | addDefine _ _ _ => true
  | _ => false
  end.

(** The call appends source lines to the shader of the stage. *)
Definition isSourceLines (st : Stage) (c : BuilderCall) : bool :=
  match st, c with
  | VertexStage, addVertexLines _ => true
  | FragmentStage, addFragmentLines _ => true
  | _, _ => false
  end.

(** The call adds a member to the struct [structId]. *)
Definition isFieldOf (structId : string) (c : BuilderCall) : bool :=
  match c with
  | addStructField id _ _ => String.eqb id structId
  | _ => false
  end.

Section FurtherVocabulary.

Context `{Collaborators}.

(** The name under which [getAttributeNames] files an attribute. *)
Definition variableNameOf (attribute : Attribute) : string :=
  match semantic attribute with
  | Some semantic => getVariableName semantic (setIndex attribute)
  | None => JsString.toLowerCase (JsString.substring1 (name attribute))
  end.

(** The shader [cs] with another fragment position set. *)
Definition withPositionSet (cs : CustomShader) (ps : JsObject.t bool)
  : CustomShader :=
  {| mode := mode cs;
     lightingModel := lightingModel cs;
     uniforms := uniforms cs;
     varyings := varyings cs;
     vertexShaderText := vertexShaderText cs;
     fragmentShaderText := fragmentShaderText cs;
     isTranslucent := isTranslucent cs;
     uniformMap := uniformMap cs;
     usedVariablesVertex := usedVariablesVertex cs;
     usedVariablesFragment :=
       {| attributeSet := attributeSet (usedVariablesFragment cs);
          positionSet := ps |} |}.

(** [ws] is what one run may say about the stage [st]: at most one
    warning, about an attribute of the stage's used set that cannot be
    resolved, and none exactly when the stage has no source text or meets no
    such attribute. *)
Definition stageReport (catalog : JsObject.t Attribute) (cs : CustomShader)
    (st : Stage) (ws : list Warning) : Prop :=
  length ws <= 1
  /\ (forall x, In x ws ->
        exists n,
          x = stageWarning st n
          /\ stageText cs st <> None
          /\ In n (JsObject.keys (stageAttributeSet cs st))
          /\ unresolvable catalog n = true)
  /\ (ws = []
      <-> stageText cs st = None \/ firstUnresolvable catalog cs st = None).

(** The call that appends the user's text of a stage. *)
Definition sourceLinesCall (cs : CustomShader) (st : Stage) : BuilderCall :=
  match st with
  | VertexStage =>
      addVertexLines
        [Some "#line 0"; vertexShaderText cs; Some CustomShaderStageVS]
  | FragmentStage =>
      addFragmentLines
        [Some "#line 0"; fragmentShaderText cs; Some CustomShaderStageFS]
  end.

End FurtherVocabulary.

Module Samples.

#[local] Existing Instance Fixture.collaborators.

(** A primitive with user attributes, two of them of the same name up to
    case. *)
Definition userAttributes : list Attribute :=
  [Fixture.standard Fixture.POSITION None Fixture.VEC3;
   Fixture.custom "_TEMPERATURE" Fixture.SCALAR;
   Fixture.standard Fixture.TEXCOORD (Some 0%N) Fixture.VEC2;
   Fixture.custom "_Temperature" Fixture.VEC2].

(** A shader whose two stages both meet an unresolvable attribute. *)
Definition incompatibleShader : CustomShader :=
  Fixture.shader Fixture.vertexText Fixture.fragmentText
    ["positionMC"; "color_0"] ["normal"; "temperature"] ["positionWC"] true.

(** A shader with a lighting model, two uniforms and a varying. *)
Definition decoratedShader : CustomShader :=
  {| mode := Fixture.REPLACE_MATERIAL;
     lightingModel := Some Fixture.UNLIT;
     uniforms :=
       [("u_time", {| uniformType := "float"; uniformValue := 0%N |});
        ("u_tint", {| uniformType := "vec3"; uniformValue := 1%N |})];
     varyings := [("v_height", "float")];
     vertexShaderText := Fixture.vertexText;
     fragmentShaderText := Fixture.fragmentText;
     isTranslucent := false;
     uniformMap := [];
     usedVariablesVertex :=
       {| attributeSet := Fixture.used ["positionMC"; "tangent"];
          positionSet := [] |};
     usedVariablesFragment :=
       {| attributeSet := Fixture.used ["texCoord_0"; "joints_0"];
          positionSet := Fixture.used ["positionEC"; "positionMC"] |} |}.

End Samples.

(* ===================================================================== *)
(** * The stage on the scenarios of the specification *)
(* ===================================================================== *)

Example stripSetIndex_examples :
  JsString.stripSetIndex "texCoord_0" = "texCoord"
  /\ JsString.stripSetIndex "texCoord_10" = "texCoord"
  /\ JsString.stripSetIndex "a_1_2" = "a_1"
  /\ JsString.stripSetIndex "a_1b" = "a_1b"
  /\ JsString.stripSetIndex "normal_" = "normal_"
  /\ JsString.stripSetIndex "_7" = "".
Proof. repeat split; reflexivity. Qed.

(** User attributes lose their marker and are lower-cased, a later
    attribute of the same name replaces the earlier one in place, and
    array-index names are enumerated first. *)
Example getAttributeNames_example :
  JsObject.keys
    (getAttributeNames
       [Fixture.custom "_TEMPERATURE" Fixture.SCALAR;
        Fixture.standard Fixture.TEXCOORD (Some 1%N) Fixture.VEC2;
        Fixture.custom "_1" Fixture.SCALAR;
        Fixture.custom "_temperature" Fixture.VEC2;
        Fixture.custom "_0" Fixture.SCALAR])
  = ["0"; "1"; "temperature"; "texCoord_1"]
  /\ JsObject.get
       (getAttributeNames
          [Fixture.custom "_TEMPERATURE" Fixture.SCALAR;
           Fixture.custom "_temperature" Fixture.VEC2])
       "temperature"
     = Some (Fixture.custom "_temperature" Fixture.VEC2).
Proof. split; reflexivity. Qed.

(** The primitive has positionMC, normal and texCoord_0; the fragment
    shader uses normal and color_0: the fragment stage is disabled with one
    warning about color_0 and the vertex stage alone is committed. *)
Example scenario_fragment_uses_color_0 :
  let cs :=
    Fixture.shader Fixture.vertexText Fixture.fragmentText
      ["positionMC"] ["normal"; "color_0"] [] false in
  let result := process Fixture.primitive3 tt (Fixture.world cs) in
  fst result = Returned tt
  /\ warnings (snd result)
     = [{| identifier := "CustomShaderStage.incompatiblePrimitiveFS";
           message :=
             "Primitive is missing attribute color_0, disabling custom fragment shader." |}]
  /\ shaderBuilder (renderResources (snd result))
     = [addStruct "AttributesVS" "Attributes" VERTEX;
        addStructField "AttributesVS" "vec3" "positionMC";
        addStruct "VertexInput" "VertexInput" VERTEX;
        addStructField "VertexInput" "Attributes" "attributes";
        addFunction "initializeInputStructVS"
          "void initializeInputStruct(out VertexInput vsInput, ProcessedAttributes attributes)"
          VERTEX;
        addFunctionLine "initializeInputStructVS"
          "vsInput.attributes.positionMC = attributes.positionMC;";
        addVertexLines
          [Some "#line 0"; Fixture.vertexText; Some "// CustomShaderStageVS"];
        addDefine "HAS_CUSTOM_VERTEX_SHADER" None VERTEX;
        addDefine "HAS_CUSTOM_FRAGMENT_SHADER" None FRAGMENT;
        addDefine "CUSTOM_SHADER_MODIFY_MATERIAL" None FRAGMENT].
Proof. repeat split; reflexivity. Qed.

(** The primitive has positionMC alone; the vertex shader uses it and the
    fragment shader reads the builtin positionWC. *)
Example scenario_fragment_reads_positionWC :
  let cs :=
    Fixture.shader Fixture.vertexText Fixture.fragmentText
      ["positionMC"] [] ["positionWC"] false in
  let result := process Fixture.primitive1 tt (Fixture.world cs) in
  fst result = Returned tt
  /\ warnings (snd result) = []
  /\ shaderBuilder (renderResources (snd result))
     = [addStruct "AttributesVS" "Attributes" VERTEX;
        addStructField "AttributesVS" "vec3" "positionMC";
        addStruct "VertexInput" "VertexInput" VERTEX;
        addStructField "VertexInput" "Attributes" "attributes";
        addFunction "initializeInputStructVS"
          "void initializeInputStruct(out VertexInput vsInput, ProcessedAttributes attributes)"
          VERTEX;
        addFunctionLine "initializeInputStructVS"
          "vsInput.attributes.positionMC = attributes.positionMC;";
        addVertexLines
          [Some "#line 0"; Fixture.vertexText; Some "// CustomShaderStageVS"];
        addStruct "AttributesFS" "Attributes" FRAGMENT;
        addStruct "FragmentInput" "FragmentInput" FRAGMENT;
        addStructField "FragmentInput" "Attributes" "attributes";
        addStructField "FragmentInput" "vec3" "positionWC";
        addFunction "initializeInputStructFS"
          "void initializeInputStruct(out FragmentInput fsInput, ProcessedAttributes attributes)"
          FRAGMENT;
        addFunctionLine "initializeInputStructFS"
          "fsInput.positionWC = attributes.positionWC;";
        addFragmentLines
          [Some "#line 0"; Fixture.fragmentText;
           Some "// CustomShaderStageFS"];
        addDefine "COMPUTE_POSITION_WC" None VERTEX;
        addDefine "HAS_CUSTOM_VERTEX_SHADER" None VERTEX;
        addDefine "HAS_CUSTOM_FRAGMENT_SHADER" None FRAGMENT;
        addDefine "CUSTOM_SHADER_MODIFY_MATERIAL" None FRAGMENT].
Proof. repeat split; reflexivity. Qed.

(* ===================================================================== *)
(** * Facts about objects *)
(* ===================================================================== *)

Module JsObjectFacts.

Import JsObject.

Section Facts.

Variable V : Type.
Implicit Types (o : t V) (k : string) (v : V).

Lemma hasOwnProperty_In o k :
  hasOwnProperty o k = true <-> In k (keys o).
Proof.
  unfold hasOwnProperty.
  induction o as [|[k' v'] rest IH]; simpl.
  - split; [discriminate | tauto].
  - destruct (String.eqb_spec k k') as [->|Hne].
    + split; auto.
    + rewrite IH. split; [auto | intros [He|Hin]; congruence].
Qed.

Lemma hasOwnProperty_false o k :
  hasOwnProperty o k = false <-> ~ In k (keys o).
Proof.
  rewrite <- hasOwnProperty_In.
  destruct (hasOwnProperty o k); split; congruence.
Qed.

Lemma get_None o k : get o k = None <-> hasOwnProperty o k = false.
Proof.
  unfold hasOwnProperty. destruct (get o k); split; congruence.
Qed.

Lemma keys_replace o k v : keys (replace o k v) = keys o.
Proof.
  induction o as [|[k' v'] rest IH]; simpl; auto.
  destruct (String.eqb k k'); simpl; congruence.
Qed.

Lemma get_replace o k v k' :
  hasOwnProperty o k = true ->
  get (replace o k v) k' = if String.eqb k' k then Some v else get o k'.
Proof.
  unfold hasOwnProperty.
  induction o as [|[k0 v0] rest IH]; simpl; [discriminate|].
  destruct (String.eqb_spec k k0) as [->|Hne]; simpl; intros Hin.
  - destruct (String.eqb k' k0); reflexivity.
  - rewrite (IH Hin).
    destruct (String.eqb_spec k' k0) as [->|Hne']; auto.
    destruct (String.eqb_spec k0 k); congruence.
Qed.

Lemma get_insertNew o k v k' :
  hasOwnProperty o k = false ->
  get (insertNew o k v) k' = if String.eqb k' k then Some v else get o k'.
Proof.
  unfold hasOwnProperty.
  induction o as [|[k0 v0] rest IH]; simpl; intros Hnew.
  - destruct (String.eqb k' k); reflexivity.
  - destruct (String.eqb_spec k k0) as [->|Hne]; [discriminate|].
    destruct (precedes k k0); simpl; [reflexivity|].
    rewrite (IH Hnew).
    destruct (String.eqb_spec k' k0) as [->|Hne']; auto.
    destruct (String.eqb_spec k0 k); congruence.
Qed.

(** Reading after writing. *)
Lemma get_set o k v k' :
  get (set o k v) k' = if String.eqb k' k then Some v else get o k'.
Proof.
  unfold set. destruct (hasOwnProperty o k) eqn:Hk.
  - now apply get_replace.
  - now apply get_insertNew.
Qed.

Lemma hasOwnProperty_set o k v k' :
  hasOwnProperty (set o k v) k'
  = (String.eqb k' k || hasOwnProperty o k').
Proof.
  unfold hasOwnProperty at 1. rewrite get_set.
  destruct (String.eqb k' k); reflexivity.
Qed.

Lemma In_keys_insertNew o k v k' :
  In k' (keys (insertNew o k v)) <-> k' = k \/ In k' (keys o).
Proof.
  induction o as [|[k0 v0] rest IH]; simpl.
  - intuition.
  - destruct (precedes k k0); simpl; [intuition|].
    rewrite IH. intuition.
Qed.

Lemma NoDup_keys_insertNew o k v :
  ~ In k (keys o) -> NoDup (keys o) -> NoDup (keys (insertNew o k v)).
Proof.
  induction o as [|[k0 v0] rest IH]; simpl; intros Hnew Hnd.
  - constructor; [tauto | constructor].
  - destruct (precedes k k0); simpl.
    + constructor; simpl; auto.
    + inversion Hnd as [|? ? Hk0 Hrest]; subst.
      constructor.
      * rewrite In_keys_insertNew. intros [->|Hin]; tauto.
      * apply IH; tauto.
Qed.

(** Writing keeps the keys of an object distinct. *)
Lemma NoDup_keys_set o k v :
  NoDup (keys o) -> NoDup (keys (set o k v)).
Proof.
  unfold set. intros Hnd. destruct (hasOwnProperty o k) eqn:Hk.
  - now rewrite keys_replace.
  - apply NoDup_keys_insertNew; auto.
    now apply hasOwnProperty_false.
Qed.

Lemma get_not_In o k : ~ In k (keys o) -> get o k = None.
Proof.
  intros Hk. apply get_None. now apply hasOwnProperty_false.
Qed.

End Facts.

End JsObjectFacts.

(* ===================================================================== *)
(** * The attribute partitioner *)
(* ===================================================================== *)

Section PartitionFacts.

Variables A S : Type.
Variable shaderAttributeSet : JsObject.t S.

Let keep (acc : JsObject.t A) (kv : string * A) : JsObject.t A :=
  if JsObject.hasOwnProperty shaderAttributeSet (fst kv)
  then JsObject.set acc (fst kv) (snd kv)
  else acc.

Lemma keep_get (prim acc : JsObject.t A) (k : string) :
  NoDup (JsObject.keys prim) ->
  JsObject.get (fold_left keep prim acc) k
  = match (if JsObject.hasOwnProperty shaderAttributeSet k
           then JsObject.get prim k else None) with
    | Some a => Some a
    | None => JsObject.get acc k
    end.
Proof.
  revert acc.
  induction prim as [|[k0 a0] rest IH]; simpl; intros acc Hnd.
  - destruct (JsObject.hasOwnProperty shaderAttributeSet k); reflexivity.
  - inversion Hnd as [|? ? Hk0 Hrest]; subst.
    rewrite (IH _ Hrest). unfold keep. simpl.
    destruct (String.eqb_spec k k0) as [->|Hne].
    + rewrite (JsObjectFacts.get_not_In _ _ Hk0).
      destruct (JsObject.hasOwnProperty shaderAttributeSet k0);
        [|reflexivity].
      rewrite JsObjectFacts.get_set, String.eqb_refl. reflexivity.
    + destruct (JsObject.hasOwnProperty shaderAttributeSet k0);
        [|reflexivity].
      rewrite JsObjectFacts.get_set.
      destruct (String.eqb_spec k k0); [congruence|reflexivity].
Qed.

Lemma keep_NoDup (prim acc : JsObject.t A) :
  NoDup (JsObject.keys acc) ->
  NoDup (JsObject.keys (fold_left keep prim acc)).
Proof.
  revert acc. induction prim as [|[k0 a0] rest IH]; simpl; intros acc Hnd.
  - assumption.
  - apply IH. unfold keep. simpl.
    destruct (JsObject.hasOwnProperty shaderAttributeSet k0); auto.
    now apply JsObjectFacts.NoDup_keys_set.
Qed.

Lemma missing_filter (prim : JsObject.t A) (names acc : list string) :
  fold_left
    (fun acc attributeName =>
       if negb (JsObject.hasOwnProperty prim attributeName)
       then acc ++ [attributeName] else acc)
    names acc
  = acc ++ filter (fun n => negb (JsObject.hasOwnProperty prim n)) names.
Proof.
  revert acc. induction names as [|n rest IH]; simpl; intros acc.
  - now rewrite app_nil_r.
  - rewrite IH.
    destruct (negb (JsObject.hasOwnProperty prim n)); simpl; auto.
    now rewrite <- app_assoc.
Qed.

(** The two results of [partitionAttributes] in closed form. *)
Lemma addToShader_get (prim : JsObject.t A) (k : string) :
  NoDup (JsObject.keys prim) ->
  JsObject.get (addToShader (partitionAttributes prim shaderAttributeSet)) k
  = if JsObject.hasOwnProperty shaderAttributeSet k
    then JsObject.get prim k else None.
Proof.
  intros Hnd. unfold partitionAttributes. simpl.
  fold keep. rewrite (keep_get _ _ _ Hnd). simpl.
  destruct (JsObject.hasOwnProperty shaderAttributeSet k); auto.
  destruct (JsObject.get prim k); auto.
Qed.

Lemma addToShader_NoDup (prim : JsObject.t A) :
  NoDup
    (JsObject.keys
       (addToShader (partitionAttributes prim shaderAttributeSet))).
Proof.
  unfold partitionAttributes. simpl. fold keep.
  apply keep_NoDup. constructor.
Qed.

Lemma missingAttributes_filter (prim : JsObject.t A) :
  missingAttributes (partitionAttributes prim shaderAttributeSet)
  = filter (fun n => negb (JsObject.hasOwnProperty prim n))
      (JsObject.keys shaderAttributeSet).
Proof.
  unfold partitionAttributes. simpl. now rewrite missing_filter.
Qed.

End PartitionFacts.

(* ===================================================================== *)
(** * The code computes the closed form *)
(* ===================================================================== *)

Section Refinement.

Context `{Collaborators}.

Lemma bind_returned {A B : Type} (m : M A) (f : A -> M B) a w w' :
  m w = (Returned a, w') -> bind m f w = f a w'.
Proof. unfold bind. now intros ->. Qed.

Lemma warn_nil w : warn [] w = w.
Proof. destruct w. unfold warn. simpl. now rewrite app_nil_r. Qed.

Lemma warn_warn a b w : warn b (warn a w) = warn (a ++ b) w.
Proof. unfold warn. simpl. now rewrite app_assoc. Qed.

Lemma emit_nil w : emit [] w = w.
Proof.
  destruct w as [[sb cs lo ao um] ws]. unfold emit. simpl.
  now rewrite app_nil_r.
Qed.

Lemma emit_emit a b w : emit b (emit a w) = emit (a ++ b) w.
Proof. unfold emit. simpl. now rewrite app_assoc. Qed.

Lemma shaderBuilderCall_run c w :
  shaderBuilderCall c w = (Returned tt, emit [c] w).
Proof. reflexivity. Qed.

Lemma forEach_calls {A : Type} (f : A -> BuilderCall) (l : list A) w :
  forEach l (fun x => shaderBuilderCall (f x)) w
  = (Returned tt, emit (map f l) w).
Proof.
  revert w. induction l as [|x rest IH]; simpl; intros w.
  - unfold ret. now rewrite emit_nil.
  - erewrite bind_returned by apply shaderBuilderCall_run.
    rewrite IH, emit_emit. reflexivity.
Qed.

(** ** Generation *)

Lemma copyAttributes_closed input (present : JsObject.t Attribute) :
  copyAttributes input present
  = (presentFields present, presentLines input present).
Proof.
  unfold copyAttributes, presentFields, presentLines.
  enough (G : forall fs ls,
    fold_left
      (fun acc kv =>
         (fst acc ++ [generateAttributeField (fst kv) (snd kv)],
          snd acc ++ [copyLine input (fst kv)]))
      present (fs, ls)
    = (fs ++ map (fun kv => generateAttributeField (fst kv) (snd kv))
               present,
       ls ++ map (fun kv => copyLine input (fst kv)) present))
    by (apply (G [] [])).
  induction present as [|kv rest IH]; simpl; intros fs ls.
  - now rewrite !app_nil_r.
  - rewrite IH. now rewrite <- !app_assoc.
Qed.

Lemma inferDefaults_closed st needs fields lines w :
  inferDefaults (inputName st) (warningId st) (warningTail st)
    needs fields lines w
  = match find (fun n => negb (inferable n)) needs with
    | Some n => (Returned None, warn [stageWarning st n] w)
    | None =>
        (Returned
           (Some (fields ++ inferredFields needs,
                  lines ++ inferredLines (inputName st) needs)),
         w)
    end.
Proof.
  revert fields lines.
  induction needs as [|n rest IH]; intros fields lines.
  - simpl. now rewrite !app_nil_r.
  - cbn [inferDefaults find inferredFields inferredLines flat_map].
    unfold inferable at 1.
    destruct (inferAttributeDefaults n) as [d|]; cbn [isDefined negb].
    + rewrite IH. fold (defaultLine (inputName st) n (value d)).
      destruct (find (fun n => negb (inferable n)) rest); auto.
      cbn [app]. now rewrite <- !app_assoc.
    + reflexivity.
Qed.

Lemma find_missing (catalog : JsObject.t Attribute)
    (used : JsObject.t bool) :
  find (fun n => negb (inferable n))
    (missingAttributes (partitionAttributes catalog used))
  = find (unresolvable catalog) (JsObject.keys used).
Proof.
  rewrite missingAttributes_filter. unfold unresolvable.
  induction (JsObject.keys used) as [|n rest IH]; simpl; auto.
  destruct (JsObject.hasOwnProperty catalog n); simpl; auto.
  now rewrite IH.
Qed.

Lemma generateVertexShaderLines_closed cs catalog w :
  generateVertexShaderLines cs catalog disabledLines w
  = match firstUnresolvable catalog cs VertexStage with
    | Some n =>
        (Returned disabledLines, warn [stageWarning VertexStage n] w)
    | None => (Returned (successfulLines catalog cs VertexStage), w)
    end.
Proof.
  unfold generateVertexShaderLines, firstUnresolvable, bind.
  rewrite copyAttributes_closed. simpl fst. simpl snd.
  rewrite (inferDefaults_closed VertexStage), find_missing.
  cbn [stageAttributeSet].
  destruct (find _ _); reflexivity.
Qed.

Lemma generateFragmentShaderLines_closed cs catalog w :
  generateFragmentShaderLines cs catalog disabledLines w
  = match firstUnresolvable catalog cs FragmentStage with
    | Some n =>
        (Returned disabledLines, warn [stageWarning FragmentStage n] w)
    | None => (Returned (successfulLines catalog cs FragmentStage), w)
    end.
Proof.
  unfold generateFragmentShaderLines, firstUnresolvable, bind.
  rewrite copyAttributes_closed. simpl fst. simpl snd.
  rewrite (inferDefaults_closed FragmentStage), find_missing.
  cbn [stageAttributeSet].
  destruct (find _ _); reflexivity.
Qed.

Lemma vertex_attempt cs catalog w :
  (if isDefined (vertexShaderText cs)
   then generateVertexShaderLines cs catalog disabledLines
   else ret disabledLines) w
  = (Returned (generatedLines catalog cs VertexStage),
     warn (stageWarnings catalog cs VertexStage) w).
Proof.
  unfold generatedLines, stageSucceeds, stageWarnings. cbn [stageText].
  destruct (vertexShaderText cs); cbn [isDefined andb].
  - rewrite generateVertexShaderLines_closed.
    destruct (firstUnresolvable catalog cs VertexStage);
      cbn [isDefined negb]; now rewrite ?warn_nil.
  - unfold ret. now rewrite warn_nil.
Qed.

Lemma fragment_attempt cs catalog w :
  (if isDefined (fragmentShaderText cs)
   then generateFragmentShaderLines cs catalog disabledLines
   else ret disabledLines) w
  = (Returned (generatedLines catalog cs FragmentStage),
     warn (stageWarnings catalog cs FragmentStage) w).
Proof.
  unfold generatedLines, stageSucceeds, stageWarnings. cbn [stageText].
  destruct (fragmentShaderText cs); cbn [isDefined andb].
  - rewrite generateFragmentShaderLines_closed.
    destruct (firstUnresolvable catalog cs FragmentStage);
      cbn [isDefined negb]; now rewrite ?warn_nil.
  - unfold ret. now rewrite warn_nil.
Qed.

(** The embedded generation returns [generated] and adds
    [generationWarnings] to the sink. *)
Lemma generateShaderLines_closed cs primitive w :
  generateShaderLines cs primitive w
  = (Returned (generated cs primitive),
     warn (generationWarnings cs primitive) w).
Proof.
  unfold generateShaderLines.
  erewrite bind_returned by apply vertex_attempt.
  erewrite bind_returned by apply fragment_attempt.
  unfold ret, generated, generationWarnings.
  now rewrite warn_warn.
Qed.

(** ** Emission *)

Lemma generatedLines_complete catalog cs st :
  complete st (generatedLines catalog cs st).
Proof.
  unfold complete, generatedLines.
  destruct (stageSucceeds catalog cs st); [|discriminate].
  destruct st; simpl; intros _; repeat split; discriminate.
Qed.

Lemma optional_call (b : bool) (calls : list BuilderCall) (m : M unit) w :
  (forall w, m w = (Returned tt, emit calls w)) ->
  (if b then m else ret tt) w
  = (Returned tt, emit (if b then calls else []) w).
Proof.
  intros Hm. destruct b; [apply Hm|].
  unfold ret. now rewrite emit_nil.
Qed.

Ltac run_calls :=
  repeat
    (erewrite bind_returned
       by first [ apply shaderBuilderCall_run
                | apply forEach_calls
                | reflexivity ]).

Lemma vertex_commit cs lines w :
  complete VertexStage lines ->
  enabled lines = true ->
  (addVertexLinesToShader lines ;;
   shaderBuilderCall
     (addVertexLines
        [Some "#line 0"; vertexShaderText cs; Some CustomShaderStageVS])) w
  = (Returned tt, emit (stageEmission cs VertexStage lines) w).
Proof.
  intros Hc He. destruct (Hc He) as (Hf & Hl & _).
  destruct lines as [e [fs|] fi [ls|]]; simpl in *; try congruence.
  unfold addVertexLinesToShader. cbn [attributeFields initializationLines].
  unfold bind at 1. run_calls.
  rewrite forEach_calls, shaderBuilderCall_run.
  rewrite !emit_emit. reflexivity.
Qed.

Lemma fragment_commit cs lines w :
  complete FragmentStage lines ->
  enabled lines = true ->
  (addFragmentLinesToShader lines ;;
   shaderBuilderCall
     (addFragmentLines
        [Some "#line 0"; fragmentShaderText cs;
         Some CustomShaderStageFS])) w
  = (Returned tt, emit (stageEmission cs FragmentStage lines) w).
Proof.
  intros Hc He. destruct (Hc He) as (Hf & Hl & Hi).
  specialize (Hi eq_refl).
  destruct lines as [e [fs|] [fi|] [ls|]]; simpl in *; try congruence.
  unfold addFragmentLinesToShader.
  cbn [attributeFields initializationLines fragmentInputFields].
  unfold bind at 1. run_calls.
  rewrite forEach_calls, shaderBuilderCall_run.
  rewrite !emit_emit. reflexivity.
Qed.

Lemma addLinesToShader_closed cs g w :
  complete VertexStage (vertexLines g) ->
  complete FragmentStage (fragmentLines g) ->
  addLinesToShader cs g w = (Returned tt, emit (emission cs g) w).
Proof.
  intros Hv Hf. unfold addLinesToShader, emission.
  destruct (enabled (vertexLines g)) eqn:Ev.
  - erewrite bind_returned by (apply vertex_commit; assumption).
    destruct (enabled (fragmentLines g)) eqn:Ef.
    + rewrite fragment_commit by assumption. now rewrite emit_emit.
    + unfold ret. now rewrite app_nil_r.
  - erewrite bind_returned by reflexivity.
    destruct (enabled (fragmentLines g)) eqn:Ef.
    + now rewrite fragment_commit by assumption.
    + unfold ret. now rewrite emit_nil.
Qed.

Lemma fragment_defines cs w :
  (shaderBuilderCall
     (addDefine "HAS_CUSTOM_FRAGMENT_SHADER" None FRAGMENT) ;;
   shaderBuilderCall (addDefine (getDefineName (mode cs)) None FRAGMENT)) w
  = (Returned tt,
     emit [addDefine "HAS_CUSTOM_FRAGMENT_SHADER" None FRAGMENT;
           addDefine (getDefineName (mode cs)) None FRAGMENT] w).
Proof.
  erewrite bind_returned by apply shaderBuilderCall_run.
  rewrite shaderBuilderCall_run. now rewrite emit_emit.
Qed.

(** The embedded [process] returns and leaves the world [processed]. *)
Lemma process_closed primitive frameState w :
  process primitive frameState w = (Returned tt, processed primitive w).
Proof.
  unfold process, processed.
  erewrite bind_returned by reflexivity.
  erewrite bind_returned by apply generateShaderLines_closed.
  set (cs := rr_customShader (renderResources w)).
  set (g := generated cs primitive).
  destruct (customShaderEnabled g); cbn [negb]; [|reflexivity].
  erewrite bind_returned
    by (apply addLinesToShader_closed; apply generatedLines_complete).
  erewrite bind_returned
    by (apply optional_call; intros; apply shaderBuilderCall_run).
  erewrite bind_returned
    by (apply optional_call; intros; apply shaderBuilderCall_run).
  erewrite bind_returned
    by (apply optional_call; intros; apply fragment_defines).
  erewrite bind_returned by apply forEach_calls.
  erewrite bind_returned by apply forEach_calls.
  rewrite !emit_emit.
  unfold committed, defines, declarations. fold cs.
  destruct (lightingModel cs); destruct (isTranslucent cs);
    unfold setLightingModel, setAlphaOptions, setUniformMap, readResources,
      writeResources, bind, ret, emit, warn;
    cbn [renderResources warnings shaderBuilder rr_customShader
         lightingOptions alphaOptions rr_uniformMap];
    rewrite <- ?app_assoc; reflexivity.
Qed.

End Refinement.

(* ===================================================================== *)
(** * Properties of the stage *)
(* ===================================================================== *)

(** Distinct keys of a concrete object. *)
Ltac distinct_keys :=
  simpl;
  repeat (constructor; [simpl; intuition discriminate|]);
  constructor.

Section Properties.

Context `{Collaborators}.

(** C9. [partitionAttributes] is a function of its two arguments alone.
    [addToShader] is the key-wise intersection of the primitive's
    attributes with the shader's set, each common name bound to the
    primitive's attribute; [missingAttributes] lists the names of the
    shader's set that the primitive lacks, in the iteration order of that
    set; an attribute of the primitive that the shader does not use is in
    neither. *)
Theorem partitionAttributes_partitions (A S : Type)
    (primitiveAttributes : JsObject.t A)
    (shaderAttributeSet : JsObject.t S) :
  NoDup (JsObject.keys primitiveAttributes) ->
  let categories :=
    partitionAttributes primitiveAttributes shaderAttributeSet in
  (forall n,
      JsObject.get (addToShader categories) n
      = if JsObject.hasOwnProperty shaderAttributeSet n
        then JsObject.get primitiveAttributes n
        else None)
  /\ NoDup (JsObject.keys (addToShader categories))
  /\ missingAttributes categories
     = filter
         (fun n => negb (JsObject.hasOwnProperty primitiveAttributes n))
         (JsObject.keys shaderAttributeSet)
  /\ (forall n,
         JsObject.hasOwnProperty primitiveAttributes n = true ->
         JsObject.hasOwnProperty shaderAttributeSet n = false ->
         JsObject.hasOwnProperty (addToShader categories) n = false
         /\ ~ In n (missingAttributes categories)).
Proof.
  intros Hnd categories. subst categories.
  split; [|split; [|split]].
  - intros n. now apply addToShader_get.
  - apply addToShader_NoDup.
  - apply missingAttributes_filter.
  - intros n Hp Hs. split.
    + apply JsObjectFacts.get_None.
      rewrite addToShader_get by assumption. now rewrite Hs.
    + rewrite missingAttributes_filter, filter_In.
      intros [_ Hn]. rewrite Hp in Hn. discriminate.
Qed.

(** ** What [process] leaves behind *)

Lemma processed_shaderBuilder primitive w :
  let cs := rr_customShader (renderResources w) in
  shaderBuilder (renderResources (processed primitive w))
  = shaderBuilder (renderResources w) ++ newCalls cs (generated cs primitive).
Proof.
  unfold processed, newCalls. cbn [renderResources].
  destruct (customShaderEnabled _); cbn [committed shaderBuilder].
  - reflexivity.
  - now rewrite app_nil_r.
Qed.

Lemma processed_warnings primitive w :
  let cs := rr_customShader (renderResources w) in
  warnings (processed primitive w)
  = warnings w ++ generationWarnings cs primitive.
Proof. reflexivity. Qed.

Lemma processed_disabled primitive w :
  let cs := rr_customShader (renderResources w) in
  customShaderEnabled (generated cs primitive) = false ->
  processed primitive w = warn (generationWarnings cs primitive) w.
Proof. unfold processed. cbn zeta. now intros ->. Qed.

Lemma generated_enabled cs primitive st :
  enabled (stageLines (generated cs primitive) st)
  = stageSucceeds (getAttributeNames (attributes primitive)) cs st.
Proof.
  destruct st; cbn [generated stageLines vertexLines fragmentLines];
    unfold generatedLines;
    destruct (stageSucceeds _ cs _); reflexivity.
Qed.

(** C8. Two runs of [generateShaderLines] on the same custom shader and
    primitive, the second in the world the first one left, return the same
    generated code (fields, lines and flags); the result is the same from
    every world, and a run leaves the render resources, which hold the
    shader, as they were. *)
Theorem generateShaderLines_deterministic cs primitive w :
  exists g w1 w2,
    generateShaderLines cs primitive w = (Returned g, w1)
    /\ generateShaderLines cs primitive w1 = (Returned g, w2)
    /\ renderResources w1 = renderResources w
    /\ forall w', fst (generateShaderLines cs primitive w') = Returned g.
Proof.
  exists (generated cs primitive).
  exists (warn (generationWarnings cs primitive) w).
  exists (warn (generationWarnings cs primitive)
            (warn (generationWarnings cs primitive) w)).
  repeat split; try apply generateShaderLines_closed.
  intros w'. now rewrite generateShaderLines_closed.
Qed.

(** C2. [customShaderEnabled] is true exactly when vertex or fragment
    generation succeeded, that is, was attempted and met no unresolvable
    attribute. When both source texts are absent it is false, and [process]
    returns with the world as it found it: no call on the shader builder, no
    change of the render resources, no warning. *)
Theorem customShaderEnabled_iff_generation_succeeded
    primitive frameState w :
  let cs := rr_customShader (renderResources w) in
  let catalog := getAttributeNames (attributes primitive) in
  exists g w1,
    generateShaderLines cs primitive w = (Returned g, w1)
    /\ enabled (vertexLines g) = stageSucceeds catalog cs VertexStage
    /\ enabled (fragmentLines g) = stageSucceeds catalog cs FragmentStage
    /\ (customShaderEnabled g = true
        <-> enabled (vertexLines g) = true
            \/ enabled (fragmentLines g) = true)
    /\ (vertexShaderText cs = None ->
        fragmentShaderText cs = None ->
        customShaderEnabled g = false
        /\ process primitive frameState w = (Returned tt, w)).
Proof.
  intros cs catalog.
  exists (generated cs primitive), (warn (generationWarnings cs primitive) w).
  split; [apply generateShaderLines_closed|].
  split; [apply (generated_enabled cs primitive VertexStage)|].
  split; [apply (generated_enabled cs primitive FragmentStage)|].
  split.
  - cbn [generated customShaderEnabled vertexLines fragmentLines].
    apply orb_true_iff.
  - intros Hv Hf.
    assert (Hd : customShaderEnabled (generated cs primitive) = false).
    { cbn [generated customShaderEnabled].
      unfold generatedLines, stageSucceeds. cbn [stageText].
      now rewrite Hv, Hf. }
    split; [exact Hd|].
    rewrite process_closed. f_equal.
    rewrite (processed_disabled primitive w Hd).
    unfold generationWarnings, stageWarnings. cbn [stageText].
    fold cs. rewrite Hv, Hf. apply warn_nil.
Qed.

(** C3. [shouldComputePositionWC] is the conjunction of "positionWC is in
    the fragment position set" and "the fragment stage ended enabled", so it
    is false whenever either fails; when it is true, [process] adds the
    define COMPUTE_POSITION_WC to the vertex stage. *)
Theorem shouldComputePositionWC_iff primitive frameState w :
  let cs := rr_customShader (renderResources w) in
  let usesPositionWC :=
    JsObject.hasOwnProperty
      (positionSet (usedVariablesFragment cs)) "positionWC" in
  exists g w1,
    generateShaderLines cs primitive w = (Returned g, w1)
    /\ (shouldComputePositionWC g = true
        <-> usesPositionWC = true /\ enabled (fragmentLines g) = true)
    /\ (usesPositionWC = false -> shouldComputePositionWC g = false)
    /\ (enabled (fragmentLines g) = false ->
        shouldComputePositionWC g = false)
    /\ (shouldComputePositionWC g = true ->
        exists w' before after,
          process primitive frameState w = (Returned tt, w')
          /\ shaderBuilder (renderResources w')
             = shaderBuilder (renderResources w)
               ++ before
               ++ addDefine "COMPUTE_POSITION_WC" None VERTEX :: after).
Proof.
  intros cs usesPositionWC.
  exists (generated cs primitive), (warn (generationWarnings cs primitive) w).
  split; [apply generateShaderLines_closed|].
  cbn [generated shouldComputePositionWC fragmentLines]. fold usesPositionWC.
  set (f := generatedLines _ cs FragmentStage).
  split; [apply andb_true_iff|].
  split; [now intros ->|].
  split; [intros ->; apply andb_false_r|].
  intros Hs. apply andb_true_iff in Hs. destruct Hs as [Hu Hf].
  exists (processed primitive w).
  exists (emission cs (generated cs primitive)).
  eexists.
  split; [apply process_closed|].
  rewrite processed_shaderBuilder. fold cs.
  unfold newCalls, defines.
  cbn [generated customShaderEnabled shouldComputePositionWC fragmentLines
       vertexLines].
  fold usesPositionWC. fold f. rewrite Hu, Hf, orb_true_r.
  cbn [andb app]. rewrite <- !app_assoc. reflexivity.
Qed.

(** ** Stage membership of the builder calls *)

Lemma stageEmission_other cs st st' lines :
  st <> st' ->
  forallb (fun c => negb (belongsTo st c)) (stageEmission cs st' lines) = true.
Proof.
  intros Hne. apply forallb_forall. intros c Hc.
  destruct st, st'; try congruence; unfold stageEmission in Hc;
    repeat (apply in_app_or in Hc; destruct Hc as [Hc|Hc]);
    unfold structFields, functionLines in Hc;
    try (apply in_map_iff in Hc; destruct Hc as (x & <- & _); reflexivity);
    simpl in Hc; intuition (subst; reflexivity).
Qed.

Lemma defines_no_stage cs g st :
  forallb (fun c => negb (belongsTo st c)) (defines cs g) = true.
Proof.
  apply forallb_forall. intros c Hc. unfold defines in Hc.
  repeat (apply in_app_or in Hc; destruct Hc as [Hc|Hc]);
    match type of Hc with
    | In _ (if ?b then _ else _) => destruct b
    end;
    simpl in Hc; destruct st; intuition (subst; reflexivity).
Qed.

Lemma declarations_no_stage cs st :
  forallb (fun c => negb (belongsTo st c)) (declarations cs) = true.
Proof.
  apply forallb_forall. intros c Hc. unfold declarations in Hc.
  apply in_app_or in Hc.
  destruct Hc as [Hc|Hc]; apply in_map_iff in Hc;
    destruct Hc as (x & <- & _); destruct st; reflexivity.
Qed.

(** A disabled stage gets no struct, field, function or source line. *)
Lemma disabled_stage_no_calls cs g st :
  enabled (stageLines g st) = false ->
  forallb (fun c => negb (belongsTo st c)) (newCalls cs g) = true.
Proof.
  intros Hd. unfold newCalls.
  destruct (customShaderEnabled g); [|reflexivity].
  rewrite !forallb_app, defines_no_stage, declarations_no_stage.
  rewrite !andb_true_r. unfold emission. rewrite forallb_app.
  destruct st; cbn [stageLines] in Hd; rewrite Hd; cbn [forallb andb].
  - destruct (enabled (fragmentLines g)); [|reflexivity].
    now apply stageEmission_other.
  - destruct (enabled (vertexLines g)); [|reflexivity].
    rewrite andb_true_r. now apply stageEmission_other.
Qed.

(** C10. Once the custom shader is enabled, the presence defines follow the
    source texts and not the success of each stage: a vertex text brings
    HAS_CUSTOM_VERTEX_SHADER even when the vertex stage is disabled and its
    text is not appended, and a fragment text brings
    HAS_CUSTOM_FRAGMENT_SHADER and the lighting-mode define even when the
    fragment stage is disabled. *)
Theorem presence_defines_follow_source_text primitive frameState w g w1 :
  let cs := rr_customShader (renderResources w) in
  generateShaderLines cs primitive w = (Returned g, w1) ->
  customShaderEnabled g = true ->
  exists w' calls,
    process primitive frameState w = (Returned tt, w')
    /\ shaderBuilder (renderResources w')
       = shaderBuilder (renderResources w) ++ calls
    /\ (vertexShaderText cs <> None ->
        In (addDefine "HAS_CUSTOM_VERTEX_SHADER" None VERTEX) calls)
    /\ (fragmentShaderText cs <> None ->
        In (addDefine "HAS_CUSTOM_FRAGMENT_SHADER" None FRAGMENT) calls
        /\ In (addDefine (getDefineName (mode cs)) None FRAGMENT) calls)
    /\ (enabled (vertexLines g) = false ->
        forall c, In c calls -> belongsTo VertexStage c = false)
    /\ (enabled (fragmentLines g) = false ->
        forall c, In c calls -> belongsTo FragmentStage c = false).
Proof.
  intros cs Hg He.
  rewrite generateShaderLines_closed in Hg.
  injection Hg as <- _.
  exists (processed primitive w), (newCalls cs (generated cs primitive)).
  split; [apply process_closed|].
  split; [apply processed_shaderBuilder|].
  assert (Hin : forall c,
             In c (defines cs (generated cs primitive)) ->
             In c (newCalls cs (generated cs primitive))).
  { intros c Hc. unfold newCalls. rewrite He.
    apply in_or_app. right. apply in_or_app. now left. }
  assert (Hno : forall st,
             enabled (stageLines (generated cs primitive) st) = false ->
             forall c, In c (newCalls cs (generated cs primitive)) ->
                       belongsTo st c = false).
  { intros st Hd c Hc.
    pose proof (disabled_stage_no_calls cs _ st Hd) as Hall.
    rewrite forallb_forall in Hall. specialize (Hall c Hc).
    now apply negb_true_iff in Hall. }
  split; [|split; [|split]].
  - intros Hv. apply Hin. unfold defines.
    destruct (vertexShaderText cs); [|congruence].
    apply in_or_app. right. apply in_or_app. left. now left.
  - intros Hf.
    assert (forall c,
               In c [addDefine "HAS_CUSTOM_FRAGMENT_SHADER" None FRAGMENT;
                     addDefine (getDefineName (mode cs)) None FRAGMENT] ->
               In c (newCalls cs (generated cs primitive))) as Hc.
    { intros c Hc. apply Hin. unfold defines.
      destruct (fragmentShaderText cs); [|congruence].
      apply in_or_app. right. apply in_or_app. now right. }
    split; apply Hc; simpl; auto.
  - exact (Hno VertexStage).
  - exact (Hno FragmentStage).
Qed.

(** ** Warnings of a stage *)

Lemma warnedBy_stageWarning st st' n :
  warnedBy st (stageWarning st' n)
  = match st, st' with
    | VertexStage, VertexStage | FragmentStage, FragmentStage => true
    | _, _ => false
    end.
Proof. destruct st, st'; reflexivity. Qed.

Lemma stageWarnings_filter catalog cs st st' :
  filter (warnedBy st) (stageWarnings catalog cs st')
  = match st, st' with
    | VertexStage, VertexStage | FragmentStage, FragmentStage =>
        stageWarnings catalog cs st'
    | _, _ => []
    end.
Proof.
  unfold stageWarnings.
  destruct (isDefined (stageText cs st'));
    [destruct (firstUnresolvable catalog cs st')|];
    cbn [filter]; rewrite ?warnedBy_stageWarning;
    destruct st, st'; reflexivity.
Qed.

(** The warnings of one run that come from the stage [st]. *)
Lemma generationWarnings_filter cs primitive st :
  filter (warnedBy st) (generationWarnings cs primitive)
  = stageWarnings (getAttributeNames (attributes primitive)) cs st.
Proof.
  unfold generationWarnings.
  rewrite filter_app, !stageWarnings_filter.
  destruct st; [apply app_nil_r | reflexivity].
Qed.

Lemma firstUnresolvable_exists catalog cs st b :
  In b (JsObject.keys (stageAttributeSet cs st)) ->
  unresolvable catalog b = true ->
  exists a,
    firstUnresolvable catalog cs st = Some a
    /\ In a (JsObject.keys (stageAttributeSet cs st))
    /\ unresolvable catalog a = true.
Proof.
  intros Hin Hb. unfold firstUnresolvable.
  destruct (find (unresolvable catalog)
              (JsObject.keys (stageAttributeSet cs st))) as [a|] eqn:Hf.
  - exists a. split; [reflexivity|]. now apply find_some in Hf.
  - pose proof (find_none _ _ Hf b Hin). congruence.
Qed.

(** C1. For a stage that is generated, that is, whose source text is
    present: if its used attribute set has an attribute that the catalog
    lacks and the default policy cannot infer, the stage ends with [enabled]
    false, [process] calls the one-time warning once for that stage, with
    such an attribute in its message (the first one in the iteration order
    of the set, hence the attribute itself when it is the only one), and no
    struct, struct field, function, function line or source line of that
    stage reaches the shader builder. *)
Theorem unresolvable_attribute_disables_stage
    primitive frameState w st b :
  let cs := rr_customShader (renderResources w) in
  let catalog := getAttributeNames (attributes primitive) in
  stageText cs st <> None ->
  In b (JsObject.keys (stageAttributeSet cs st)) ->
  JsObject.hasOwnProperty catalog b = false ->
  inferAttributeDefaults b = None ->
  exists a g w1 w' ws calls,
    firstUnresolvable catalog cs st = Some a
    /\ In a (JsObject.keys (stageAttributeSet cs st))
    /\ unresolvable catalog a = true
    /\ ((forall b',
            In b' (JsObject.keys (stageAttributeSet cs st)) ->
            unresolvable catalog b' = true -> b' = b) ->
        a = b)
    /\ generateShaderLines cs primitive w = (Returned g, w1)
    /\ enabled (stageLines g st) = false
    /\ process primitive frameState w = (Returned tt, w')
    /\ warnings w' = warnings w ++ ws
    /\ filter (warnedBy st) ws = [stageWarning st a]
    /\ shaderBuilder (renderResources w')
       = shaderBuilder (renderResources w) ++ calls
    /\ forall c, In c calls -> belongsTo st c = false.
Proof.
  intros cs catalog Ht Hin Habsent Hnone.
  assert (Hb : unresolvable catalog b = true).
  { unfold unresolvable, inferable. now rewrite Habsent, Hnone. }
  destruct (firstUnresolvable_exists catalog cs st b Hin Hb)
    as (a & Hfirst & Ha & Hua).
  assert (Hd : enabled (stageLines (generated cs primitive) st) = false).
  { rewrite generated_enabled. fold catalog. unfold stageSucceeds.
    rewrite Hfirst. apply andb_false_r. }
  exists a, (generated cs primitive),
    (warn (generationWarnings cs primitive) w),
    (processed primitive w), (generationWarnings cs primitive),
    (newCalls cs (generated cs primitive)).
  repeat split; auto.
  - apply generateShaderLines_closed.
  - apply process_closed.
  - rewrite generationWarnings_filter. fold catalog. unfold stageWarnings.
    rewrite Hfirst. destruct (stageText cs st); [reflexivity|congruence].
  - apply processed_shaderBuilder.
  - intros c Hc.
    pose proof (disabled_stage_no_calls cs _ st Hd) as Hall.
    rewrite forallb_forall in Hall. specialize (Hall c Hc).
    now apply negb_true_iff in Hall.
Qed.

(** ** Render state *)

Lemma processed_enabled primitive w :
  let cs := rr_customShader (renderResources w) in
  customShaderEnabled (generated cs primitive) = true ->
  renderResources (processed primitive w)
  = committed (renderResources w) (generated cs primitive).
Proof. unfold processed. cbn zeta. cbn [renderResources]. now intros ->. Qed.

(** C4, amended. When custom shading is enabled: a translucent shader sets
    the pass to translucent and the alpha mode to blend; any other shader
    resets the pass to undefined, which leaves the choice of pass to the
    pipeline's default, and sets the alpha mode to opaque, whatever earlier
    stages had put there. *)
Theorem alphaOptions_after_process primitive frameState w g w1 :
  let cs := rr_customShader (renderResources w) in
  generateShaderLines cs primitive w = (Returned g, w1) ->
  customShaderEnabled g = true ->
  exists w',
    process primitive frameState w = (Returned tt, w')
    /\ (isTranslucent cs = true ->
        alphaOptions (renderResources w')
        = {| pass := Some PASS_TRANSLUCENT; alphaMode := Some BLEND |})
    /\ (isTranslucent cs = false ->
        alphaOptions (renderResources w')
        = {| pass := None; alphaMode := Some OPAQUE |}).
Proof.
  intros cs Hg He.
  rewrite generateShaderLines_closed in Hg. injection Hg as <- _.
  exists (processed primitive w).
  split; [apply process_closed|].
  rewrite (processed_enabled primitive w He).
  cbn [committed alphaOptions]. fold cs.
  split; now intros ->.
Qed.

(** ** Uniform map *)

Lemma combine_get (V : Type) (object1 object2 : JsObject.t V) k :
  NoDup (JsObject.keys object2) ->
  JsObject.get (combine object1 object2) k
  = match JsObject.get object2 k with
    | Some v => Some v
    | None => JsObject.get object1 k
    end.
Proof.
  unfold combine. revert object1.
  induction object2 as [|[k0 v0] rest IH]; intros object1 Hnd.
  - reflexivity.
  - inversion Hnd as [|? ? Hk0 Hrest]; subst.
    cbn [fold_left fst snd JsObject.get].
    rewrite (IH _ Hrest), JsObjectFacts.get_set.
    destruct (String.eqb_spec k k0) as [->|Hne].
    + now rewrite (JsObjectFacts.get_not_In _ _ Hk0).
    + reflexivity.
Qed.

(** C5. When custom shading is enabled, [process] replaces the uniform map
    of the render resources by its merge with the user's uniform map: every
    key of the user's map is bound to the user's value, also a key the draw
    call's map had bound already, and every other key keeps the binding of
    the draw call's map. *)
Theorem uniformMap_user_values_take_precedence
    primitive frameState w g w1 :
  let cs := rr_customShader (renderResources w) in
  generateShaderLines cs primitive w = (Returned g, w1) ->
  customShaderEnabled g = true ->
  NoDup (JsObject.keys (uniformMap cs)) ->
  exists w',
    process primitive frameState w = (Returned tt, w')
    /\ (forall k v,
           JsObject.get (uniformMap cs) k = Some v ->
           JsObject.get (rr_uniformMap (renderResources w')) k = Some v)
    /\ (forall k,
           JsObject.get (uniformMap cs) k = None ->
           JsObject.get (rr_uniformMap (renderResources w')) k
           = JsObject.get (rr_uniformMap (renderResources w)) k).
Proof.
  intros cs Hg He Hnd.
  rewrite generateShaderLines_closed in Hg. injection Hg as <- _.
  exists (processed primitive w).
  split; [apply process_closed|].
  rewrite (processed_enabled primitive w He).
  cbn [committed rr_uniformMap]. fold cs.
  split; intros k; [intros v|]; intros Hk;
    rewrite combine_get by exact Hnd; rewrite Hk; reflexivity.
Qed.

(** ** Successful generation *)

Lemma getAttributeNames_NoDup (attrs : list Attribute) :
  NoDup (JsObject.keys (getAttributeNames attrs)).
Proof.
  unfold getAttributeNames.
  enough (G : forall names : JsObject.t Attribute,
             NoDup (JsObject.keys names) ->
             NoDup
               (JsObject.keys
                  (fold_left
                     (fun names attribute =>
                        JsObject.set names
                          match semantic attribute with
                          | Some semantic =>
                              getVariableName semantic (setIndex attribute)
                          | None =>
                              JsString.toLowerCase
                                (JsString.substring1 (name attribute))
                          end attribute)
                     attrs names)))
    by (apply G; constructor).
  induction attrs as [|a rest IH]; intros names Hnd; cbn [fold_left].
  - assumption.
  - apply IH. now apply JsObjectFacts.NoDup_keys_set.
Qed.

Lemma In_get (V : Type) (o : JsObject.t V) k v :
  NoDup (JsObject.keys o) -> In (k, v) o -> JsObject.get o k = Some v.
Proof.
  induction o as [|[k0 v0] rest IH]; cbn [JsObject.keys map fst];
    intros Hnd Hin; [contradiction|].
  inversion Hnd as [|? ? Hk0 Hrest]; subst.
  cbn [JsObject.get].
  destruct Hin as [Heq|Hin].
  - injection Heq as -> ->. now rewrite String.eqb_refl.
  - destruct (String.eqb_spec k k0) as [->|Hne].
    + exfalso. apply Hk0. change (In (fst (k0, v)) (map fst rest)).
      now apply in_map.
    + now apply IH.
Qed.

Lemma get_Some_In (V : Type) (o : JsObject.t V) k v :
  JsObject.get o k = Some v -> In k (JsObject.keys o).
Proof.
  intros Hg. apply JsObjectFacts.hasOwnProperty_In.
  unfold JsObject.hasOwnProperty. now rewrite Hg.
Qed.

Lemma stageSucceeds_generated catalog cs st :
  stageSucceeds catalog cs st = true ->
  generatedLines catalog cs st = successfulLines catalog cs st.
Proof. unfold generatedLines. now intros ->. Qed.

Lemma nothing_missing (catalog : JsObject.t Attribute)
    (used : JsObject.t bool) :
  (forall n, In n (JsObject.keys used) ->
             JsObject.hasOwnProperty catalog n = true) ->
  missingAttributes (partitionAttributes catalog used) = [].
Proof.
  intros Hsub. rewrite missingAttributes_filter.
  induction (JsObject.keys used) as [|n rest IH]; [reflexivity|].
  cbn [filter]. rewrite (Hsub n) by now left.
  cbn [negb]. apply IH. intros m Hm. apply Hsub. now right.
Qed.

(** C6. When the shader has vertex source text and the catalog has every
    attribute of the vertex attribute set, vertex generation succeeds, and
    the vertex Attributes struct that [process] emits has one field for each
    used attribute, none twice and no other, of the GLSL type of the
    primitive's attribute of that name; the initialization function has one
    line [input.attributes.<name> = attributes.<name>;] for each of them, in
    the same order, where [input] is the input parameter of the vertex
    stage, which the generated signature names [vsInput]. *)
Theorem vertex_attributes_present primitive frameState w :
  let cs := rr_customShader (renderResources w) in
  let catalog := getAttributeNames (attributes primitive) in
  let used := attributeSet (usedVariablesVertex cs) in
  let input := "vsInput" in
  vertexShaderText cs <> None ->
  (forall n, In n (JsObject.keys used) ->
             JsObject.hasOwnProperty catalog n = true) ->
  exists g w1 w' present rest,
    generateShaderLines cs primitive w = (Returned g, w1)
    /\ enabled (vertexLines g) = true
    /\ NoDup (JsObject.keys present)
    /\ (forall n, In n (JsObject.keys present) <-> In n (JsObject.keys used))
    /\ (forall n a, In (n, a) present -> JsObject.get catalog n = Some a)
    /\ attributeFields (vertexLines g)
       = Some (map (fun kv => (getGlslType (type (snd kv)), fst kv)) present)
    /\ initializationLines (vertexLines g)
       = Some
           (map
              (fun kv =>
                 (input ++ ".attributes." ++ fst kv
                  ++ " = attributes." ++ fst kv ++ ";")%string)
              present)
    /\ process primitive frameState w = (Returned tt, w')
    /\ shaderBuilder (renderResources w')
       = shaderBuilder (renderResources w)
         ++ [addStruct "AttributesVS" "Attributes" VERTEX]
         ++ map
              (fun kv =>
                 addStructField "AttributesVS"
                   (getGlslType (type (snd kv))) (fst kv))
              present
         ++ [addStruct "VertexInput" "VertexInput" VERTEX;
             addStructField "VertexInput" "Attributes" "attributes";
             addFunction "initializeInputStructVS"
               "void initializeInputStruct(out VertexInput vsInput, ProcessedAttributes attributes)"
               VERTEX]
         ++ map
              (fun kv =>
                 addFunctionLine "initializeInputStructVS"
                   (input ++ ".attributes." ++ fst kv
                    ++ " = attributes." ++ fst kv ++ ";")%string)
              present
         ++ addVertexLines
              [Some "#line 0"; vertexShaderText cs; Some CustomShaderStageVS]
            :: rest.
Proof.
  intros cs catalog used input Ht Hsub. subst input.
  set (present := addToShader (partitionAttributes catalog used)).
  assert (Hcat : NoDup (JsObject.keys catalog))
    by apply getAttributeNames_NoDup.
  assert (Hget : forall n,
             JsObject.get present n
             = if JsObject.hasOwnProperty used n
               then JsObject.get catalog n else None)
    by (intros n; now apply addToShader_get).
  assert (Hnd : NoDup (JsObject.keys present)) by apply addToShader_NoDup.
  assert (Hmiss : missingAttributes (partitionAttributes catalog used) = [])
    by now apply nothing_missing.
  assert (Hs : stageSucceeds catalog cs VertexStage = true).
  { unfold stageSucceeds, firstUnresolvable. cbn [stageText stageAttributeSet].
    rewrite <- find_missing. fold used. rewrite Hmiss. cbn [find isDefined].
    destruct (vertexShaderText cs); [reflexivity|congruence]. }
  assert (Hlines : vertexLines (generated cs primitive)
                   = successfulLines catalog cs VertexStage)
    by (cbn [generated vertexLines]; now apply stageSucceeds_generated).
  assert (He : customShaderEnabled (generated cs primitive) = true).
  { cbn [generated customShaderEnabled]. fold catalog.
    rewrite (stageSucceeds_generated _ _ _ Hs). reflexivity. }
  exists (generated cs primitive),
    (warn (generationWarnings cs primitive) w),
    (processed primitive w), present.
  eexists.
  split; [apply generateShaderLines_closed|].
  split; [now rewrite Hlines|].
  split; [exact Hnd|].
  split.
  { intros n. split; intros Hin.
    - apply JsObjectFacts.hasOwnProperty_In in Hin.
      unfold JsObject.hasOwnProperty in Hin. rewrite Hget in Hin.
      apply JsObjectFacts.hasOwnProperty_In.
      destruct (JsObject.hasOwnProperty used n); [reflexivity|discriminate].
    - pose proof (Hsub n Hin) as Hc.
      apply JsObjectFacts.hasOwnProperty_In in Hin.
      unfold JsObject.hasOwnProperty in Hc.
      destruct (JsObject.get catalog n) as [a|] eqn:Ha; [|discriminate].
      apply (get_Some_In present n (v := a)). now rewrite Hget, Hin. }
  split.
  { intros n a Hin. pose proof (In_get _ _ _ Hnd Hin) as Hp.
    rewrite Hget in Hp.
    destruct (JsObject.hasOwnProperty used n); [exact Hp|discriminate]. }
  rewrite Hlines.
  unfold successfulLines. cbn [stageAttributeSet]. fold used. fold present.
  rewrite Hmiss. cbn [inferredFields inferredLines flat_map inputName].
  rewrite !app_nil_r.
  cbn [attributeFields initializationLines].
  split; [reflexivity|].
  split; [reflexivity|].
  split; [apply process_closed|].
  rewrite processed_shaderBuilder. fold cs. unfold newCalls. rewrite He.
  unfold emission. rewrite Hlines.
  unfold successfulLines. cbn [stageAttributeSet]. fold used. fold present.
  rewrite Hmiss. cbn [inferredFields inferredLines flat_map inputName].
  rewrite !app_nil_r.
  cbn [enabled stageEmission attributeFields initializationLines listOf].
  unfold structFields, functionLines, presentFields, presentLines,
    generateAttributeField, copyLine.
  rewrite !map_map. cbn [fst snd].
  rewrite <- !app_assoc. cbn [app]. reflexivity.
Qed.

(** ** Default inference *)

Lemma allDigits1_underscore (b d : string) :
  JsString.allDigits1 (b ++ String "_" d) = false.
Proof.
  induction b as [|c b IH].
  - cbn [String.append JsString.allDigits1].
    destruct d; reflexivity.
  - cbn [String.append JsString.allDigits1].
    destruct (b ++ String "_" d)%string eqn:E.
    + destruct b; discriminate.
    + rewrite IH. apply andb_false_r.
Qed.

(** A set index at the end of a name is cut off, and nothing else. *)
Lemma stripSetIndex_suffix (base digits : string) :
  JsString.allDigits1 digits = true ->
  JsString.stripSetIndex (base ++ String "_" digits) = base.
Proof.
  intros Hd. induction base as [|c base IH].
  - cbn [String.append JsString.stripSetIndex]. rewrite Hd. reflexivity.
  - cbn [String.append JsString.stripSetIndex].
    rewrite allDigits1_underscore, andb_false_r. now rewrite IH.
Qed.

Lemma inheritedMember_spec (key : string) :
  inheritedMember key
  = if existsb (String.eqb key) objectPrototypeNames
    then Some (memberText key) else None.
Proof. reflexivity. Qed.

Lemma inheritedMember_In (key : string) :
  In key objectPrototypeNames -> inheritedMember key = Some (memberText key).
Proof.
  intros Hin. rewrite inheritedMember_spec.
  replace (existsb (String.eqb key) objectPrototypeNames) with true;
    [reflexivity|].
  symmetry. apply existsb_exists. exists key. split; [exact Hin|].
  apply String.eqb_refl.
Qed.

Lemma inheritedMember_not_In (key : string) :
  ~ In key objectPrototypeNames -> inheritedMember key = None.
Proof.
  intros Hnot. rewrite inheritedMember_spec.
  destruct (existsb (String.eqb key) objectPrototypeNames) eqn:E;
    [|reflexivity].
  exfalso. apply Hnot. apply existsb_exists in E.
  destruct E as (k & Hk & Heq). apply String.eqb_eq in Heq. now subst k.
Qed.

Lemma inferAttributeDefaults_table (n : string) :
  ~ In (JsString.stripSetIndex n) objectPrototypeNames ->
  (inferAttributeDefaults n <> None
   <-> In (JsString.stripSetIndex n)
         ["positionMC"; "normal"; "tangent"; "texCoord"; "joints"; "weights"]).
Proof.
  intros Hnot. apply inheritedMember_not_In in Hnot.
  unfold inferAttributeDefaults, attributeTypeLUT. rewrite Hnot.
  set (t := JsString.stripSetIndex n). cbn [In].
  repeat
    match goal with
    | |- context [String.eqb t ?k] =>
        destruct (String.eqb_spec t k) as [->|?]
    end;
    split; intros Hx; try discriminate; auto 10;
    try (exfalso; intuition congruence).
Qed.

Lemma inferAttributeDefaults_color (suffix : string) :
  inferAttributeDefaults ("color_" ++ suffix) = None.
Proof.
  unfold inferAttributeDefaults.
  cbn [String.append JsString.stripSetIndex Ascii.eqb Bool.eqb andb].
  destruct (Ascii.eqb "_" "_" && JsString.allDigits1 suffix); reflexivity.
Qed.

Lemma inferredFields_In missing n d :
  In n missing ->
  inferAttributeDefaults n = Some d ->
  In (attributeField d) (inferredFields missing)
  /\ forall input,
       In (defaultLine input n (value d)) (inferredLines input missing).
Proof.
  intros Hin Hd. split; [|intros input];
    apply in_flat_map; exists n; (split; [exact Hin|]);
    rewrite Hd; now left.
Qed.

Lemma inferredFields_name missing t n :
  In (t, n) (inferredFields missing) ->
  attributeTypeLUT (JsString.stripSetIndex n) = Some t.
Proof.
  intros Hin. apply in_flat_map in Hin. destruct Hin as (m & _ & Hm).
  unfold inferAttributeDefaults in Hm.
  destruct (attributeTypeLUT (JsString.stripSetIndex m)) as [t'|] eqn:E;
    [|contradiction].
  destruct Hm as [Heq|[]]. cbn [attributeField] in Heq.
  injection Heq as -> ->. exact E.
Qed.

Lemma presentFields_name (present : JsObject.t Attribute) t n :
  In (t, n) (presentFields present) -> In n (JsObject.keys present).
Proof.
  intros Hin. apply in_map_iff in Hin. destruct Hin as ([k a] & Heq & Hin).
  unfold generateAttributeField in Heq. cbn [fst snd] in Heq.
  injection Heq as _ <-. change (In (fst (k, a)) (map fst present)).
  now apply in_map.
Qed.

Lemma stageEmission_fields cs st lines :
  (forall f, In f (listOf (attributeFields lines)) ->
             In (addStructField (attributesStruct st) (fst f) (snd f))
               (stageEmission cs st lines))
  /\ (forall l, In l (listOf (initializationLines lines)) ->
                In (addFunctionLine (initializationFunction st) l)
                  (stageEmission cs st lines)).
Proof.
  split; [intros f Hf | intros l Hl];
    destruct st; unfold stageEmission;
    cbn [attributesStruct initializationFunction].
  - apply in_or_app. right. apply in_or_app. left.
    now apply (in_map (fun x => addStructField _ (fst x) (snd x))).
  - apply in_or_app. right. apply in_or_app. left.
    now apply (in_map (fun x => addStructField _ (fst x) (snd x))).
  - do 3 (apply in_or_app; right). apply in_or_app. left.
    now apply in_map.
  - do 5 (apply in_or_app; right). apply in_or_app. left.
    now apply in_map.
Qed.

Lemma emission_stage cs primitive st c :
  let g := generated cs primitive in
  enabled (stageLines g st) = true ->
  In c (stageEmission cs st (stageLines g st)) ->
  In c (newCalls cs g).
Proof.
  intros g He Hc. unfold newCalls.
  assert (Hce : customShaderEnabled g = true).
  { subst g. cbn [generated customShaderEnabled].
    destruct st; cbn [generated stageLines vertexLines fragmentLines] in He;
      rewrite He; [reflexivity | apply orb_true_r]. }
  rewrite Hce. apply in_or_app. left. unfold emission.
  destruct st; cbn [stageLines] in He, Hc; apply in_or_app;
    [left | right]; now rewrite He.
Qed.

(** C7, amended. A stage with source text that uses [normal] while the
    primitive lacks it succeeds whenever no attribute it uses is
    unresolvable; the field emitted for [normal] then has the GLSL type
    [vec3], no field of another type carries that name, and the
    initialization function has the line assigning the literal
    [vec3(0.0, 0.0, 1.0)]. Default inference looks its table up after
    cutting a trailing [_<digits>] off the name; a name that begins with
    [color_] has no default; and of the names whose trimmed form is not a
    member that the table inherits from [Object.prototype], exactly those
    whose trimmed form is one of the six keys of the table have a
    default. *)
Theorem missing_normal_gets_default :
  (forall primitive frameState w st,
      let cs := rr_customShader (renderResources w) in
      let catalog := getAttributeNames (attributes primitive) in
      stageText cs st <> None ->
      In "normal" (JsObject.keys (stageAttributeSet cs st)) ->
      JsObject.hasOwnProperty catalog "normal" = false ->
      firstUnresolvable catalog cs st = None ->
      exists g w1 w' fields lines calls,
        generateShaderLines cs primitive w = (Returned g, w1)
        /\ enabled (stageLines g st) = true
        /\ attributeFields (stageLines g st) = Some fields
        /\ In ("vec3", "normal") fields
        /\ (forall t, In (t, "normal") fields -> t = "vec3")
        /\ initializationLines (stageLines g st) = Some lines
        /\ In (inputName st ++ ".attributes.normal = vec3(0.0, 0.0, 1.0);")%string
             lines
        /\ process primitive frameState w = (Returned tt, w')
        /\ shaderBuilder (renderResources w')
           = shaderBuilder (renderResources w) ++ calls
        /\ In (addStructField (attributesStruct st) "vec3" "normal") calls
        /\ In (addFunctionLine (initializationFunction st)
                 (inputName st
                  ++ ".attributes.normal = vec3(0.0, 0.0, 1.0);")%string)
             calls)
  /\ inferAttributeDefaults "normal"
     = Some {| attributeField := ("vec3", "normal");
               value := Some "vec3(0.0, 0.0, 1.0)" |}
  /\ (forall base digits,
         JsString.allDigits1 digits = true ->
         JsString.stripSetIndex (base ++ "_" ++ digits) = base
         /\ inferAttributeDefaults (base ++ "_" ++ digits)
            = match attributeTypeLUT base with
              | Some glslType =>
                  Some {| attributeField :=
                            (glslType, (base ++ "_" ++ digits)%string);
                          value := attributeDefaultValueLUT base |}
              | None => None
              end)
  /\ (forall suffix, inferAttributeDefaults ("color_" ++ suffix) = None)
  /\ (forall n,
         ~ In (JsString.stripSetIndex n) objectPrototypeNames ->
         (inferAttributeDefaults n <> None
          <-> In (JsString.stripSetIndex n)
                ["positionMC"; "normal"; "tangent"; "texCoord"; "joints";
                 "weights"])).
Proof.
  split; [|split; [reflexivity|split; [|split]]].
  - intros primitive frameState w st cs catalog Ht Hin Habsent Hfirst.
    set (used := stageAttributeSet cs st).
    set (categories := partitionAttributes catalog used).
    assert (Hs : stageSucceeds catalog cs st = true).
    { unfold stageSucceeds. rewrite Hfirst.
      destruct (stageText cs st); [reflexivity|congruence]. }
    assert (Hlines : stageLines (generated cs primitive) st
                     = successfulLines catalog cs st).
    { destruct st; cbn [generated stageLines vertexLines fragmentLines];
        now apply stageSucceeds_generated. }
    assert (Hmiss : In "normal" (missingAttributes categories)).
    { subst categories. rewrite missingAttributes_filter.
      apply filter_In. split; [exact Hin|]. now rewrite Habsent. }
    destruct (inferredFields_In (missingAttributes categories) "normal"
                Hmiss eq_refl) as [Hfield Hline].
    cbn [attributeField value] in Hfield, Hline.
    set (fields := presentFields (addToShader categories)
                   ++ inferredFields (missingAttributes categories)).
    set (attributeLines :=
           presentLines (inputName st) (addToShader categories)
           ++ inferredLines (inputName st) (missingAttributes categories)).
    assert (He : enabled (stageLines (generated cs primitive) st) = true)
      by (rewrite Hlines; destruct st; reflexivity).
    assert (Hf : attributeFields (stageLines (generated cs primitive) st)
                 = Some fields)
      by (rewrite Hlines; destruct st; reflexivity).
    assert (Hl : exists lines,
               initializationLines (stageLines (generated cs primitive) st)
               = Some lines
               /\ forall l, In l attributeLines -> In l lines).
    { rewrite Hlines. destruct st; eexists; (split; [reflexivity|]);
        intros l Hl'; [exact Hl' | apply in_or_app; now right]. }
    destruct Hl as (lines & Hl & Hsub).
    assert (Hnl : In (inputName st
                      ++ ".attributes.normal = vec3(0.0, 0.0, 1.0);")%string
                    lines).
    { apply Hsub. apply in_or_app. right.
      specialize (Hline (inputName st)).
      destruct st; exact Hline. }
    exists (generated cs primitive),
      (warn (generationWarnings cs primitive) w),
      (processed primitive w), fields, lines,
      (newCalls cs (generated cs primitive)).
    split; [apply generateShaderLines_closed|].
    split; [exact He|].
    split; [exact Hf|].
    split; [apply in_or_app; now right|].
    split.
    { intros t Hin'. apply in_app_or in Hin'. destruct Hin' as [Hp|Hi].
      - exfalso. apply presentFields_name in Hp.
        apply JsObjectFacts.hasOwnProperty_In in Hp.
        unfold JsObject.hasOwnProperty in Hp. subst categories.
        rewrite addToShader_get in Hp by apply getAttributeNames_NoDup.
        unfold JsObject.hasOwnProperty in Habsent.
        destruct (JsObject.get catalog "normal"); [discriminate|].
        destruct (JsObject.hasOwnProperty used "normal") in Hp; discriminate.
      - apply inferredFields_name in Hi. cbn in Hi. congruence. }
    split; [exact Hl|].
    split; [exact Hnl|].
    split; [apply process_closed|].
    split; [apply processed_shaderBuilder|].
    destruct (stageEmission_fields cs st
                (stageLines (generated cs primitive) st)) as [Hsf Hfl].
    split; apply emission_stage with (st := st); auto.
    + apply (Hsf ("vec3", "normal")). rewrite Hf. cbn [listOf].
      apply in_or_app. now right.
    + apply Hfl. rewrite Hl. exact Hnl.
  - intros base digits Hd.
    assert (Hstrip : JsString.stripSetIndex (base ++ "_" ++ digits) = base)
      by now apply stripSetIndex_suffix.
    split; [exact Hstrip|].
    unfold inferAttributeDefaults. now rewrite Hstrip.
  - apply inferAttributeDefaults_color.
  - apply inferAttributeDefaults_table.
Qed.

End Properties.

(** C9 on a primitive with three attributes and a shader that uses one of
    them and two it lacks. *)
Lemma partitionAttributes_partitions_witness :
  let primitiveAttributes :=
    getAttributeNames (attributes Fixture.primitive3) in
  let shaderAttributeSet := Fixture.used ["tangent"; "normal"; "color_0"] in
  let categories :=
    partitionAttributes primitiveAttributes shaderAttributeSet in
  NoDup (JsObject.keys primitiveAttributes)
  /\ JsObject.keys (addToShader categories) = ["normal"]
  /\ missingAttributes categories = ["tangent"; "color_0"]
  /\ JsObject.hasOwnProperty (addToShader categories) "texCoord_0" = false.
Proof.
  intros primitiveAttributes shaderAttributeSet categories.
  assert (Hnd : NoDup (JsObject.keys primitiveAttributes)) by distinct_keys.
  destruct (@partitionAttributes_partitions _ _ primitiveAttributes
              shaderAttributeSet Hnd) as (_ & _ & Hm & Hu).
  split; [exact Hnd|].
  split; [reflexivity|].
  split; [exact Hm|].
  exact (proj1 (Hu "texCoord_0" eq_refl eq_refl)).
Defined.

(* ===================================================================== *)
(** * The properties on concrete primitives and shaders *)
(* ===================================================================== *)

(** A stage without source text is not attempted: here the vertex
    attribute set names [color_0], which the primitive lacks and the policy
    cannot infer, and [process] gives no warning. *)
Lemma no_warning_without_source_text :
  let cs :=
    Fixture.shader None Fixture.fragmentText ["color_0"] ["normal"] []
      false in
  let w := Fixture.world cs in
  let catalog := getAttributeNames (attributes Fixture.primitive3) in
  In "color_0" (JsObject.keys (stageAttributeSet cs VertexStage))
  /\ JsObject.hasOwnProperty catalog "color_0" = false
  /\ inferAttributeDefaults "color_0" = None
  /\ fst (process Fixture.primitive3 tt w) = Returned tt
  /\ warnings (snd (process Fixture.primitive3 tt w)) = []
  /\ ~ (exists a,
          filter (warnedBy VertexStage)
            (warnings (snd (process Fixture.primitive3 tt w)))
          = [stageWarning VertexStage a]).
Proof.
  intros cs w catalog.
  split; [now left|].
  split; [reflexivity|].
  split; [reflexivity|].
  split; [reflexivity|].
  split; [reflexivity|].
  intros [a Ha]. vm_compute in Ha. discriminate.
Qed.

(** C1 on the fragment stage of a shader that uses [normal] and [color_0]
    on a primitive with positionMC, normal and texCoord_0. *)
Lemma unresolvable_attribute_disables_stage_witness :
  let cs :=
    Fixture.shader Fixture.vertexText Fixture.fragmentText
      ["positionMC"] ["normal"; "color_0"] [] false in
  let w := Fixture.world cs in
  let catalog := getAttributeNames (attributes Fixture.primitive3) in
  (stageText cs FragmentStage <> None
   /\ In "color_0" (JsObject.keys (stageAttributeSet cs FragmentStage))
   /\ JsObject.hasOwnProperty catalog "color_0" = false
   /\ inferAttributeDefaults "color_0" = None)
  /\ exists a g w1 w' ws calls,
       firstUnresolvable catalog cs FragmentStage = Some a
       /\ In a (JsObject.keys (stageAttributeSet cs FragmentStage))
       /\ unresolvable catalog a = true
       /\ ((forall b',
               In b' (JsObject.keys (stageAttributeSet cs FragmentStage)) ->
               unresolvable catalog b' = true -> b' = "color_0") ->
           a = "color_0")
       /\ generateShaderLines cs Fixture.primitive3 w = (Returned g, w1)
       /\ enabled (stageLines g FragmentStage) = false
       /\ process Fixture.primitive3 tt w = (Returned tt, w')
       /\ warnings w' = warnings w ++ ws
       /\ filter (warnedBy FragmentStage) ws
          = [stageWarning FragmentStage a]
       /\ shaderBuilder (renderResources w')
          = shaderBuilder (renderResources w) ++ calls
       /\ forall c, In c calls -> belongsTo FragmentStage c = false.
Proof.
  intros cs w catalog.
  assert (Ht : stageText cs FragmentStage <> None) by discriminate.
  assert (Hin : In "color_0"
                  (JsObject.keys (stageAttributeSet cs FragmentStage)))
    by (right; now left).
  split; [repeat split; [exact Ht | exact Hin]|].
  exact (unresolvable_attribute_disables_stage Fixture.primitive3 tt w
           FragmentStage "color_0" Ht Hin eq_refl eq_refl).
Defined.

(** C2 on a shader without source texts, whose used sets are not even
    empty. *)
Lemma customShaderEnabled_iff_generation_succeeded_witness :
  let cs := Fixture.shader None None ["color_0"] ["normal"] ["positionWC"]
              true in
  let w := Fixture.world cs in
  (vertexShaderText cs = None /\ fragmentShaderText cs = None)
  /\ process Fixture.primitive3 tt w = (Returned tt, w).
Proof.
  intros cs w.
  split; [split; reflexivity|].
  destruct (customShaderEnabled_iff_generation_succeeded
              Fixture.primitive3 tt w) as (g & w1 & _ & _ & _ & _ & Hnone).
  exact (proj2 (Hnone eq_refl eq_refl)).
Defined.

(** C3 on the scenario of a primitive with positionMC alone and a fragment
    shader that reads [positionWC]. *)
Lemma shouldComputePositionWC_iff_witness :
  let cs :=
    Fixture.shader Fixture.vertexText Fixture.fragmentText
      ["positionMC"] [] ["positionWC"] false in
  let w := Fixture.world cs in
  exists g w1,
    generateShaderLines cs Fixture.primitive1 w = (Returned g, w1)
    /\ shouldComputePositionWC g = true
    /\ exists w' before after,
         process Fixture.primitive1 tt w = (Returned tt, w')
         /\ shaderBuilder (renderResources w')
            = shaderBuilder (renderResources w)
              ++ before
              ++ addDefine "COMPUTE_POSITION_WC" None VERTEX :: after.
Proof.
  intros cs w.
  destruct (shouldComputePositionWC_iff Fixture.primitive1 tt w)
    as (g & w1 & Hg & Hiff & _ & _ & Hdefine).
  exists g, w1.
  assert (Hs : shouldComputePositionWC g = true).
  { apply Hiff. split; [reflexivity|].
    vm_compute in Hg. injection Hg as <- _. reflexivity. }
  split; [exact Hg|].
  split; [exact Hs|].
  exact (Hdefine Hs).
Defined.

(** C4 fails for a shader that is not translucent: the alpha mode the
    material stage had set to blend is overwritten with opaque. *)
Lemma alphaMode_forced_to_opaque :
  let cs :=
    Fixture.shader Fixture.vertexText None ["positionMC"] [] [] false in
  let before := {| pass := None; alphaMode := Some BLEND |} in
  let w := Fixture.worldAfterMaterial cs before [] in
  isTranslucent cs = false
  /\ (exists g w1,
        generateShaderLines cs Fixture.primitive3 w = (Returned g, w1)
        /\ customShaderEnabled g = true)
  /\ fst (process Fixture.primitive3 tt w) = Returned tt
  /\ alphaMode
       (alphaOptions (renderResources (snd (process Fixture.primitive3 tt w))))
     = Some OPAQUE
  /\ alphaOptions (renderResources (snd (process Fixture.primitive3 tt w)))
     <> alphaOptions (renderResources w).
Proof.
  intros cs before w.
  split; [reflexivity|].
  split; [eexists; eexists; split; reflexivity|].
  split; [reflexivity|].
  split; [reflexivity|].
  vm_compute. discriminate.
Qed.

(** C4 on the same shader and on its translucent twin. *)
Lemma alphaOptions_after_process_witness :
  let opaque :=
    Fixture.shader Fixture.vertexText None ["positionMC"] [] [] false in
  let translucent :=
    Fixture.shader Fixture.vertexText None ["positionMC"] [] [] true in
  let before := {| pass := Some PASS_OPAQUE; alphaMode := Some MASK |} in
  (exists w',
     process Fixture.primitive3 tt
       (Fixture.worldAfterMaterial translucent before [])
     = (Returned tt, w')
     /\ alphaOptions (renderResources w')
        = {| pass := Some PASS_TRANSLUCENT; alphaMode := Some BLEND |})
  /\ (exists w',
        process Fixture.primitive3 tt
          (Fixture.worldAfterMaterial opaque before [])
        = (Returned tt, w')
        /\ alphaOptions (renderResources w')
           = {| pass := None; alphaMode := Some OPAQUE |}).
Proof.
  intros opaque translucent before.
  split.
  - destruct (alphaOptions_after_process Fixture.primitive3 tt
                (Fixture.worldAfterMaterial translucent before [])
                (g := generated translucent Fixture.primitive3)
                (generateShaderLines_closed _ _ _) eq_refl)
      as (w' & Hp & Ht & _).
    exists w'. split; [exact Hp | exact (Ht eq_refl)].
  - destruct (alphaOptions_after_process Fixture.primitive3 tt
                (Fixture.worldAfterMaterial opaque before [])
                (g := generated opaque Fixture.primitive3)
                (generateShaderLines_closed _ _ _) eq_refl)
      as (w' & Hp & _ & Ho).
    exists w'. split; [exact Hp | exact (Ho eq_refl)].
Defined.

(** C5 on a draw call whose uniform map binds [u_time] already. *)
Lemma uniformMap_user_values_take_precedence_witness :
  let cs := Fixture.shaderWithUniforms [("u_time", 7%N)] in
  let w :=
    Fixture.worldAfterMaterial cs {| pass := None; alphaMode := None |}
      [("u_model", 1%N); ("u_time", 2%N)] in
  NoDup (JsObject.keys (uniformMap cs))
  /\ exists w',
       process Fixture.primitive3 tt w = (Returned tt, w')
       /\ JsObject.get (rr_uniformMap (renderResources w')) "u_time"
          = Some 7%N
       /\ JsObject.get (rr_uniformMap (renderResources w')) "u_model"
          = Some 1%N.
Proof.
  intros cs w.
  assert (Hnd : NoDup (JsObject.keys (uniformMap cs))) by distinct_keys.
  split; [exact Hnd|].
  destruct (uniformMap_user_values_take_precedence Fixture.primitive3 tt w
              (g := generated cs Fixture.primitive3)
              (generateShaderLines_closed _ _ _) eq_refl Hnd)
    as (w' & Hp & Huser & Hother).
  exists w'. split; [exact Hp|]. split.
  - exact (Huser "u_time" 7%N eq_refl).
  - exact (Hother "u_model" eq_refl).
Defined.

(** C6 on a vertex shader that uses two of the three attributes of the
    primitive. *)
Lemma vertex_attributes_present_witness :
  let cs :=
    Fixture.shader Fixture.vertexText None ["texCoord_0"; "positionMC"] []
      [] false in
  let w := Fixture.world cs in
  let catalog := getAttributeNames (attributes Fixture.primitive3) in
  let used := attributeSet (usedVariablesVertex cs) in
  (vertexShaderText cs <> None
   /\ forall n, In n (JsObject.keys used) ->
                JsObject.hasOwnProperty catalog n = true)
  /\ exists w',
       process Fixture.primitive3 tt w = (Returned tt, w')
       /\ shaderBuilder (renderResources w')
          = [addStruct "AttributesVS" "Attributes" VERTEX;
             addStructField "AttributesVS" "vec3" "positionMC";
             addStructField "AttributesVS" "vec2" "texCoord_0";
             addStruct "VertexInput" "VertexInput" VERTEX;
             addStructField "VertexInput" "Attributes" "attributes";
             addFunction "initializeInputStructVS"
               "void initializeInputStruct(out VertexInput vsInput, ProcessedAttributes attributes)"
               VERTEX;
             addFunctionLine "initializeInputStructVS"
               "vsInput.attributes.positionMC = attributes.positionMC;";
             addFunctionLine "initializeInputStructVS"
               "vsInput.attributes.texCoord_0 = attributes.texCoord_0;";
             addVertexLines
               [Some "#line 0"; Fixture.vertexText;
                Some "// CustomShaderStageVS"];
             addDefine "HAS_CUSTOM_VERTEX_SHADER" None VERTEX].
Proof.
  intros cs w catalog used.
  assert (Ht : vertexShaderText cs <> None) by discriminate.
  assert (Hsub : forall n, In n (JsObject.keys used) ->
                           JsObject.hasOwnProperty catalog n = true).
  { intros n [<-|[<-|[]]]; reflexivity. }
  split; [split; [exact Ht | exact Hsub]|].
  destruct (vertex_attributes_present Fixture.primitive3 tt w Ht Hsub)
    as (g & w1 & w' & present & rest & _ & _ & _ & _ & _ & _ & _ & Hp & _).
  exists w'. split; [exact Hp|].
  vm_compute in Hp. injection Hp as <-. reflexivity.
Defined.

(** C7 fails when [normal] has an unresolvable companion: the vertex stage
    uses [normal] and [color_0] on a primitive with positionMC alone, is
    disabled, and nothing is emitted for [normal]. *)
Lemma normal_default_lost_with_unresolvable_companion :
  let cs :=
    Fixture.shader Fixture.vertexText None ["normal"; "color_0"] [] []
      false in
  let w := Fixture.world cs in
  let catalog := getAttributeNames (attributes Fixture.primitive1) in
  In "normal" (JsObject.keys (stageAttributeSet cs VertexStage))
  /\ JsObject.hasOwnProperty catalog "normal" = false
  /\ (exists g w1,
        generateShaderLines cs Fixture.primitive1 w = (Returned g, w1)
        /\ enabled (vertexLines g) = false
        /\ attributeFields (vertexLines g) = None)
  /\ fst (process Fixture.primitive1 tt w) = Returned tt
  /\ shaderBuilder (renderResources (snd (process Fixture.primitive1 tt w)))
     = [].
Proof.
  intros cs w catalog.
  split; [now left|].
  split; [reflexivity|].
  split; [eexists; eexists; split; [reflexivity|split; reflexivity]|].
  split; reflexivity.
Qed.

(** C7 on a fragment shader that uses [normal] and [texCoord_1] on a
    primitive with positionMC alone, and on the names [texCoord_12] and
    [color_0]. *)
Lemma missing_normal_gets_default_witness :
  let cs :=
    Fixture.shader None Fixture.fragmentText [] ["normal"; "texCoord_1"] []
      false in
  let w := Fixture.world cs in
  let catalog := getAttributeNames (attributes Fixture.primitive1) in
  (stageText cs FragmentStage <> None
   /\ In "normal" (JsObject.keys (stageAttributeSet cs FragmentStage))
   /\ JsObject.hasOwnProperty catalog "normal" = false
   /\ firstUnresolvable catalog cs FragmentStage = None)
  /\ (exists w' calls,
        process Fixture.primitive1 tt w = (Returned tt, w')
        /\ shaderBuilder (renderResources w')
           = shaderBuilder (renderResources w) ++ calls
        /\ In (addStructField "AttributesFS" "vec3" "normal") calls
        /\ In (addFunctionLine "initializeInputStructFS"
                 "fsInput.attributes.normal = vec3(0.0, 0.0, 1.0);")
             calls)
  /\ JsString.allDigits1 "12" = true
  /\ inferAttributeDefaults "texCoord_12"
     = Some {| attributeField := ("vec2", "texCoord_12");
               value := Some "vec2(0.0)" |}
  /\ inferAttributeDefaults "color_0" = None.
Proof.
  intros cs w catalog.
  destruct (missing_normal_gets_default (H := Fixture.collaborators))
    as (Hstage & _ & Hstrip & Hcolor & _).
  assert (Ht : stageText cs FragmentStage <> None) by discriminate.
  assert (Hin : In "normal"
                  (JsObject.keys (stageAttributeSet cs FragmentStage)))
    by now left.
  split; [repeat split; [exact Ht | exact Hin]|].
  split.
  - destruct (Hstage Fixture.primitive1 tt w FragmentStage Ht Hin
                eq_refl eq_refl)
      as (g & w1 & w' & fields & lines & calls & _ & _ & _ & _ & _ & _ & _
          & Hp & Hb & Hf & Hl).
    exists w', calls. repeat split; assumption.
  - split; [reflexivity|].
    split; [exact (proj2 (Hstrip "texCoord" "12" eq_refl))|].
    exact (Hcolor "0").
Defined.

(** C10 on a shader whose vertex stage is disabled by [color_0] while its
    fragment stage succeeds: the vertex define is added all the same. *)
Lemma presence_defines_follow_source_text_witness :
  let cs :=
    Fixture.shader Fixture.vertexText Fixture.fragmentText
      ["color_0"] ["normal"] [] false in
  let w := Fixture.world cs in
  exists g w1 w' calls,
    generateShaderLines cs Fixture.primitive3 w = (Returned g, w1)
    /\ customShaderEnabled g = true
    /\ enabled (vertexLines g) = false
    /\ process Fixture.primitive3 tt w = (Returned tt, w')
    /\ shaderBuilder (renderResources w')
       = shaderBuilder (renderResources w) ++ calls
    /\ In (addDefine "HAS_CUSTOM_VERTEX_SHADER" None VERTEX) calls
    /\ In (addDefine "HAS_CUSTOM_FRAGMENT_SHADER" None FRAGMENT) calls
    /\ In (addDefine "CUSTOM_SHADER_MODIFY_MATERIAL" None FRAGMENT) calls
    /\ forall c, In c calls -> belongsTo VertexStage c = false.
Proof.
  intros cs w.
  destruct (presence_defines_follow_source_text Fixture.primitive3 tt w
              (g := generated cs Fixture.primitive3)
              (generateShaderLines_closed _ _ _) eq_refl)
    as (w' & calls & Hp & Hb & Hv & Hf & Hnv & _).
  exists (generated cs Fixture.primitive3),
    (warn (generationWarnings cs Fixture.primitive3) w), w', calls.
  split; [apply generateShaderLines_closed|].
  split; [reflexivity|].
  split; [reflexivity|].
  split; [exact Hp|].
  split; [exact Hb|].
  split; [apply Hv; discriminate|].
  assert (Hft : fragmentShaderText cs <> None) by discriminate.
  split; [exact (proj1 (Hf Hft))|].
  split; [exact (proj2 (Hf Hft))|].
  exact (Hnv eq_refl).
Defined.

(* ===================================================================== *)
(** * Enumeration order of objects *)
(* ===================================================================== *)

Section EnumerationOrder.

Variable V : Type.
Implicit Types (o : JsObject.t V) (k : string) (v : V).

Lemma precedes_irreflexive k : JsObject.precedes k k = false.
Proof.
  unfold JsObject.precedes. destruct (JsObject.arrayIndex k); auto.
  apply N.ltb_irrefl.
Qed.

Lemma precedes_asymmetric k k' :
  JsObject.precedes k k' = true -> JsObject.precedes k' k = false.
Proof.
  unfold JsObject.precedes.
  destruct (JsObject.arrayIndex k), (JsObject.arrayIndex k');
    try discriminate; auto.
  rewrite N.ltb_lt, N.ltb_ge. lia.
Qed.

(** A key that does not have to come before [k0] does not have to come
    before a key that comes before [k0] either. *)
Lemma precedes_behind k k0 k' :
  JsObject.precedes k k0 = true ->
  JsObject.precedes k' k0 = false ->
  JsObject.precedes k' k = false.
Proof.
  unfold JsObject.precedes.
  destruct (JsObject.arrayIndex k), (JsObject.arrayIndex k0),
    (JsObject.arrayIndex k'); try discriminate; auto.
  rewrite N.ltb_lt, !N.ltb_ge. lia.
Qed.

Lemma enumerated_app (l1 l2 : list string) :
  enumerated (l1 ++ l2) = true
  <-> enumerated l1 = true
      /\ enumerated l2 = true
      /\ forall x y, In x l1 -> In y l2 -> mayPrecede x y = true.
Proof.
  induction l1 as [|x l1 IH]; cbn [app enumerated].
  - intuition.
  - rewrite !andb_true_iff, forallb_app, andb_true_iff, IH, !forallb_forall.
    split.
    + intros ((H1 & H2) & H3 & H4 & H5). repeat split; auto.
      intros a b [<-|Ha] Hb; auto.
    + intros ((H1 & H2) & H3 & H4). repeat split; auto.
      * intros y Hy. apply H4; [now left | assumption].
      * intros a b Ha Hb. apply H4; [now right | assumption].
Qed.

Lemma enumerated_NoDup (l : list string) :
  enumerated l = true -> NoDup l.
Proof.
  induction l as [|x l IH]; cbn [enumerated]; intros He; constructor.
  - apply andb_true_iff in He. destruct He as [Hx _].
    rewrite forallb_forall in Hx. intros Hin. specialize (Hx x Hin).
    unfold mayPrecede in Hx. now rewrite String.eqb_refl in Hx.
  - apply IH. now apply andb_true_iff in He.
Qed.

Lemma wellFormed_NoDup o : wellFormed o -> NoDup (JsObject.keys o).
Proof. apply enumerated_NoDup. Qed.

Lemma enumerated_insertNew o k v :
  ~ In k (JsObject.keys o) ->
  enumerated (JsObject.keys o) = true ->
  enumerated (JsObject.keys (JsObject.insertNew o k v)) = true.
Proof.
  induction o as [|[k0 v0] rest IH];
    cbn [JsObject.insertNew JsObject.keys map fst enumerated forallb];
    intros Hnew He; [reflexivity|].
  apply andb_true_iff in He. destruct He as [H0 Hrest].
  rewrite forallb_forall in H0.
  destruct (JsObject.precedes k k0) eqn:Hp;
    cbn [JsObject.keys map fst enumerated forallb].
  - apply andb_true_iff. split.
    + apply andb_true_iff. split.
      * unfold mayPrecede. rewrite (precedes_asymmetric _ _ Hp).
        destruct (String.eqb_spec k k0) as [->|_]; [|reflexivity].
        exfalso. apply Hnew. now left.
      * apply forallb_forall. intros k' Hk'. unfold mayPrecede.
        specialize (H0 k' Hk'). unfold mayPrecede in H0.
        apply andb_true_iff in H0. destruct H0 as [_ H0].
        apply negb_true_iff in H0.
        rewrite (precedes_behind _ _ _ Hp H0).
        destruct (String.eqb_spec k k') as [->|_]; [|reflexivity].
        exfalso. apply Hnew. now right.
    + apply andb_true_iff. split; [now apply forallb_forall | exact Hrest].
  - apply andb_true_iff. split.
    + apply forallb_forall. intros k' Hk'.
      change (In k' (JsObject.keys (JsObject.insertNew rest k v))) in Hk'.
      apply JsObjectFacts.In_keys_insertNew in Hk'.
      destruct Hk' as [->|Hk']; [|now apply H0].
      unfold mayPrecede. rewrite Hp.
      destruct (String.eqb_spec k0 k) as [->|_]; [|reflexivity].
      exfalso. apply Hnew. now left.
    + apply IH; [|exact Hrest]. intros Hin. apply Hnew. now right.
Qed.

(** Writing a property keeps the list the property list of an object. *)
Lemma wellFormed_set o k v : wellFormed o -> wellFormed (JsObject.set o k v).
Proof.
  unfold wellFormed, JsObject.set. intros Hw.
  destruct (JsObject.hasOwnProperty o k) eqn:Hk.
  - now rewrite JsObjectFacts.keys_replace.
  - apply enumerated_insertNew; [|exact Hw].
    now apply JsObjectFacts.hasOwnProperty_false.
Qed.

(** A new key that need not come before any present key goes last. *)
Lemma insertNew_last o k v :
  (forall k', In k' (JsObject.keys o) -> JsObject.precedes k k' = false) ->
  JsObject.insertNew o k v = o ++ [(k, v)].
Proof.
  induction o as [|[k0 v0] rest IH];
    cbn [JsObject.insertNew JsObject.keys map fst app]; intros Hk;
    [reflexivity|].
  rewrite (Hk k0) by now left.
  f_equal. apply IH. intros k' Hk'. apply Hk. now right.
Qed.

(** Writing a property changes nothing in the properties a filter on other
    keys selects. *)
Lemma filter_set_other (p : string -> bool) o k v :
  p k = false ->
  filter (fun kv => p (fst kv)) (JsObject.set o k v)
  = filter (fun kv => p (fst kv)) o.
Proof.
  intros Hp. unfold JsObject.set.
  destruct (JsObject.hasOwnProperty o k).
  - induction o as [|[k0 v0] rest IH]; cbn [JsObject.replace]; [reflexivity|].
    destruct (String.eqb_spec k k0) as [->|Hne]; cbn [filter fst].
    + now rewrite Hp.
    + now rewrite IH.
  - induction o as [|[k0 v0] rest IH]; cbn [JsObject.insertNew filter fst].
    + now rewrite Hp.
    + destruct (JsObject.precedes k k0); cbn [filter fst].
      * now rewrite Hp.
      * now rewrite IH.
Qed.

End EnumerationOrder.

Section PartitionOrder.

Variables A S : Type.
Variable shaderAttributeSet : JsObject.t S.

Let used (kv : string * A) : bool :=
  JsObject.hasOwnProperty shaderAttributeSet (fst kv).

Lemma keep_filter (prim acc : JsObject.t A) :
  enumerated (JsObject.keys (acc ++ prim)) = true ->
  fold_left
    (fun acc kv =>
       if JsObject.hasOwnProperty shaderAttributeSet (fst kv)
       then JsObject.set acc (fst kv) (snd kv)
       else acc)
    prim acc
  = acc ++ filter used prim.
Proof.
  revert acc. induction prim as [|[k a] rest IH]; intros acc He.
  - cbn [fold_left filter]. now rewrite app_nil_r.
  - cbn [fold_left filter fst snd]. unfold used at 1. cbn [fst].
    unfold JsObject.keys in He. rewrite map_app in He. cbn [map fst] in He.
    destruct (JsObject.hasOwnProperty shaderAttributeSet k).
    + assert (Hset : JsObject.set acc k a = acc ++ [(k, a)]).
      { apply enumerated_app in He. destruct He as (_ & _ & Hcross).
        unfold JsObject.set.
        assert (Hnew : JsObject.hasOwnProperty acc k = false).
        { apply JsObjectFacts.hasOwnProperty_false. intros Hin.
          specialize (Hcross k k Hin (or_introl eq_refl)).
          unfold mayPrecede in Hcross.
          now rewrite String.eqb_refl in Hcross. }
        rewrite Hnew. apply insertNew_last. intros k' Hk'.
        specialize (Hcross k' k Hk' (or_introl eq_refl)).
        unfold mayPrecede in Hcross. apply andb_true_iff in Hcross.
        destruct Hcross as [_ Hcross]. now apply negb_true_iff in Hcross. }
      rewrite Hset, IH.
      * now rewrite <- app_assoc.
      * unfold JsObject.keys. rewrite <- app_assoc, map_app. exact He.
    + apply IH. unfold JsObject.keys. rewrite map_app.
      apply enumerated_app in He. destruct He as (H1 & H2 & H3).
      apply enumerated_app. split; [exact H1|]. split.
      * cbn [enumerated] in H2. now apply andb_true_iff in H2.
      * intros x y Hx Hy. apply H3; [exact Hx | now right].
Qed.

End PartitionOrder.

(* ===================================================================== *)
(** * Further properties: catalog, partitioner and default policy *)
(* ===================================================================== *)

Lemma string_append_nil_r (s : string) : (s ++ "")%string = s.
Proof. induction s as [|c s IH]; cbn [String.append]; congruence. Qed.

Lemma string_length_append (a b : string) :
  String.length (a ++ b) = String.length a + String.length b.
Proof.
  induction a as [|c a IH]; cbn [String.append String.length plus]; auto.
Qed.

Lemma find_last (A : Type) (f : A -> bool) (l : list A) (x : A) :
  find f (l ++ [x])
  = match find f l with
    | Some y => Some y
    | None => if f x then Some x else None
    end.
Proof.
  induction l as [|y l IH]; cbn [app find]; [reflexivity|].
  destruct (f y); auto.
Qed.



Section Catalog.

Context `{Collaborators}.

Lemma catalog_get (attrs : list Attribute) (names : JsObject.t Attribute) n :
  JsObject.get
    (fold_left
       (fun names a => JsObject.set names (variableNameOf a) a) attrs names)
    n
  = match find (fun a => String.eqb (variableNameOf a) n) (rev attrs) with
    | Some a => Some a
    | None => JsObject.get names n
    end.
Proof.
  revert names. induction attrs as [|a rest IH]; intros names.
  - reflexivity.
  - cbn [fold_left rev]. rewrite IH, find_last, JsObjectFacts.get_set.
    rewrite (String.eqb_sym n).
    destruct (find _ (rev rest)); [reflexivity|].
    destruct (String.eqb (variableNameOf a) n); reflexivity.
Qed.

Lemma catalog_wellFormed (attrs : list Attribute)
    (names : JsObject.t Attribute) :
  wellFormed names ->
  wellFormed
    (fold_left
       (fun names a => JsObject.set names (variableNameOf a) a) attrs names).
Proof.
  revert names. induction attrs as [|a rest IH]; intros names Hw.
  - exact Hw.
  - cbn [fold_left]. apply IH. now apply wellFormed_set.
Qed.

Lemma getAttributeNames_fold (attrs : list Attribute) :
  getAttributeNames attrs
  = fold_left
      (fun names a => JsObject.set names (variableNameOf a) a)
      attrs JsObject.empty.
Proof. reflexivity. Qed.

Lemma getAttributeNames_wellFormed (attrs : list Attribute) :
  wellFormed (getAttributeNames attrs).
Proof. rewrite getAttributeNames_fold. apply catalog_wellFormed. reflexivity. Qed.


Lemma getAttributeNames_get (attrs : list Attribute) (n : string) :
  JsObject.get (getAttributeNames attrs) n
  = find (fun a => String.eqb (variableNameOf a) n) (rev attrs).
Proof.
  rewrite getAttributeNames_fold, catalog_get.
  destruct (find _ (rev attrs)); reflexivity.
Qed.

Lemma getAttributeNames_has (attrs : list Attribute) (n : string) :
  JsObject.hasOwnProperty (getAttributeNames attrs) n = true
  <-> exists a, In a attrs /\ variableNameOf a = n.
Proof.
  unfold JsObject.hasOwnProperty. rewrite getAttributeNames_get. split.
  - destruct (find _ (rev attrs)) as [a|] eqn:Hf; [|discriminate].
    intros _. apply find_some in Hf. destruct Hf as [Hin Heq].
    exists a. split; [now apply in_rev | now apply String.eqb_eq].
  - intros (a & Hin & Heq).
    destruct (find _ (rev attrs)) as [b|] eqn:Hf; [reflexivity|].
    apply in_rev in Hin. pose proof (find_none _ _ Hf a Hin) as Hn.
    cbn beta in Hn. rewrite Heq, String.eqb_refl in Hn. discriminate.
Qed.

End Catalog.

Lemma addToShader_filter (A S : Type) (prim : JsObject.t A)
    (used : JsObject.t S) :
  wellFormed prim ->
  addToShader (partitionAttributes prim used)
  = filter (fun kv => JsObject.hasOwnProperty used (fst kv)) prim.
Proof.
  intros Hw. unfold partitionAttributes. cbn [addToShader].
  now rewrite keep_filter.
Qed.

Section CatalogProperties.

Context `{Collaborators}.



End CatalogProperties.

(** X3. On a well-formed object of primitive attributes, [addToShader] is
    the sub-list of its properties that the shader set names: the common
    attributes keep the iteration order of the primitive's catalog. *)
Theorem addToShader_keeps_catalog_order (A S : Type)
    (primitiveAttributes : JsObject.t A)
    (shaderAttributeSet : JsObject.t S) :
  wellFormed primitiveAttributes ->
  addToShader (partitionAttributes primitiveAttributes shaderAttributeSet)
  = filter
      (fun kv => JsObject.hasOwnProperty shaderAttributeSet (fst kv))
      primitiveAttributes
  /\ JsObject.keys
       (addToShader
          (partitionAttributes primitiveAttributes shaderAttributeSet))
     = filter (JsObject.hasOwnProperty shaderAttributeSet)
         (JsObject.keys primitiveAttributes).
Proof.
  intros Hw. rewrite (addToShader_filter _ Hw). split; [reflexivity|].
  unfold JsObject.keys.
  induction primitiveAttributes as [|[k a] rest IH]; cbn [filter map fst];
    [reflexivity|].
  assert (Hrest : wellFormed rest).
  { unfold wellFormed in *. cbn [JsObject.keys map fst enumerated] in Hw.
    now apply andb_true_iff in Hw. }
  destruct (JsObject.hasOwnProperty shaderAttributeSet k); cbn [map fst];
    now rewrite (IH Hrest).
Qed.

(** X4. Trimming cuts a name into the result and a suffix that is empty or
    an underscore followed by digits only; the name is left as it is exactly
    when it does not end in an underscore and digits. *)
Theorem stripSetIndex_cuts_one_suffix (s : string) :
  (exists suffix,
      s = (JsString.stripSetIndex s ++ suffix)%string
      /\ (suffix = ""
          \/ exists digits,
               suffix = String "_" digits
               /\ JsString.allDigits1 digits = true))
  /\ (JsString.stripSetIndex s = s
      <-> forall base digits,
            JsString.allDigits1 digits = true ->
            s <> (base ++ String "_" digits)%string).
Proof.
  assert (Hcut : exists suffix,
             s = (JsString.stripSetIndex s ++ suffix)%string
             /\ (suffix = ""
                 \/ exists digits,
                      suffix = String "_" digits
                      /\ JsString.allDigits1 digits = true)).
  { induction s as [|c s IH]; cbn [JsString.stripSetIndex].
    - exists "". split; [reflexivity | now left].
    - destruct (Ascii.eqb_spec c "_") as [->|Hc]; cbn [andb].
      + destruct (JsString.allDigits1 s) eqn:Hd.
        * exists (String "_" s). split; [reflexivity|]. right. now exists s.
        * destruct IH as (suffix & Heq & Hs). exists suffix.
          split; [cbn [String.append]; congruence | exact Hs].
      + destruct IH as (suffix & Heq & Hs). exists suffix.
        split; [cbn [String.append]; congruence | exact Hs]. }
  split; [exact Hcut|]. split.
  - intros Hsame base digits Hd Heq.
    pose proof (@stripSetIndex_suffix base digits Hd) as Hb.
    rewrite <- Heq, Hsame in Hb.
    apply (f_equal String.length) in Heq. rewrite Hb in Heq at 1.
    rewrite string_length_append in Heq. cbn [String.length] in Heq. lia.
  - intros Hno. destruct Hcut as (suffix & Heq & [->|(digits & -> & Hd)]).
    + now rewrite string_append_nil_r in Heq.
    + exfalso. exact (Hno _ _ Hd Heq).
Qed.

Section DefaultPolicy.

Context `{Collaborators}.

(** The two tables side by side: on one of the six keys the value is a
    constructor call of the type; on any other key both tables give the
    same inherited member, if there is one. *)
Lemma tables_agree (key : string) :
  (In key ["positionMC"; "normal"; "tangent"; "texCoord"; "joints"; "weights"]
   /\ exists glslType arguments,
        attributeTypeLUT key = Some glslType
        /\ attributeDefaultValueLUT key
           = Some (glslType ++ "(" ++ arguments ++ ")")%string)
  \/ (~ In key
          ["positionMC"; "normal"; "tangent"; "texCoord"; "joints"; "weights"]
      /\ attributeTypeLUT key = inheritedMember key
      /\ attributeDefaultValueLUT key = inheritedMember key).
Proof.
  unfold attributeTypeLUT, attributeDefaultValueLUT. cbn [In].
  destruct (String.eqb_spec key "positionMC") as [->|E1];
    [left; split; [auto 10|]; exists "vec3", "0.0"; split; reflexivity|].
  destruct (String.eqb_spec key "normal") as [->|E2];
    [left; split; [auto 10|]; exists "vec3", "0.0, 0.0, 1.0";
     split; reflexivity|].
  destruct (String.eqb_spec key "tangent") as [->|E3];
    [left; split; [auto 10|]; exists "vec4", "1.0, 0.0, 0.0, 1.0";
     split; reflexivity|].
  destruct (String.eqb_spec key "texCoord") as [->|E4];
    [left; split; [auto 10|]; exists "vec2", "0.0"; split; reflexivity|].
  destruct (String.eqb_spec key "joints") as [->|E5];
    [left; split; [auto 10|]; exists "ivec4", "0"; split; reflexivity|].
  destruct (String.eqb_spec key "weights") as [->|E6];
    [left; split; [auto 10|]; exists "vec4", "0.0"; split; reflexivity|].
  right. split; [|split; reflexivity].
  intros [Hk|[Hk|[Hk|[Hk|[Hk|[Hk|[]]]]]]]; congruence.
Qed.

(** X5. An inferred default keeps the full attribute name, set index
    included, as the name of its field, and its value is always defined.
    Type and value depend on the trimmed name alone. When the trimmed name
    is one of the six keys of the table, the value is a constructor call of
    the field's GLSL type. Otherwise the trimmed name is a member the
    tables inherit from [Object.prototype], and that member is both the type
    and the value. *)
Theorem inferAttributeDefaults_well_typed (n : string) (d : AttributeDefaults) :
  inferAttributeDefaults n = Some d ->
  snd (attributeField d) = n
  /\ attributeTypeLUT (JsString.stripSetIndex n)
     = Some (fst (attributeField d))
  /\ value d = attributeDefaultValueLUT (JsString.stripSetIndex n)
  /\ value d <> None
  /\ (In (JsString.stripSetIndex n)
        ["positionMC"; "normal"; "tangent"; "texCoord"; "joints"; "weights"] ->
      exists arguments,
        value d
        = Some (fst (attributeField d) ++ "(" ++ arguments ++ ")")%string)
  /\ (~ In (JsString.stripSetIndex n)
          ["positionMC"; "normal"; "tangent"; "texCoord"; "joints";
           "weights"] ->
      In (JsString.stripSetIndex n) objectPrototypeNames
      /\ fst (attributeField d) = memberText (JsString.stripSetIndex n)
      /\ value d = Some (fst (attributeField d))).
Proof.
  intros Hd. unfold inferAttributeDefaults in Hd.
  set (t := JsString.stripSetIndex n) in *.
  destruct (attributeTypeLUT t) as [glslType|] eqn:Et; [|discriminate].
  injection Hd as <-. cbn [attributeField value fst snd].
  split; [reflexivity|]. split; [reflexivity|]. split; [reflexivity|].
  destruct (tables_agree t)
    as [(Hin & ty & arguments & Hty & Hv) | (Hnot & Hty & Hv)].
  - rewrite Hty in Et. injection Et as ->. rewrite Hv.
    split; [discriminate|]. split; [|intros Hnot; contradiction].
    intros _. now exists arguments.
  - rewrite Hty in Et. rewrite Hv, Et.
    split; [discriminate|]. split; [intros Hin; contradiction|].
    intros _. rewrite inheritedMember_spec in Et.
    destruct (existsb (String.eqb t) objectPrototypeNames) eqn:Ex;
      [|discriminate].
    injection Et as <-. split; [|split; reflexivity].
    apply existsb_exists in Ex. destruct Ex as (k & Hk & Heq).
    apply String.eqb_eq in Heq. now subst k.
Qed.

End DefaultPolicy.

Section BuiltinProperties.

Context `{Collaborators}.

(** X6. The position builtins are read off the fragment position set by
    membership alone: whatever else the set holds and in whatever order,
    the fields are the used ones of positionMC, positionWC and positionEC in
    that fixed order, each a [vec3], with one copying line each. *)
Theorem generatePositionBuiltins_fixed_order (cs : CustomShader) :
  let present :=
    filter
      (JsObject.hasOwnProperty (positionSet (usedVariablesFragment cs)))
      positionBuiltinNames in
  pb_fragmentInputFields (generatePositionBuiltins cs)
  = map (fun p => ("vec3", p)) present
  /\ pb_initializationLines (generatePositionBuiltins cs)
     = map (fun p => ("fsInput." ++ p ++ " = attributes." ++ p ++ ";")%string)
         present.
Proof.
  unfold generatePositionBuiltins, positionBuiltinNames. cbn [filter].
  destruct (JsObject.hasOwnProperty _ "positionMC");
    destruct (JsObject.hasOwnProperty _ "positionWC");
    destruct (JsObject.hasOwnProperty _ "positionEC");
    split; reflexivity.
Qed.

End BuiltinProperties.

(* ===================================================================== *)
(** * Further properties: the pipeline stage *)
(* ===================================================================== *)

Lemma filter_map_none (A B : Type) (p : B -> bool) (f : A -> B) (l : list A) :
  (forall x, p (f x) = false) -> filter p (map f l) = [].
Proof.
  intros Hp. induction l as [|x l IH]; cbn [map filter]; [reflexivity|].
  now rewrite Hp.
Qed.

Lemma filter_map_all (A B : Type) (p : B -> bool) (f : A -> B) (l : list A) :
  (forall x, p (f x) = true) -> filter p (map f l) = map f l.
Proof.
  intros Hp. induction l as [|x l IH]; cbn [map filter]; [reflexivity|].
  rewrite Hp. now f_equal.
Qed.

Lemma find_none_all (A : Type) (f : A -> bool) (l : list A) :
  (forall x, In x l -> f x = false) -> find f l = None.
Proof.
  induction l as [|x l IH]; cbn [find]; intros Hall; [reflexivity|].
  rewrite (Hall x) by now left. apply IH. intros y Hy. apply Hall. now right.
Qed.

Lemma find_ext_in (A : Type) (f g : A -> bool) (l : list A) :
  (forall x, In x l -> f x = g x) -> find f l = find g l.
Proof.
  induction l as [|x l IH]; cbn [find]; intros Hfg; [reflexivity|].
  rewrite (Hfg x) by now left. destruct (g x); [reflexivity|].
  apply IH. intros y Hy. apply Hfg. now right.
Qed.

Section StageProperties.

Context `{Collaborators}.

(** X7. The code [generateShaderLines] returns is ready to be committed:
    a stage it left enabled has the arrays the emitters read
    ([attributeFields] and [initializationLines], and [fragmentInputFields]
    for the fragment stage), a stage it left disabled has none of them, and
    [addLinesToShader] run on that code returns normally, never reading the
    length of an undefined array. *)
Theorem generated_code_is_ready_to_commit cs primitive w g w1 :
  generateShaderLines cs primitive w = (Returned g, w1) ->
  (forall st,
      (enabled (stageLines g st) = true ->
       attributeFields (stageLines g st) <> None
       /\ initializationLines (stageLines g st) <> None
       /\ (st = FragmentStage ->
           fragmentInputFields (stageLines g st) <> None))
      /\ (enabled (stageLines g st) = false ->
          stageLines g st = disabledLines))
  /\ forall w2, exists calls,
       addLinesToShader cs g w2 = (Returned tt, emit calls w2).
Proof.
  intros Hg. rewrite generateShaderLines_closed in Hg.
  injection Hg as <- _.
  set (catalog := getAttributeNames (attributes primitive)).
  assert (Hlines : forall st,
             stageLines (generated cs primitive) st
             = generatedLines catalog cs st)
    by (intros st; destruct st; reflexivity).
  split.
  - intros st. rewrite Hlines. split.
    + apply generatedLines_complete.
    + unfold generatedLines.
      destruct (stageSucceeds catalog cs st); [|reflexivity].
      destruct st; discriminate.
  - intros w2. exists (emission cs (generated cs primitive)).
    apply addLinesToShader_closed.
    + apply (generatedLines_complete catalog cs VertexStage).
    + apply (generatedLines_complete catalog cs FragmentStage).
Qed.

(** X8. The two emitters return normally exactly when the arrays they
    read are defined: [attributeFields] and [initializationLines], and for
    the fragment stage [fragmentInputFields] too. Otherwise they throw a
    [TypeError], and not before calls have reached the shader builder: with
    [attributeFields] undefined the Attributes struct is declared already
    when they throw. *)
Theorem emitters_throw_on_undefined_fields (lines : StageLines) w :
  (fst (addVertexLinesToShader lines w) = Returned tt
   <-> attributeFields lines <> None /\ initializationLines lines <> None)
  /\ (fst (addFragmentLinesToShader lines w) = Returned tt
      <-> attributeFields lines <> None
          /\ fragmentInputFields lines <> None
          /\ initializationLines lines <> None)
  /\ (attributeFields lines = None ->
      addVertexLinesToShader lines w
      = (Thrown TypeError,
         emit [addStruct "AttributesVS" "Attributes" VERTEX] w)
      /\ addFragmentLinesToShader lines w
         = (Thrown TypeError,
            emit [addStruct "AttributesFS" "Attributes" FRAGMENT] w)).
Proof.
  destruct lines as [e fields inputs inits].
  unfold addVertexLinesToShader, addFragmentLinesToShader.
  cbn [attributeFields fragmentInputFields initializationLines].
  split; [|split].
  - destruct fields as [fs|], inits as [ls|];
      repeat
        (erewrite bind_returned
           by first [ apply shaderBuilderCall_run
                    | apply forEach_calls
                    | reflexivity ]);
      rewrite ?forEach_calls; unfold bind, arrayOf, throw; cbn [fst];
      (split; [intros Hr | intros [Hf Hl]]);
      try discriminate; try congruence; split; discriminate.
  - destruct fields as [fs|], inputs as [fi|], inits as [ls|];
      repeat
        (erewrite bind_returned
           by first [ apply shaderBuilderCall_run
                    | apply forEach_calls
                    | reflexivity ]);
      rewrite ?forEach_calls; unfold bind, arrayOf, throw; cbn [fst];
      (split; [intros Hr | intros (Hf & Hi & Hl)]);
      try discriminate; try congruence; repeat split; discriminate.
  - intros ->. split; reflexivity.
Qed.

Lemma stageText_withPositionSet cs ps st :
  stageText (withPositionSet cs ps) st = stageText cs st.
Proof. destruct st; reflexivity. Qed.

Lemma stageAttributeSet_withPositionSet cs ps st :
  stageAttributeSet (withPositionSet cs ps) st = stageAttributeSet cs st.
Proof. destruct st; reflexivity. Qed.

(** X9. The fragment position set has no part in the reconciliation: with
    any other position set the same warnings are given, the vertex lines
    are the same, the fragment stage is enabled or not as before, and its
    attribute fields are the same. A position builtin can therefore never
    disable a stage. *)
Theorem positionSet_never_disables cs ps primitive w :
  exists g g' ws,
    generateShaderLines cs primitive w = (Returned g, warn ws w)
    /\ generateShaderLines (withPositionSet cs ps) primitive w
       = (Returned g', warn ws w)
    /\ vertexLines g' = vertexLines g
    /\ enabled (fragmentLines g') = enabled (fragmentLines g)
    /\ attributeFields (fragmentLines g') = attributeFields (fragmentLines g)
    /\ customShaderEnabled g' = customShaderEnabled g.
Proof.
  exists (generated cs primitive),
    (generated (withPositionSet cs ps) primitive),
    (generationWarnings cs primitive).
  split; [apply generateShaderLines_closed|].
  split.
  { rewrite generateShaderLines_closed.
    change (generationWarnings (withPositionSet cs ps) primitive)
      with (generationWarnings cs primitive).
    reflexivity. }
  set (catalog := getAttributeNames (attributes primitive)).
  assert (Hv : generatedLines catalog (withPositionSet cs ps) VertexStage
               = generatedLines catalog cs VertexStage) by reflexivity.
  assert (He : enabled
                 (generatedLines catalog (withPositionSet cs ps)
                    FragmentStage)
               = enabled (generatedLines catalog cs FragmentStage)).
  { unfold generatedLines.
    change (stageSucceeds catalog (withPositionSet cs ps) FragmentStage)
      with (stageSucceeds catalog cs FragmentStage).
    destruct (stageSucceeds catalog cs FragmentStage); reflexivity. }
  cbn [generated vertexLines fragmentLines customShaderEnabled].
  fold catalog. rewrite Hv, He.
  repeat split.
  unfold generatedLines.
  change (stageSucceeds catalog (withPositionSet cs ps) FragmentStage)
    with (stageSucceeds catalog cs FragmentStage).
  destruct (stageSucceeds catalog cs FragmentStage); reflexivity.
Qed.

(** X10. One run gives at most one warning per stage, the vertex stage's
    first. Every warning names an attribute of that stage's used set that
    the catalog lacks and the policy cannot infer, and a stage is silent
    exactly when it has no source text or meets no such attribute. *)
Theorem warnings_of_one_run primitive frameState w :
  let cs := rr_customShader (renderResources w) in
  let catalog := getAttributeNames (attributes primitive) in
  exists w' vs fs,
    process primitive frameState w = (Returned tt, w')
    /\ warnings w' = warnings w ++ vs ++ fs
    /\ stageReport catalog cs VertexStage vs
    /\ stageReport catalog cs FragmentStage fs.
Proof.
  intros cs catalog.
  exists (processed primitive w),
    (stageWarnings catalog cs VertexStage),
    (stageWarnings catalog cs FragmentStage).
  split; [apply process_closed|].
  split; [apply processed_warnings|].
  assert (Hst : forall st,
             stageReport catalog cs st (stageWarnings catalog cs st)).
  { intros st. unfold stageReport, stageWarnings.
    destruct (stageText cs st) as [t|] eqn:Ht; cbn [isDefined].
    - destruct (firstUnresolvable catalog cs st) as [n|] eqn:Hf.
      + split; [cbn; lia|]. split.
        * intros x [<-|[]]. exists n. split; [reflexivity|].
          split; [discriminate|]. now apply find_some in Hf.
        * split; [discriminate | intros [?|?]; discriminate].
      + split; [cbn; lia|]. split; [intros x []|].
        split; auto.
    - split; [cbn; lia|]. split; [intros x []|]. split; auto. }
  split; apply Hst.
Qed.

(** X11. When neither stage ends enabled, [process] leaves the render
    resources exactly as they were (shader builder, lighting options, alpha
    options and uniform map), also when source texts are present and the
    failure has been warned about. *)
Theorem disabled_shader_leaves_resources primitive frameState w g w1 :
  let cs := rr_customShader (renderResources w) in
  generateShaderLines cs primitive w = (Returned g, w1) ->
  customShaderEnabled g = false ->
  exists w',
    process primitive frameState w = (Returned tt, w')
    /\ renderResources w' = renderResources w
    /\ warnings w' = warnings w1.
Proof.
  intros cs Hg Hd. rewrite generateShaderLines_closed in Hg.
  injection Hg as <- <-.
  exists (processed primitive w).
  split; [apply process_closed|].
  rewrite (processed_disabled primitive w Hd). split; reflexivity.
Qed.

(** X12. When custom shading is enabled, a lighting model of the custom
    shader replaces the lighting model of the render resources, and a
    shader without one leaves it as the earlier stages chose it. *)
Theorem lightingModel_overrides_material primitive frameState w g w1 :
  let cs := rr_customShader (renderResources w) in
  generateShaderLines cs primitive w = (Returned g, w1) ->
  customShaderEnabled g = true ->
  exists w',
    process primitive frameState w = (Returned tt, w')
    /\ lo_lightingModel (lightingOptions (renderResources w'))
       = match lightingModel cs with
         | Some m => m
         | None => lo_lightingModel (lightingOptions (renderResources w))
         end.
Proof.
  intros cs Hg He. rewrite generateShaderLines_closed in Hg.
  injection Hg as <- _.
  exists (processed primitive w).
  split; [apply process_closed|].
  rewrite (processed_enabled primitive w He).
  cbn [committed lightingOptions]. fold cs.
  destruct (lightingModel cs); reflexivity.
Qed.

End StageProperties.

(* ===================================================================== *)
(** * Further properties: what reaches the shader builder *)
(* ===================================================================== *)

Lemma forallb_map_all (A B : Type) (p : B -> bool) (f : A -> B)
    (l : list A) :
  (forall x, p (f x) = true) -> forallb p (map f l) = true.
Proof.
  intros Hp. induction l as [|x l IH]; cbn [map forallb]; [reflexivity|].
  now rewrite Hp.
Qed.

Section EmissionProperties.

Context `{Collaborators}.

Lemma stageEmission_sourceLines cs st st' lines :
  filter (isSourceLines st) (stageEmission cs st' lines)
  = match st, st' with
    | VertexStage, VertexStage | FragmentStage, FragmentStage =>
        [sourceLinesCall cs st]
    | _, _ => []
    end.
Proof.
  destruct st, st'; unfold stageEmission, structFields, functionLines;
    rewrite !filter_app;
    rewrite !filter_map_none by (intros; reflexivity);
    reflexivity.
Qed.

Lemma defines_sourceLines cs g st :
  filter (isSourceLines st) (defines cs g) = [].
Proof.
  unfold defines.
  destruct (shouldComputePositionWC g), (isDefined (vertexShaderText cs)),
    (isDefined (fragmentShaderText cs)), st; reflexivity.
Qed.

Lemma declarations_sourceLines cs st :
  filter (isSourceLines st) (declarations cs) = [].
Proof.
  unfold declarations. rewrite filter_app.
  rewrite !filter_map_none by (intros; destruct st; reflexivity).
  reflexivity.
Qed.

Lemma enabled_stage_has_text cs primitive st :
  enabled (stageLines (generated cs primitive) st) = true ->
  stageText cs st <> None
  /\ customShaderEnabled (generated cs primitive) = true.
Proof.
  intros He. split.
  - rewrite generated_enabled in He. unfold stageSucceeds in He.
    destruct (stageText cs st); [discriminate|discriminate].
  - cbn [generated customShaderEnabled].
    destruct st; cbn [generated stageLines vertexLines fragmentLines] in He;
      rewrite He; [reflexivity | apply orb_true_r].
Qed.

(** X13. The user's source text of a stage reaches the shader builder once
    when the stage ends enabled, as the middle line between the marker
    [#line 0] and the stage's epilogue, and not at all otherwise; when it is
    appended it is defined. *)
Theorem user_text_appended_once primitive frameState w :
  let cs := rr_customShader (renderResources w) in
  exists g w1 w' calls,
    generateShaderLines cs primitive w = (Returned g, w1)
    /\ process primitive frameState w = (Returned tt, w')
    /\ shaderBuilder (renderResources w')
       = shaderBuilder (renderResources w) ++ calls
    /\ forall st,
         filter (isSourceLines st) calls
         = (if enabled (stageLines g st) then [sourceLinesCall cs st] else [])
         /\ (enabled (stageLines g st) = true -> stageText cs st <> None).
Proof.
  intros cs.
  exists (generated cs primitive),
    (warn (generationWarnings cs primitive) w),
    (processed primitive w), (newCalls cs (generated cs primitive)).
  split; [apply generateShaderLines_closed|].
  split; [apply process_closed|].
  split; [apply processed_shaderBuilder|].
  intros st. split; [|intros He; now apply enabled_stage_has_text in He].
  set (g := generated cs primitive).
  destruct (enabled (stageLines g st)) eqn:He.
  - destruct (enabled_stage_has_text cs primitive st He) as [_ Hc].
    unfold newCalls. fold g in Hc. rewrite Hc.
    rewrite !filter_app, defines_sourceLines, declarations_sourceLines.
    rewrite !app_nil_r. unfold emission. rewrite filter_app.
    destruct st; cbn [stageLines] in He; rewrite He;
      rewrite stageEmission_sourceLines.
    + destruct (enabled (fragmentLines g));
        [rewrite stageEmission_sourceLines|]; reflexivity.
    + destruct (enabled (vertexLines g));
        [rewrite stageEmission_sourceLines|]; reflexivity.
  - unfold newCalls. destruct (customShaderEnabled g); [|reflexivity].
    rewrite !filter_app, defines_sourceLines, declarations_sourceLines.
    rewrite !app_nil_r. unfold emission. rewrite filter_app.
    destruct st; cbn [stageLines] in He; rewrite He; cbn [filter app].
    + destruct (enabled (fragmentLines g));
        [rewrite stageEmission_sourceLines|]; reflexivity.
    + destruct (enabled (vertexLines g));
        [rewrite stageEmission_sourceLines|]; rewrite ?app_nil_r;
        reflexivity.
Qed.

Lemma emission_no_declaration cs g :
  forallb (fun c => negb (isDeclaration c)) (emission cs g ++ defines cs g)
  = true.
Proof.
  rewrite forallb_app. apply andb_true_iff. split.
  - unfold emission. rewrite forallb_app.
    apply andb_true_iff.
    split;
      match goal with
      | |- forallb _ (if ?b then _ else _) = true => destruct b
      end; try reflexivity;
      unfold stageEmission, structFields, functionLines;
      rewrite !forallb_app;
      rewrite !forallb_map_all by (intros; reflexivity);
      reflexivity.
  - unfold defines.
    destruct (shouldComputePositionWC g), (isDefined (vertexShaderText cs)),
      (isDefined (fragmentShaderText cs)); reflexivity.
Qed.

(** X14. When custom shading is enabled, [process] declares every uniform
    of the custom shader with its type and then every varying, each once
    and in the iteration order of the two objects, and these are the only
    declarations and the last calls of the run. *)
Theorem uniforms_and_varyings_declared primitive frameState w g w1 :
  let cs := rr_customShader (renderResources w) in
  generateShaderLines cs primitive w = (Returned g, w1) ->
  customShaderEnabled g = true ->
  exists w' before,
    process primitive frameState w = (Returned tt, w')
    /\ shaderBuilder (renderResources w')
       = shaderBuilder (renderResources w)
         ++ before
         ++ map (fun kv => addUniform (uniformType (snd kv)) (fst kv))
              (uniforms cs)
         ++ map (fun kv => addVarying (snd kv) (fst kv)) (varyings cs)
    /\ forallb (fun c => negb (isDeclaration c)) before = true.
Proof.
  intros cs Hg He. rewrite generateShaderLines_closed in Hg.
  injection Hg as <- _.
  exists (processed primitive w),
    (emission cs (generated cs primitive)
     ++ defines cs (generated cs primitive)).
  split; [apply process_closed|].
  split.
  - rewrite processed_shaderBuilder. fold cs. unfold newCalls.
    rewrite He. unfold declarations. now rewrite <- !app_assoc.
  - apply emission_no_declaration.
Qed.

End EmissionProperties.

Section FieldProperties.

Context `{Collaborators}.

Lemma positionBuiltins_closed (cs : CustomShader) :
  pb_fragmentInputFields (generatePositionBuiltins cs)
  = map (fun p => ("vec3", p))
      (filter
         (JsObject.hasOwnProperty (positionSet (usedVariablesFragment cs)))
         positionBuiltinNames)
  /\ length (pb_initializationLines (generatePositionBuiltins cs))
     = length (pb_fragmentInputFields (generatePositionBuiltins cs)).
Proof.
  unfold generatePositionBuiltins, positionBuiltinNames. cbn [filter].
  destruct (JsObject.hasOwnProperty _ "positionMC");
    destruct (JsObject.hasOwnProperty _ "positionWC");
    destruct (JsObject.hasOwnProperty _ "positionEC");
    split; reflexivity.
Qed.

Lemma enabled_lines_successful cs primitive st :
  enabled (stageLines (generated cs primitive) st) = true ->
  stageLines (generated cs primitive) st
  = successfulLines (getAttributeNames (attributes primitive)) cs st
  /\ stageSucceeds (getAttributeNames (attributes primitive)) cs st = true.
Proof.
  intros He. rewrite generated_enabled in He. split; [|exact He].
  destruct st; cbn [generated stageLines vertexLines fragmentLines];
    now apply stageSucceeds_generated.
Qed.

(** X15. When the fragment stage ends enabled, the FragmentInput struct
    that [process] emits has the member [attributes] followed by one [vec3]
    member for each position builtin the shader uses, in the order
    positionMC, positionWC, positionEC, and no other member. *)
Theorem position_builtins_are_input_members primitive frameState w g w1 :
  let cs := rr_customShader (renderResources w) in
  generateShaderLines cs primitive w = (Returned g, w1) ->
  enabled (fragmentLines g) = true ->
  exists w' calls,
    process primitive frameState w = (Returned tt, w')
    /\ shaderBuilder (renderResources w')
       = shaderBuilder (renderResources w) ++ calls
    /\ filter (isFieldOf "FragmentInput") calls
       = addStructField "FragmentInput" "Attributes" "attributes"
         :: map (fun p => addStructField "FragmentInput" "vec3" p)
              (filter
                 (JsObject.hasOwnProperty
                    (positionSet (usedVariablesFragment cs)))
                 positionBuiltinNames).
Proof.
  intros cs Hg He. rewrite generateShaderLines_closed in Hg.
  injection Hg as <- _.
  set (g := generated cs primitive) in *.
  destruct (enabled_lines_successful cs primitive FragmentStage He)
    as [Hlines _].
  destruct (enabled_stage_has_text cs primitive FragmentStage He)
    as [_ Hc].
  cbn [stageLines] in Hlines. fold g in Hlines, Hc.
  exists (processed primitive w), (newCalls cs g).
  split; [apply process_closed|].
  split; [apply processed_shaderBuilder|].
  unfold newCalls. rewrite Hc. unfold emission. rewrite He.
  rewrite !filter_app.
  assert (Hv : filter (isFieldOf "FragmentInput")
                 (if enabled (vertexLines g)
                  then stageEmission cs VertexStage (vertexLines g)
                  else []) = []).
  { destruct (enabled (vertexLines g)); [|reflexivity].
    unfold stageEmission, structFields, functionLines.
    rewrite !filter_app.
    rewrite !filter_map_none by (intros; reflexivity). reflexivity. }
  assert (Hd : filter (isFieldOf "FragmentInput") (defines cs g) = []).
  { unfold defines.
    destruct (shouldComputePositionWC g), (isDefined (vertexShaderText cs)),
      (isDefined (fragmentShaderText cs)); reflexivity. }
  assert (Hu : filter (isFieldOf "FragmentInput") (declarations cs) = []).
  { unfold declarations. rewrite filter_app.
    rewrite !filter_map_none by (intros; reflexivity). reflexivity. }
  rewrite Hv, Hd, Hu, !app_nil_r. cbn [app].
  rewrite Hlines. unfold successfulLines, stageEmission.
  cbn [attributeFields fragmentInputFields initializationLines listOf].
  unfold structFields, functionLines.
  rewrite !filter_app.
  rewrite (filter_map_none (isFieldOf "FragmentInput")
             (fun field => addStructField "AttributesFS" (fst field)
                             (snd field))) by (intros; reflexivity).
  rewrite (filter_map_all (isFieldOf "FragmentInput")
             (fun field => addStructField "FragmentInput" (fst field)
                             (snd field))) by (intros; reflexivity).
  rewrite (filter_map_none (isFieldOf "FragmentInput")
             (addFunctionLine "initializeInputStructFS"))
    by (intros; reflexivity).
  rewrite (proj1 (positionBuiltins_closed cs)), map_map.
  set (present := filter _ positionBuiltinNames).
  cbn [filter isFieldOf String.eqb Ascii.eqb Bool.eqb app fst snd].
  rewrite ?app_nil_r. reflexivity.
Qed.

Lemma keys_filter (V : Type) (p : string -> bool) (o : JsObject.t V) :
  JsObject.keys (filter (fun kv => p (fst kv)) o)
  = filter p (JsObject.keys o).
Proof.
  unfold JsObject.keys.
  induction o as [|[k v] rest IH]; cbn [filter map fst]; [reflexivity|].
  destruct (p k); cbn [map fst]; now rewrite IH.
Qed.

Lemma presentFields_names (present : JsObject.t Attribute) :
  map snd (presentFields present) = JsObject.keys present.
Proof.
  unfold presentFields, JsObject.keys. rewrite map_map. reflexivity.
Qed.

Lemma inferred_names (input : string) (missing : list string) :
  (forall n, In n missing -> inferable n = true) ->
  map snd (inferredFields missing) = missing
  /\ length (inferredLines input missing) = length missing
  /\ forall n, In n missing ->
       exists rhs,
         In (input ++ ".attributes." ++ n ++ " = " ++ rhs ++ ";")%string
           (inferredLines input missing).
Proof.
  induction missing as [|m rest IH]; intros Hall.
  - repeat split; try reflexivity. intros n [].
  - destruct IH as (IH1 & IH2 & IH3);
      [intros n Hn; apply Hall; now right|].
    pose proof (Hall m (or_introl eq_refl)) as Hm. unfold inferable in Hm.
    cbn [inferredFields inferredLines flat_map].
    destruct (inferAttributeDefaults m) as [d|] eqn:Hd; [|discriminate].
    assert (Hname : snd (attributeField d) = m).
    { unfold inferAttributeDefaults in Hd.
      destruct (attributeTypeLUT (JsString.stripSetIndex m));
        [|discriminate].
      now injection Hd as <-. }
    cbn [app map length].
    fold (inferredFields rest). fold (inferredLines input rest).
    rewrite IH1, IH2, Hname. repeat split.
    intros n [<-|Hn].
    + exists (JsString.ofValue (value d)). now left.
    + destruct (IH3 n Hn) as (rhs & Hrhs). exists rhs. now right.
Qed.

Lemma missing_all_inferable catalog cs st :
  firstUnresolvable catalog cs st = None ->
  forall n,
    In n (missingAttributes
            (partitionAttributes catalog (stageAttributeSet cs st))) ->
    inferable n = true.
Proof.
  intros Hf n Hn. unfold firstUnresolvable in Hf.
  rewrite <- find_missing in Hf.
  pose proof (find_none _ _ Hf n Hn) as Hx. cbn beta in Hx.
  now apply negb_false_iff in Hx.
Qed.

(** X16. When a stage ends enabled and its used set is an object, its
    Attributes struct has exactly one field for every used attribute: first
    the ones the primitive has, in the order of the catalog, then the
    inferred ones, in the order of the used set; no name occurs twice, and
    the initialization function assigns every one of these fields (after
    the position builtins, in the fragment stage). *)
Theorem every_used_attribute_gets_one_field cs primitive w g w1 st :
  let catalog := getAttributeNames (attributes primitive) in
  let used := stageAttributeSet cs st in
  generateShaderLines cs primitive w = (Returned g, w1) ->
  enabled (stageLines g st) = true ->
  NoDup (JsObject.keys used) ->
  exists fields lines,
    attributeFields (stageLines g st) = Some fields
    /\ initializationLines (stageLines g st) = Some lines
    /\ map snd fields
       = filter (JsObject.hasOwnProperty used) (JsObject.keys catalog)
         ++ filter (fun n => negb (JsObject.hasOwnProperty catalog n))
              (JsObject.keys used)
    /\ NoDup (map snd fields)
    /\ (forall n, In n (map snd fields) <-> In n (JsObject.keys used))
    /\ length lines
       = length fields
         + match st with
           | VertexStage => 0
           | FragmentStage =>
               length (pb_fragmentInputFields (generatePositionBuiltins cs))
           end
    /\ forall n, In n (JsObject.keys used) ->
         exists rhs,
           In (inputName st ++ ".attributes." ++ n ++ " = " ++ rhs ++ ";")%string
             lines.
Proof.
  intros catalog used Hg He Hnd.
  rewrite generateShaderLines_closed in Hg. injection Hg as <- _.
  destruct (enabled_lines_successful cs primitive st He) as [Hlines Hs].
  fold catalog in Hlines, Hs.
  assert (Hfirst : firstUnresolvable catalog cs st = None).
  { unfold stageSucceeds in Hs. apply andb_true_iff in Hs.
    destruct Hs as [_ Hs].
    destruct (firstUnresolvable catalog cs st); [discriminate|reflexivity]. }
  set (categories := partitionAttributes catalog used).
  assert (Hwf : wellFormed catalog) by apply getAttributeNames_wellFormed.
  assert (Hpresent : JsObject.keys (addToShader categories)
                     = filter (JsObject.hasOwnProperty used)
                         (JsObject.keys catalog)).
  { subst categories. rewrite (addToShader_filter _ Hwf).
    apply keys_filter. }
  assert (Hmissing : missingAttributes categories
                     = filter
                         (fun n => negb (JsObject.hasOwnProperty catalog n))
                         (JsObject.keys used))
    by apply missingAttributes_filter.
  assert (Hinf : forall n, In n (missingAttributes categories) ->
                           inferable n = true)
    by exact (missing_all_inferable catalog cs st Hfirst).
  destruct (@inferred_names (inputName st) (missingAttributes categories)
              Hinf) as (Hin & Hil & Hir).
  set (fields := presentFields (addToShader categories)
                 ++ inferredFields (missingAttributes categories)).
  set (attributeLines :=
         presentLines (inputName st) (addToShader categories)
         ++ inferredLines (inputName st) (missingAttributes categories)).
  assert (Hnames : map snd fields
                   = filter (JsObject.hasOwnProperty used)
                       (JsObject.keys catalog)
                     ++ filter
                          (fun n =>
                             negb (JsObject.hasOwnProperty catalog n))
                          (JsObject.keys used)).
  { subst fields. rewrite map_app, presentFields_names.
    rewrite <- Hmissing, <- Hpresent. f_equal. exact Hin. }
  assert (Hlen : length attributeLines = length fields).
  { subst attributeLines fields. rewrite !length_app, Hil.
    unfold presentLines, presentFields. rewrite !length_map.
    pose proof (f_equal (@length string) Hin) as Hcount.
    rewrite length_map in Hcount. f_equal. symmetry. exact Hcount. }
  assert (Hassign : forall n, In n (JsObject.keys used) ->
            exists rhs,
              In (inputName st ++ ".attributes." ++ n ++ " = " ++ rhs
                  ++ ";")%string attributeLines).
  { intros n Hn.
    destruct (JsObject.hasOwnProperty catalog n) eqn:Hc.
    - exists ("attributes." ++ n)%string. apply in_or_app. left.
      assert (Hk : In n (JsObject.keys (addToShader categories))).
      { rewrite Hpresent. apply filter_In. split.
        - now apply JsObjectFacts.hasOwnProperty_In.
        - now apply JsObjectFacts.hasOwnProperty_In. }
      unfold JsObject.keys in Hk. apply in_map_iff in Hk.
      destruct Hk as ([k a] & Hk & Hka). cbn [fst] in Hk. subst k.
      unfold presentLines.
      apply (in_map (fun kv => copyLine (inputName st) (fst kv))) in Hka.
      exact Hka.
    - destruct (Hir n) as (rhs & Hrhs).
      + rewrite Hmissing. apply filter_In. split; [exact Hn|].
        now rewrite Hc.
      + exists rhs. apply in_or_app. now right. }
  exists fields.
  exists (match st with
          | VertexStage => attributeLines
          | FragmentStage =>
              pb_initializationLines (generatePositionBuiltins cs)
              ++ attributeLines
          end).
  split; [rewrite Hlines; destruct st; reflexivity|].
  split; [rewrite Hlines; destruct st; reflexivity|].
  split; [exact Hnames|].
  split.
  { rewrite Hnames. apply NoDup_app.
    - apply NoDup_filter. now apply wellFormed_NoDup.
    - now apply NoDup_filter.
    - intros n Hp Hm. apply filter_In in Hp, Hm.
      destruct Hp as [Hp _]. destruct Hm as [_ Hm].
      apply JsObjectFacts.hasOwnProperty_In in Hp.
      rewrite Hp in Hm. discriminate. }
  split.
  { intros n. rewrite Hnames, in_app_iff, !filter_In. split.
    - intros [[_ Hu]|[Hu _]]; [|exact Hu].
      now apply JsObjectFacts.hasOwnProperty_In.
    - intros Hu. destruct (JsObject.hasOwnProperty catalog n) eqn:Hc.
      + left. split; now apply JsObjectFacts.hasOwnProperty_In.
      + right. now split. }
  split.
  { destruct st; [lia|].
    rewrite length_app, Hlen, (proj2 (positionBuiltins_closed cs)). lia. }
  intros n Hn. destruct (Hassign n Hn) as (rhs & Hrhs).
  exists rhs. destruct st; [exact Hrhs | apply in_or_app; now right].
Qed.

End FieldProperties.

(* ===================================================================== *)
(** * Further properties: how generation depends on the primitive *)
(* ===================================================================== *)

Section PrimitiveProperties.

Context `{Collaborators}.

Lemma getAttributeNames_snoc (attrs : list Attribute) (a : Attribute) :
  getAttributeNames (attrs ++ [a])
  = JsObject.set (getAttributeNames attrs) (variableNameOf a) a.
Proof. rewrite !getAttributeNames_fold, fold_left_app. reflexivity. Qed.

Lemma getAttributeNames_grows (attrs more : list Attribute) (n : string) :
  JsObject.hasOwnProperty (getAttributeNames attrs) n = true ->
  JsObject.hasOwnProperty (getAttributeNames (attrs ++ more)) n = true.
Proof.
  rewrite !getAttributeNames_has. intros (a & Hin & Hn).
  exists a. split; [apply in_or_app; now left | exact Hn].
Qed.

(** An attribute under a name the stage does not use changes neither the
    partition nor the outcome of the stage. *)
Lemma unused_name_partition (catalog : JsObject.t Attribute)
    (used : JsObject.t bool) k a :
  wellFormed catalog ->
  JsObject.hasOwnProperty used k = false ->
  partitionAttributes (JsObject.set catalog k a) used
  = partitionAttributes catalog used
  /\ forall n, In n (JsObject.keys used) ->
       JsObject.hasOwnProperty (JsObject.set catalog k a) n
       = JsObject.hasOwnProperty catalog n.
Proof.
  intros Hwf Hk.
  assert (Hsame : forall n, In n (JsObject.keys used) ->
             JsObject.hasOwnProperty (JsObject.set catalog k a) n
             = JsObject.hasOwnProperty catalog n).
  { intros n Hn. rewrite JsObjectFacts.hasOwnProperty_set.
    destruct (String.eqb_spec n k) as [->|_]; [|reflexivity].
    apply JsObjectFacts.hasOwnProperty_In in Hn. congruence. }
  split; [|exact Hsame].
  assert (Ha : addToShader (partitionAttributes (JsObject.set catalog k a)
                              used)
               = addToShader (partitionAttributes catalog used)).
  { rewrite !addToShader_filter by (try apply wellFormed_set; exact Hwf).
    now apply filter_set_other. }
  assert (Hm : missingAttributes
                 (partitionAttributes (JsObject.set catalog k a) used)
               = missingAttributes (partitionAttributes catalog used)).
  { rewrite !missingAttributes_filter. apply filter_ext_in.
    intros n Hn. now rewrite Hsame. }
  destruct (partitionAttributes (JsObject.set catalog k a) used),
    (partitionAttributes catalog used).
  cbn [addToShader missingAttributes] in Ha, Hm. now subst.
Qed.

Lemma unused_name_stage (catalog : JsObject.t Attribute) cs st k a :
  wellFormed catalog ->
  JsObject.hasOwnProperty (stageAttributeSet cs st) k = false ->
  generatedLines (JsObject.set catalog k a) cs st
  = generatedLines catalog cs st
  /\ stageWarnings (JsObject.set catalog k a) cs st
     = stageWarnings catalog cs st.
Proof.
  intros Hwf Hk.
  destruct (@unused_name_partition catalog (stageAttributeSet cs st) k a
              Hwf Hk) as [Hp Hsame].
  assert (Hf : firstUnresolvable (JsObject.set catalog k a) cs st
               = firstUnresolvable catalog cs st).
  { unfold firstUnresolvable. apply find_ext_in. intros n Hn.
    unfold unresolvable. now rewrite (Hsame n Hn). }
  unfold generatedLines, stageSucceeds, stageWarnings, successfulLines.
  rewrite Hf, Hp. split; reflexivity.
Qed.

(** X17. An attribute of the primitive whose name neither stage uses is
    skipped: with it at the end of the attribute list, generation returns
    the same code and gives the same warnings as without it. *)
Theorem unused_attribute_is_skipped cs (attrs : list Attribute)
    (a : Attribute) w :
  JsObject.hasOwnProperty (attributeSet (usedVariablesVertex cs))
    (variableNameOf a) = false ->
  JsObject.hasOwnProperty (attributeSet (usedVariablesFragment cs))
    (variableNameOf a) = false ->
  generateShaderLines cs {| attributes := attrs ++ [a] |} w
  = generateShaderLines cs {| attributes := attrs |} w.
Proof.
  intros Hv Hf. rewrite !generateShaderLines_closed.
  unfold generated, generationWarnings. cbn [attributes].
  rewrite getAttributeNames_snoc.
  pose proof (getAttributeNames_wellFormed attrs) as Hwf.
  destruct (@unused_name_stage _ cs VertexStage _ a Hwf Hv) as [-> ->].
  destruct (@unused_name_stage _ cs FragmentStage _ a Hwf Hf) as [-> ->].
  reflexivity.
Qed.

(** X18. More attributes never disable a stage: a stage that ends enabled
    on a primitive ends enabled, without a warning, on every primitive that
    has further attributes after the same ones. *)
Theorem more_attributes_never_disable cs (attrs more : list Attribute)
    w g w1 st :
  generateShaderLines cs {| attributes := attrs |} w = (Returned g, w1) ->
  enabled (stageLines g st) = true ->
  exists g' w1' ws,
    generateShaderLines cs {| attributes := attrs ++ more |} w
    = (Returned g', w1')
    /\ enabled (stageLines g' st) = true
    /\ warnings w1' = warnings w ++ ws
    /\ filter (warnedBy st) ws = [].
Proof.
  intros Hg He. rewrite generateShaderLines_closed in Hg.
  injection Hg as <- _.
  rewrite generated_enabled in He. cbn [attributes] in He.
  set (catalog := getAttributeNames attrs) in *.
  set (catalog' := getAttributeNames (attrs ++ more)).
  assert (Hs : stageSucceeds catalog' cs st = true).
  { unfold stageSucceeds in *. apply andb_true_iff in He.
    destruct He as [Ht Hf]. rewrite Ht. cbn [andb].
    assert (Hnone : firstUnresolvable catalog' cs st = None).
    { unfold firstUnresolvable in *.
      destruct (find (unresolvable catalog) _) eqn:Hfind; [discriminate|].
      apply find_none_all. intros n Hn.
      pose proof (find_none _ _ Hfind n Hn) as Hu. unfold unresolvable in *.
      destruct (JsObject.hasOwnProperty catalog n) eqn:Hc.
      - unfold catalog'. now rewrite (getAttributeNames_grows attrs more n Hc).
      - cbn [negb andb] in Hu. rewrite Hu. apply andb_false_r. }
    now rewrite Hnone. }
  exists (generated cs {| attributes := attrs ++ more |}),
    (warn (generationWarnings cs {| attributes := attrs ++ more |}) w),
    (generationWarnings cs {| attributes := attrs ++ more |}).
  split; [apply generateShaderLines_closed|].
  split; [rewrite generated_enabled; exact Hs|].
  split; [reflexivity|].
  rewrite generationWarnings_filter. cbn [attributes]. fold catalog'.
  unfold stageWarnings. unfold stageSucceeds in Hs.
  apply andb_true_iff in Hs. destruct Hs as [Ht Hf]. rewrite Ht.
  destruct (firstUnresolvable catalog' cs st); [discriminate|reflexivity].
Qed.

(** X19. A stage with source text that uses no attribute ends enabled on
    every primitive, without a warning and with an empty Attributes struct;
    its initialization lines are the position builtins' alone (none, in the
    vertex stage). *)
Theorem stage_without_attributes_succeeds cs primitive w st :
  stageText cs st <> None ->
  stageAttributeSet cs st = [] ->
  exists g w1 ws,
    generateShaderLines cs primitive w = (Returned g, w1)
    /\ enabled (stageLines g st) = true
    /\ attributeFields (stageLines g st) = Some []
    /\ initializationLines (stageLines g st)
       = Some match st with
              | VertexStage => []
              | FragmentStage =>
                  pb_initializationLines (generatePositionBuiltins cs)
              end
    /\ warnings w1 = warnings w ++ ws
    /\ filter (warnedBy st) ws = [].
Proof.
  intros Ht Hempty.
  set (catalog := getAttributeNames (attributes primitive)).
  assert (Hf : firstUnresolvable catalog cs st = None).
  { unfold firstUnresolvable. now rewrite Hempty. }
  assert (Hs : stageSucceeds catalog cs st = true).
  { unfold stageSucceeds. rewrite Hf.
    destruct (stageText cs st); [reflexivity|congruence]. }
  assert (Hp : addToShader (partitionAttributes catalog (stageAttributeSet cs st))
               = []).
  { rewrite addToShader_filter by apply getAttributeNames_wellFormed.
    rewrite Hempty. clear.
    induction catalog as [|kv rest IH]; [reflexivity | exact IH]. }
  assert (Hm : missingAttributes
                 (partitionAttributes catalog (stageAttributeSet cs st))
               = []).
  { rewrite missingAttributes_filter. now rewrite Hempty. }
  exists (generated cs primitive),
    (warn (generationWarnings cs primitive) w),
    (generationWarnings cs primitive).
  split; [apply generateShaderLines_closed|].
  assert (Hlines : stageLines (generated cs primitive) st
                   = successfulLines catalog cs st).
  { destruct st; cbn [generated stageLines vertexLines fragmentLines];
      now apply stageSucceeds_generated. }
  rewrite Hlines. unfold successfulLines. rewrite Hp, Hm.
  cbn [presentFields presentLines inferredFields inferredLines map flat_map
       app].
  split; [destruct st; reflexivity|].
  split; [destruct st; reflexivity|].
  split; [destruct st; cbn [initializationLines]; rewrite ?app_nil_r;
          reflexivity|].
  split; [reflexivity|].
  rewrite generationWarnings_filter. fold catalog. unfold stageWarnings.
  rewrite Hf. destruct (isDefined (stageText cs st)); reflexivity.
Qed.

(** X20. The vertex stage does not depend on the fragment stage: two
    custom shaders with the same vertex text and the same vertex attribute
    set get the same vertex lines and the same vertex warnings on a
    primitive, whatever their fragment stages do. *)
Theorem vertex_stage_ignores_fragment_stage cs cs' primitive w :
  vertexShaderText cs = vertexShaderText cs' ->
  attributeSet (usedVariablesVertex cs)
  = attributeSet (usedVariablesVertex cs') ->
  exists g g' ws ws',
    generateShaderLines cs primitive w = (Returned g, warn ws w)
    /\ generateShaderLines cs' primitive w = (Returned g', warn ws' w)
    /\ vertexLines g = vertexLines g'
    /\ filter (warnedBy VertexStage) ws = filter (warnedBy VertexStage) ws'.
Proof.
  intros Ht Hu.
  exists (generated cs primitive), (generated cs' primitive),
    (generationWarnings cs primitive), (generationWarnings cs' primitive).
  split; [apply generateShaderLines_closed|].
  split; [apply generateShaderLines_closed|].
  rewrite !generationWarnings_filter.
  cbn [generated vertexLines].
  unfold generatedLines, stageWarnings, stageSucceeds, successfulLines,
    firstUnresolvable.
  cbn [stageText stageAttributeSet]. rewrite Ht, Hu. split; reflexivity.
Qed.

End PrimitiveProperties.

Section DefineProperties.

Context `{Collaborators}.

Lemma stageEmission_no_define cs st lines :
  filter isDefine (stageEmission cs st lines) = [].
Proof.
  destruct st; unfold stageEmission, structFields, functionLines;
    rewrite !filter_app;
    rewrite !filter_map_none by (intros; reflexivity);
    reflexivity.
Qed.

(** X21. When custom shading is enabled, the defines of a run are, in this
    order and each at most once: COMPUTE_POSITION_WC on the vertex stage
    exactly when [shouldComputePositionWC] is true,
    HAS_CUSTOM_VERTEX_SHADER exactly when there is vertex text, and
    HAS_CUSTOM_FRAGMENT_SHADER followed by the define of the shader's mode
    exactly when there is fragment text; every define has no value. *)
Theorem defines_of_one_run primitive frameState w g w1 :
  let cs := rr_customShader (renderResources w) in
  generateShaderLines cs primitive w = (Returned g, w1) ->
  customShaderEnabled g = true ->
  exists w' calls,
    process primitive frameState w = (Returned tt, w')
    /\ shaderBuilder (renderResources w')
       = shaderBuilder (renderResources w) ++ calls
    /\ filter isDefine calls
       = (if shouldComputePositionWC g
          then [addDefine "COMPUTE_POSITION_WC" None VERTEX] else [])
         ++ (if isDefined (vertexShaderText cs)
             then [addDefine "HAS_CUSTOM_VERTEX_SHADER" None VERTEX]
             else [])
         ++ (if isDefined (fragmentShaderText cs)
             then [addDefine "HAS_CUSTOM_FRAGMENT_SHADER" None FRAGMENT;
                   addDefine (getDefineName (mode cs)) None FRAGMENT]
             else []).
Proof.
  intros cs Hg He. rewrite generateShaderLines_closed in Hg.
  injection Hg as <- _.
  set (g := generated cs primitive) in *.
  exists (processed primitive w), (newCalls cs g).
  split; [apply process_closed|].
  split; [apply processed_shaderBuilder|].
  unfold newCalls. rewrite He. rewrite !filter_app.
  assert (Hem : filter isDefine (emission cs g) = []).
  { unfold emission. rewrite filter_app.
    destruct (enabled (vertexLines g)), (enabled (fragmentLines g));
      rewrite ?stageEmission_no_define; reflexivity. }
  assert (Hde : filter isDefine (declarations cs) = []).
  { unfold declarations. rewrite filter_app.
    rewrite !filter_map_none by (intros; reflexivity). reflexivity. }
  rewrite Hem, Hde, app_nil_r. cbn [app]. unfold defines.
  destruct (shouldComputePositionWC g), (isDefined (vertexShaderText cs)),
    (isDefined (fragmentShaderText cs)); reflexivity.
Qed.

End DefineProperties.

(* ===================================================================== *)
(** * The further properties on concrete primitives and shaders *)
(* ===================================================================== *)


(** X3 on the catalog of that primitive and a shader set in another
    order. *)
Lemma addToShader_keeps_catalog_order_witness :
  let catalog := getAttributeNames Samples.userAttributes in
  let used := Fixture.used ["texCoord_0"; "normal"; "positionMC"] in
  wellFormed catalog
  /\ JsObject.keys (addToShader (partitionAttributes catalog used))
     = ["positionMC"; "texCoord_0"].
Proof.
  intros catalog used.
  assert (Hwf : wellFormed catalog) by reflexivity.
  split; [exact Hwf|].
  exact (proj2 (@addToShader_keeps_catalog_order _ _ catalog used Hwf)).
Defined.

(** X5 on the second set of joints, which the table knows, and on a
    missing attribute named as a member of [Object.prototype]. *)
Lemma inferAttributeDefaults_well_typed_witness :
  let d := {| attributeField := ("ivec4", "joints_1");
              value := Some "ivec4(0)" |} in
  let member := "function Object() { [native code] }" in
  let d' := {| attributeField := (member, "constructor_0");
               value := Some member |} in
  (inferAttributeDefaults "joints_1" = Some d
   /\ inferAttributeDefaults "constructor_0" = Some d')
  /\ snd (attributeField d) = "joints_1"
  /\ (exists arguments,
         value d
         = Some (fst (attributeField d) ++ "(" ++ arguments ++ ")")%string)
  /\ In "constructor" objectPrototypeNames
  /\ value d' = Some (fst (attributeField d')).
Proof.
  intros d member d'.
  assert (Hd : inferAttributeDefaults "joints_1" = Some d) by reflexivity.
  assert (Hd' : inferAttributeDefaults "constructor_0" = Some d')
    by reflexivity.
  split; [split; [exact Hd | exact Hd']|].
  destruct (inferAttributeDefaults_well_typed "joints_1" Hd)
    as (Hn & _ & _ & _ & Hv & _).
  destruct (inferAttributeDefaults_well_typed "constructor_0" Hd')
    as (_ & _ & _ & _ & _ & Hm).
  split; [exact Hn|].
  split; [apply Hv; cbn; auto 10|].
  assert (Hnot : ~ In "constructor"
                     ["positionMC"; "normal"; "tangent"; "texCoord";
                      "joints"; "weights"])
    by (intros [Hk|[Hk|[Hk|[Hk|[Hk|[Hk|[]]]]]]]; discriminate).
  destruct (Hm Hnot) as (Hin & _ & Hsame).
  split; [exact Hin | exact Hsame].
Defined.

(** X7 on a shader whose vertex stage succeeds and whose fragment stage
    meets [color_0]. *)
Lemma generated_code_is_ready_to_commit_witness :
  let cs :=
    Fixture.shader Fixture.vertexText Fixture.fragmentText
      ["positionMC"; "tangent"] ["normal"; "color_0"] ["positionWC"] false in
  let w := Fixture.world cs in
  let g := generated cs Fixture.primitive3 in
  generateShaderLines cs Fixture.primitive3 w
  = (Returned g, warn (generationWarnings cs Fixture.primitive3) w)
  /\ enabled (stageLines g VertexStage) = true
  /\ attributeFields (stageLines g VertexStage) <> None
  /\ initializationLines (stageLines g VertexStage) <> None
  /\ enabled (stageLines g FragmentStage) = false
  /\ stageLines g FragmentStage = disabledLines
  /\ exists calls, addLinesToShader cs g w = (Returned tt, emit calls w).
Proof.
  intros cs w g.
  assert (Hg : generateShaderLines cs Fixture.primitive3 w
               = (Returned g,
                  warn (generationWarnings cs Fixture.primitive3) w))
    by reflexivity.
  destruct (generated_code_is_ready_to_commit cs Fixture.primitive3 w Hg)
    as [Hstage Hcommit].
  destruct (Hstage VertexStage) as [Hv _].
  destruct (Hstage FragmentStage) as [_ Hf].
  assert (Hev : enabled (stageLines g VertexStage) = true) by reflexivity.
  assert (Hef : enabled (stageLines g FragmentStage) = false) by reflexivity.
  destruct (Hv Hev) as (Hfields & Hlines & _).
  split; [exact Hg|].
  split; [exact Hev|].
  split; [exact Hfields|].
  split; [exact Hlines|].
  split; [exact Hef|].
  split; [exact (Hf Hef) | exact (Hcommit w)].
Defined.

(** X8 on the lines of a stage that was never generated. *)
Lemma emitters_throw_on_undefined_fields_witness :
  let w := Fixture.world (Fixture.shader None None [] [] [] false) in
  attributeFields disabledLines = None
  /\ fst (addVertexLinesToShader disabledLines w) = Thrown TypeError
  /\ shaderBuilder
       (renderResources (snd (addFragmentLinesToShader disabledLines w)))
     = [addStruct "AttributesFS" "Attributes" FRAGMENT].
Proof.
  intros w.
  destruct (emitters_throw_on_undefined_fields disabledLines w)
    as (_ & _ & Hthrow).
  destruct (Hthrow eq_refl) as [Hv Hf].
  split; [reflexivity|].
  split; [now rewrite Hv | now rewrite Hf].
Defined.

(** X11 on a shader both of whose stages meet an unresolvable attribute. *)
Lemma disabled_shader_leaves_resources_witness :
  let cs := Samples.incompatibleShader in
  let w :=
    Fixture.worldAfterMaterial cs
      {| pass := Some PASS_OPAQUE; alphaMode := Some MASK |}
      [("u_model", 1%N)] in
  customShaderEnabled (generated cs Fixture.primitive3) = false
  /\ exists w',
       process Fixture.primitive3 tt w = (Returned tt, w')
       /\ renderResources w' = renderResources w
       /\ length (warnings w') = 2.
Proof.
  intros cs w.
  split; [reflexivity|].
  destruct (disabled_shader_leaves_resources Fixture.primitive3 tt w
              (g := generated cs Fixture.primitive3)
              (generateShaderLines_closed _ _ _) eq_refl)
    as (w' & Hp & Hr & Hw).
  exists w'. split; [exact Hp|]. split; [exact Hr|].
  now rewrite Hw.
Defined.

(** X12 on a shader that asks for unlit shading of a PBR material. *)
Lemma lightingModel_overrides_material_witness :
  let cs := Samples.decoratedShader in
  let w := Fixture.world cs in
  customShaderEnabled (generated cs Fixture.primitive3) = true
  /\ exists w',
       process Fixture.primitive3 tt w = (Returned tt, w')
       /\ lo_lightingModel (lightingOptions (renderResources w'))
          = Fixture.UNLIT.
Proof.
  intros cs w.
  split; [reflexivity|].
  exact (lightingModel_overrides_material Fixture.primitive3 tt w
           (g := generated cs Fixture.primitive3)
           (generateShaderLines_closed _ _ _) eq_refl).
Defined.

(** X14 on the same shader, with two uniforms and a varying. *)
Lemma uniforms_and_varyings_declared_witness :
  let cs := Samples.decoratedShader in
  let w := Fixture.world cs in
  customShaderEnabled (generated cs Fixture.primitive3) = true
  /\ exists w' before,
       process Fixture.primitive3 tt w = (Returned tt, w')
       /\ shaderBuilder (renderResources w')
          = shaderBuilder (renderResources w)
            ++ before
            ++ [addUniform "float" "u_time"; addUniform "vec3" "u_tint"]
            ++ [addVarying "float" "v_height"]
       /\ forallb (fun c => negb (isDeclaration c)) before = true.
Proof.
  intros cs w.
  split; [reflexivity|].
  exact (uniforms_and_varyings_declared Fixture.primitive3 tt w
           (g := generated cs Fixture.primitive3)
           (generateShaderLines_closed _ _ _) eq_refl).
Defined.

(** X15 on the same shader, whose position set names positionEC before
    positionMC. *)
Lemma position_builtins_are_input_members_witness :
  let cs := Samples.decoratedShader in
  let w := Fixture.world cs in
  enabled (fragmentLines (generated cs Fixture.primitive3)) = true
  /\ exists w' calls,
       process Fixture.primitive3 tt w = (Returned tt, w')
       /\ shaderBuilder (renderResources w')
          = shaderBuilder (renderResources w) ++ calls
       /\ filter (isFieldOf "FragmentInput") calls
          = [addStructField "FragmentInput" "Attributes" "attributes";
             addStructField "FragmentInput" "vec3" "positionMC";
             addStructField "FragmentInput" "vec3" "positionEC"].
Proof.
  intros cs w.
  split; [reflexivity|].
  exact (position_builtins_are_input_members Fixture.primitive3 tt w
           (g := generated cs Fixture.primitive3)
           (generateShaderLines_closed _ _ _) eq_refl).
Defined.

(** X16 on the fragment stage of the same shader: texCoord_0 comes from the
    primitive, joints_0 from the default policy. *)
Lemma every_used_attribute_gets_one_field_witness :
  let cs := Samples.decoratedShader in
  let w := Fixture.world cs in
  let g := generated cs Fixture.primitive3 in
  (enabled (stageLines g FragmentStage) = true
   /\ NoDup (JsObject.keys (stageAttributeSet cs FragmentStage)))
  /\ exists fields lines,
       attributeFields (stageLines g FragmentStage) = Some fields
       /\ initializationLines (stageLines g FragmentStage) = Some lines
       /\ map snd fields = ["texCoord_0"; "joints_0"]
       /\ NoDup (map snd fields)
       /\ length lines = length fields + 2.
Proof.
  intros cs w g.
  assert (Hnd : NoDup (JsObject.keys (stageAttributeSet cs FragmentStage)))
    by distinct_keys.
  split; [split; [reflexivity | exact Hnd]|].
  destruct (every_used_attribute_gets_one_field cs Fixture.primitive3 w
              FragmentStage (generateShaderLines_closed _ _ _) eq_refl Hnd)
    as (fields & lines & Hf & Hl & Hn & Hd & _ & Hlen & _).
  exists fields, lines. repeat split; assumption.
Defined.

(** X17 on a primitive that gets a temperature attribute no stage uses. *)
Lemma unused_attribute_is_skipped_witness :
  let cs :=
    Fixture.shader Fixture.vertexText Fixture.fragmentText
      ["positionMC"] ["normal"; "color_0"] [] false in
  let a := Fixture.custom "_TEMPERATURE" Fixture.SCALAR in
  let w := Fixture.world cs in
  (JsObject.hasOwnProperty (attributeSet (usedVariablesVertex cs))
     (variableNameOf a) = false
   /\ JsObject.hasOwnProperty (attributeSet (usedVariablesFragment cs))
        (variableNameOf a) = false)
  /\ generateShaderLines cs
       {| attributes := attributes Fixture.primitive3 ++ [a] |} w
     = generateShaderLines cs
         {| attributes := attributes Fixture.primitive3 |} w.
Proof.
  intros cs a w.
  split; [split; reflexivity|].
  exact (unused_attribute_is_skipped cs (attributes Fixture.primitive3) a w
           eq_refl eq_refl).
Defined.

(** X18 on a vertex stage that infers the normal, and then gets one. *)
Lemma more_attributes_never_disable_witness :
  let cs :=
    Fixture.shader Fixture.vertexText None ["positionMC"; "normal"] [] []
      false in
  let w := Fixture.world cs in
  let more := [Fixture.standard Fixture.NORMAL None Fixture.VEC3] in
  enabled
    (stageLines (generated cs Fixture.primitive1) VertexStage) = true
  /\ exists g' w1' ws,
       generateShaderLines cs
         {| attributes := attributes Fixture.primitive1 ++ more |} w
       = (Returned g', w1')
       /\ enabled (stageLines g' VertexStage) = true
       /\ warnings w1' = warnings w ++ ws
       /\ filter (warnedBy VertexStage) ws = [].
Proof.
  intros cs w more.
  split; [reflexivity|].
  exact (more_attributes_never_disable cs (attributes Fixture.primitive1)
           more w VertexStage
           (generateShaderLines_closed cs Fixture.primitive1 w) eq_refl).
Defined.

(** X19 on a vertex shader that reads no attribute, and a primitive
    without attributes. *)
Lemma stage_without_attributes_succeeds_witness :
  let cs := Fixture.shader Fixture.vertexText None [] [] [] false in
  let primitive := {| attributes := [] |} in
  let w := Fixture.world cs in
  (stageText cs VertexStage <> None /\ stageAttributeSet cs VertexStage = [])
  /\ exists g w1 ws,
       generateShaderLines cs primitive w = (Returned g, w1)
       /\ enabled (stageLines g VertexStage) = true
       /\ attributeFields (stageLines g VertexStage) = Some []
       /\ initializationLines (stageLines g VertexStage) = Some []
       /\ warnings w1 = warnings w ++ ws
       /\ filter (warnedBy VertexStage) ws = [].
Proof.
  intros cs primitive w.
  assert (Ht : stageText cs VertexStage <> None) by discriminate.
  split; [split; [exact Ht | reflexivity]|].
  exact (stage_without_attributes_succeeds cs primitive w VertexStage Ht
           eq_refl).
Defined.

(** X20 on two shaders with the same vertex stage, one of them with a
    fragment stage that fails. *)
Lemma vertex_stage_ignores_fragment_stage_witness :
  let cs :=
    Fixture.shader Fixture.vertexText Fixture.fragmentText
      ["positionMC"; "tangent"] ["normal"] [] false in
  let cs' :=
    Fixture.shader Fixture.vertexText Fixture.fragmentText
      ["positionMC"; "tangent"] ["color_0"] ["positionWC"] true in
  let w := Fixture.world cs in
  (vertexShaderText cs = vertexShaderText cs'
   /\ attributeSet (usedVariablesVertex cs)
      = attributeSet (usedVariablesVertex cs'))
  /\ exists g g' ws ws',
       generateShaderLines cs Fixture.primitive3 w = (Returned g, warn ws w)
       /\ generateShaderLines cs' Fixture.primitive3 w
          = (Returned g', warn ws' w)
       /\ vertexLines g = vertexLines g'
       /\ filter (warnedBy VertexStage) ws
          = filter (warnedBy VertexStage) ws'.
Proof.
  intros cs cs' w.
  split; [split; reflexivity|].
  exact (vertex_stage_ignores_fragment_stage cs cs' Fixture.primitive3 w
           eq_refl eq_refl).
Defined.

(** X21 on the decorated shader, which does not read positionWC. *)
Lemma defines_of_one_run_witness :
  let cs := Samples.decoratedShader in
  let w := Fixture.world cs in
  customShaderEnabled (generated cs Fixture.primitive3) = true
  /\ exists w' calls,
       process Fixture.primitive3 tt w = (Returned tt, w')
       /\ shaderBuilder (renderResources w')
          = shaderBuilder (renderResources w) ++ calls
       /\ filter isDefine calls
          = [addDefine "HAS_CUSTOM_VERTEX_SHADER" None VERTEX;
             addDefine "HAS_CUSTOM_FRAGMENT_SHADER" None FRAGMENT;
             addDefine "CUSTOM_SHADER_REPLACE_MATERIAL" None FRAGMENT].
Proof.
  intros cs w.
  split; [reflexivity|].
  exact (defines_of_one_run Fixture.primitive3 tt w
           (g := generated cs Fixture.primitive3)
           (generateShaderLines_closed _ _ _) eq_refl).
Defined.

(* ===================================================================== *)
(** * Further properties: the types of the fields *)
(* ===================================================================== *)

Section FieldTypes.

Context `{Collaborators}.

Lemma inferredFields_origin missing t n :
  In (t, n) (inferredFields missing) ->
  In n missing /\ attributeTypeLUT (JsString.stripSetIndex n) = Some t.
Proof.
  intros Hin. apply in_flat_map in Hin. destruct Hin as (m & Hm & Hf).
  unfold inferAttributeDefaults in Hf.
  destruct (attributeTypeLUT (JsString.stripSetIndex m)) as [t'|] eqn:E;
    [|contradiction].
  destruct Hf as [Heq|[]]. cbn [attributeField] in Heq.
  injection Heq as -> ->. now split.
Qed.

(** X22. In the lines of an enabled stage, the field of an attribute the
    primitive has carries the GLSL type of the primitive's attribute, also
    for a name the default table knows; only the field of an attribute the
    primitive lacks takes its type from the table, looked up under the
    trimmed name. *)
Theorem field_types_follow_the_primitive cs primitive w g w1 st :
  let catalog := getAttributeNames (attributes primitive) in
  generateShaderLines cs primitive w = (Returned g, w1) ->
  enabled (stageLines g st) = true ->
  exists fields,
    attributeFields (stageLines g st) = Some fields
    /\ forall t n, In (t, n) fields ->
         (exists a, JsObject.get catalog n = Some a
                    /\ t = getGlslType (type a))
         \/ (JsObject.hasOwnProperty catalog n = false
             /\ attributeTypeLUT (JsString.stripSetIndex n) = Some t).
Proof.
  intros catalog Hg He.
  rewrite generateShaderLines_closed in Hg. injection Hg as <- _.
  destruct (enabled_lines_successful cs primitive st He) as [Hlines _].
  fold catalog in Hlines.
  set (categories := partitionAttributes catalog (stageAttributeSet cs st)).
  exists (presentFields (addToShader categories)
          ++ inferredFields (missingAttributes categories)).
  split; [rewrite Hlines; destruct st; reflexivity|].
  assert (Hwf : wellFormed catalog) by apply getAttributeNames_wellFormed.
  intros t n Hin. apply in_app_or in Hin. destruct Hin as [Hp|Hi].
  - left. unfold presentFields in Hp. apply in_map_iff in Hp.
    destruct Hp as ([k a] & Heq & Hka).
    unfold generateAttributeField in Heq. cbn [fst snd] in Heq.
    injection Heq as <- <-.
    subst categories. rewrite (addToShader_filter _ Hwf) in Hka.
    apply filter_In in Hka. destruct Hka as [Hka _].
    exists a. split; [|reflexivity].
    apply In_get; [now apply wellFormed_NoDup | exact Hka].
  - right. apply inferredFields_origin in Hi. destruct Hi as [Hm Ht].
    split; [|exact Ht].
    subst categories. rewrite missingAttributes_filter in Hm.
    apply filter_In in Hm. destruct Hm as [_ Hm].
    now apply negb_true_iff in Hm.
Qed.

End FieldTypes.

(** X22 on a primitive whose tangent is a [vec3], where the table would say
    [vec4]. *)
Lemma field_types_follow_the_primitive_witness :
  let cs :=
    Fixture.shader Fixture.vertexText None ["tangent"; "normal"] [] []
      false in
  let primitive :=
    {| attributes := [Fixture.standard Fixture.TANGENT None Fixture.VEC3] |} in
  let w := Fixture.world cs in
  let g := generated cs primitive in
  enabled (stageLines g VertexStage) = true
  /\ attributeFields (stageLines g VertexStage)
     = Some [("vec3", "tangent"); ("vec3", "normal")]
  /\ attributeTypeLUT "tangent" = Some "vec4"
  /\ exists a,
       JsObject.get (getAttributeNames (attributes primitive)) "tangent"
       = Some a
       /\ "vec3" = getGlslType (type a).
Proof.
  intros cs primitive w g.
  split; [reflexivity|]. split; [reflexivity|]. split; [reflexivity|].
  destruct (field_types_follow_the_primitive cs primitive w VertexStage
              (generateShaderLines_closed _ _ _) eq_refl)
    as (fields & Hf & Htypes).
  injection Hf as <-.
  destruct (Htypes "vec3" "tangent" (or_introl eq_refl)) as [Ha|[Hno _]].
  - exact Ha.
  - discriminate Hno.
Defined.
